(** * GANBLR: probability-table reconstruction and training orchestration

    A shallow embedding of [ganblr/models/ganblr.py].

    Numbers: NumPy/TensorFlow floats are idealised as real numbers ([R]);
    [np.exp] is [exp], [np.log] is [ln].  Where a property is about the
    range of float32 itself, a zero divisor after an underflow, [np.exp] is
    [exp_f32], which rounds to zero and to infinity as float32 does.
    Discrete data (feature values,
    labels, one-hot encodings) are integers.  A two-dimensional array is a
    list of rows; its NumPy shape is [(length m, length (hd [] m))]. *)

From Stdlib Require Import String DecimalString.
From Stdlib Require Import List Arith Lia Bool ZArith Reals Lra.
Import ListNotations.

Local Open Scope R_scope.

(** ** NumPy helpers used by [GANBLR.sample] *)

Abbreviation RMatrix := (list (list R)).

Fixpoint rsum (l : list R) : R :=
  match l with
  | [] => 0
  | x :: t => x + rsum t
  end.

Definition shape1 {A : Type} (m : list (list A)) : nat := length (hd [] m).

(** [m[:, j]] *)
Definition column (j : nat) (m : RMatrix) : list R :=
  map (fun row => nth j row 0) m.

(** [m.sum(axis=0)] *)
Definition sum_axis0 (m : RMatrix) : list R :=
  map (fun j => rsum (column j m)) (seq 0 (shape1 m)).

(** [m.T] *)
Definition transpose (m : RMatrix) : RMatrix :=
  map (fun j => column j m) (seq 0 (shape1 m)).

(** [m.ravel()] of a two-dimensional array (row-major order). *)
Definition ravel {A : Type} (m : list (list A)) : list A := concat m.

(** [np.exp(m)] *)
Definition np_exp (m : RMatrix) : RMatrix := map (map exp) m.

(** [np.cumsum] on non-negative integers. *)
Fixpoint cumsum_from (acc : nat) (l : list nat) : list nat :=
  match l with
  | [] => []
  | x :: t => (acc + x)%nat :: cumsum_from (acc + x) t
  end.

Definition cumsum (l : list nat) : list nat := cumsum_from 0 l.

(** [[(idxs[i], idxs[i+1]) for i in range(len(idxs)-1)]] *)
Fixpoint consecutive (idxs : list nat) : list (nat * nat) :=
  match idxs with
  | a :: ((b :: _) as t) => (a, b) :: consecutive t
  | _ => []
  end.

(** [m[start:end, :]] *)
Definition slice {A : Type} (start stop : nat) (m : list A) : list A :=
  firstn (stop - start) (skipn start m).

(** [p / p.sum(axis=0)]: every row divided entrywise by the column sums. *)
Definition div_rows (p : RMatrix) (s : list R) : RMatrix :=
  map (fun row => map (fun xs => fst xs / snd xs) (combine row s)) p.

Definition normalize_group (p : RMatrix) : RMatrix := div_rows p (sum_axis0 p).

(** A boolean N-dimensional array: its shape and its elements in C order. *)
Record BoolArray := mkBoolArray {
  ba_shape : list nat;
  ba_data : list bool
}.

Definition count_true (m : list bool) : nat := length (filter (fun b => b) m).

(** [have_value.shape[-1]] *)
Definition last_dim (a : BoolArray) : nat := last (ba_shape a) 0%nat.

(** [full[mask] = vals] on a zero array: the values go, in order, to the
    positions where the mask holds. *)
Fixpoint fill (mask : list bool) (vals : list R) : list R :=
  match mask with
  | [] => []
  | true :: m => hd 0 vals :: fill m (tl vals)
  | false :: m => 0 :: fill m vals
  end.

(** Boolean-mask assignment.  NumPy accepts as many values as the mask has
    true positions, or a single value (broadcast); anything else raises
    [ValueError]. *)
Definition mask_assign (mask : list bool) (vals : list R) : option (list R) :=
  if (length vals =? count_true mask)%nat then Some (fill mask vals)
  else if (length vals =? 1)%nat then Some (fill mask (repeat (hd 0 vals) (length mask)))
  else None.

(** [v.reshape(-1, n)] of a one-dimensional array. *)
Definition reshape_rows {A : Type} (v : list A) (n : nat) : option (list (list A)) :=
  if (n =? 0)%nat then (if (length v =? 0)%nat then Some [] else None)
  else if (length v mod n =? 0)%nat
       then Some (map (fun i => firstn n (skipn (i * n) v)) (seq 0 (length v / n)))
       else None.

(** Modelled from the spec: [_add_uniform] of the [kdb] module, which is not
    among the sources.  The spec calls it uniform smoothing, with zero noise
    a "pass-through safeguard against degenerate zero columns": a column
    that sums to zero becomes the uniform distribution over the rows; with
    zero noise every other column passes through unchanged, otherwise the
    noise is added to its zero entries. *)
Definition _add_uniform (array : RMatrix) (noise : R) : RMatrix :=
  let sum_by_col := sum_axis0 array in
  let nunique := length array in
  map (fun row =>
         map (fun xs =>
                let '(x, s) := xs in
                if Req_dec_T s 0 then x + 1 / INR nunique
                else if Req_dec_T noise 0 then x
                else if Req_dec_T x 0 then x + noise else x)
             (combine row sum_by_col))
      array.

(** ** The data the sampler reads *)

(** Modelled from the spec: the encoder handle [_kdbe] of [DataUtils]
    ([KdbHighOrderFeatureEncoder], not among the sources), reduced to the
    attributes [sample] reads. *)
Record KdbEncoder := mkKdbEncoder {
  constraints_ : list nat;
  high_order_feature_uniques_ : list nat;
  have_value_idxs_ : list BoolArray;
  dependencies_ : list (nat * list nat);
  edges_ : list (nat * nat)
}.

(** The generator's [get_weights()]: the kernel of shape
    [encoded-width, num_classes] and the bias; [weights[0]] is the kernel. *)
Record Weights := mkWeights {
  kernel : RMatrix;
  bias : list R
}.

(** ** Steps 1-3 of the reconstruction: exponentiate, normalise per group *)

Definition constraint_idxs (constraints : list nat) : list (nat * nat) :=
  consecutive (cumsum (0%nat :: constraints)).

Definition group_slices (constraints : list nat) (probs : RMatrix) : list RMatrix :=
  map (fun se => slice (fst se) (snd se) probs) (constraint_idxs constraints).

Definition cpd_probs_of (constraints : list nat) (w : RMatrix) : RMatrix :=
  let probs := np_exp w in
  concat (map normalize_group (group_slices constraints probs)).

(** ** Step 4: scatter through the have-value mask *)

Definition full_cpd_prob_of (num_classes : nat) (have_value : BoolArray)
    (cpd_prob_ : RMatrix) : option RMatrix :=
  let have_value_ravel := ba_data have_value in
  let have_value_ravel_repeat := concat (repeat have_value_ravel num_classes) in
  match mask_assign have_value_ravel_repeat (ravel (transpose cpd_prob_)) with
  | None => None
  | Some full_cpd_prob_ravel =>
      match reshape_rows full_cpd_prob_ravel (last_dim have_value) with
      | None => None
      | Some r => Some (_add_uniform (transpose r) 0)
      end
  end.

Fixpoint collect {A : Type} (l : list (option A)) : option (list A) :=
  match l with
  | [] => Some []
  | None :: _ => None
  | Some a :: t => option_map (cons a) (collect t)
  end.

(** The loop over [zip(have_value_idxs, feature_idxs)]. *)
Definition full_cpd_probs_of (num_classes : nat) (e : KdbEncoder) (w : RMatrix)
    : option (list RMatrix) :=
  let cpd_probs := cpd_probs_of (constraints_ e) w in
  let feature_idxs := consecutive (cumsum (0%nat :: high_order_feature_uniques_ e)) in
  collect (map (fun hs =>
                  let '(have_value, (start, stop)) := hs in
                  full_cpd_prob_of num_classes have_value (slice start stop cpd_probs))
               (combine (have_value_idxs_ e) feature_idxs)).

(** ** The encoder contract

    Modelled from the spec: what [KdbHighOrderFeatureEncoder] (not among the
    sources) guarantees about its attributes.  A have-value mask has the
    shape (parent combinations..., own cardinality); a constraint group is
    the block of encoded columns of one parent combination of one feature,
    so its size is the number of valid own values of that combination; the
    encoded cardinality of a feature is the number of valid positions of its
    mask. *)

Definition have_value_rows (hv : BoolArray) : list (list bool) :=
  let n := last_dim hv in
  map (fun i => firstn n (skipn (i * n) (ba_data hv)))
      (seq 0 (length (ba_data hv) / n)).

Definition ba_wf (hv : BoolArray) : bool :=
  ((length (ba_data hv) =? fold_right Nat.mul 1%nat (ba_shape hv))%nat
   && (0 <? last_dim hv)%nat)%bool.

Definition list_nat_eqb (a b : list nat) : bool :=
  if list_eq_dec Nat.eq_dec a b then true else false.

Definition encoder_wf (e : KdbEncoder) : bool :=
  (forallb ba_wf (have_value_idxs_ e)
   && list_nat_eqb (constraints_ e)
        (flat_map (fun hv => map count_true (have_value_rows hv)) (have_value_idxs_ e))
   && list_nat_eqb (high_order_feature_uniques_ e)
        (map (fun hv => count_true (ba_data hv)) (have_value_idxs_ e)))%bool.

(** ** Notions used to state the properties of the reconstruction *)

(** Cutting a list into consecutive pieces of the given sizes. *)
Fixpoint split_by {A : Type} (cs : list nat) (m : list A) : list (list A) :=
  match cs with
  | [] => []
  | c :: t => firstn c m :: split_by t (skipn c m)
  end.

(** A matrix with [C] columns and positive entries. *)
Definition positive_rows (C : nat) (g : RMatrix) : Prop :=
  Forall (fun row => length row = C /\ Forall (fun x => 0 < x) row) g.

(** Scattering block by block. *)
Fixpoint fill_blocks (masks : list (list bool)) (vals : list (list R)) : list (list R) :=
  match masks, vals with
  | m :: ms, v :: vs => fill m v :: fill_blocks ms vs
  | _, _ => []
  end.

(** What one scattered block sums to: a normalised non-empty group gives 1,
    an empty group (a parent combination never observed) gives 0. *)
Definition block_of (row : list bool) (v : list R) : Prop :=
  length v = count_true row /\ (rsum v = 1 \/ rsum v = 0).

(** The number of valid own values per parent combination. *)
Definition row_counts (hv : BoolArray) : list nat :=
  map count_true (have_value_rows hv).

(** A table with one column per (class, parent combination), each summing
    to 1. *)
Definition stochastic_table (C : nat) (hv : BoolArray) (t : RMatrix) : Prop :=
  length (sum_axis0 t) = (C * length (have_value_rows hv))%nat
  /\ Forall (fun s => s = 1) (sum_axis0 t).

(** [w + c] with a row vector [c], and [m * exp(c)]. *)
Definition shift_rows (c : list R) (w : list (list R)) : list (list R) :=
  map (fun row => map (fun xc => fst xc + snd xc) (combine row c)) w.

(** One row times [exp(c)], entry by entry. *)
Definition scale_row (c : list R) (row : list R) : list R :=
  map (fun xc => fst xc * exp (snd xc)) (combine row c).

(** Two groups of logits that differ by one constant per class. *)
Definition shifted_group (g1 g2 : list (list R)) : Prop :=
  exists c, Forall (fun row => length row = length c) g2 /\ g1 = shift_rows c g2.














(** ** Elastic Softmax Loss *)

Section ElasticSoftmaxLoss.

(** The stabilizing term of the loss, which the spec leaves open. *)
Variable stabilizer : list R -> list R -> R.

(** Categorical cross-entropy of one sample: true one-hot label against
    predicted class probabilities. *)
Definition categorical_crossentropy_fn (y_true y_pred : list R) : R :=
  - rsum (map (fun tp => fst tp * ln (snd tp)) (combine y_true y_pred)).

(** Modelled from the spec: [elr_loss] of the [utils] module (not among the
    sources): per sample, categorical cross-entropy plus [loss] times a
    stabilizing term. *)
Definition elr_loss (loss : R) (y_true y_pred : list R) : R :=
  categorical_crossentropy_fn y_true y_pred + loss * stabilizer y_true y_pred.

(** A per-sample loss on a batch of (label, prediction) pairs. *)
Definition on_batch (f : list R -> list R -> R) (batch : list (list R * list R))
    : list R :=
  map (fun s => f (fst s) (snd s)) batch.

End ElasticSoftmaxLoss.

(** ** Python values, exceptions and results *)

Abbreviation DMatrix := (list (list Z)).

(** The values the untyped arguments ([verbose], [model]) can take: [None],
    a bool, an int, a string, or an object given by its attribute names. *)
Inductive PyValue :=
| PyNone
| PyBool (b : bool)
| PyInt (z : Z)
| PyStr (s : string)
| PyObj (attrs : list string) (ident : nat).

Inductive PyError :=
| InvalidArgument   (* [Exception('Invalid Arugument')] *)
| AttributeError
| TypeError
| ValueError
| KeyError
| IndexError
  (** an exception of class [cls] raised inside an estimator's own [fit] or
      [predict] *)
| EstimatorError (cls : string).

Inductive Result (A : Type) :=
| Ok (a : A)
| Raise (e : PyError).
Arguments Ok {A} a.
Arguments Raise {A} e.

(** [isinstance(v, int)]; [bool] is a subclass of [int]. *)
Definition isinstance_int (v : PyValue) : bool :=
  match v with PyBool _ | PyInt _ => true | _ => false end.

(** [if verbose is None or not isinstance(verbose, int): verbose = 1] *)
Definition normalize_verbose (verbose : PyValue) : PyValue :=
  match verbose with
  | PyNone => PyInt 1
  | _ => if negb (isinstance_int verbose) then PyInt 1 else verbose
  end.

(** [verbose > 0] for an int or a bool. *)
Definition gt_zero (v : PyValue) : bool :=
  match v with
  | PyInt z => (0 <? z)%Z
  | PyBool b => b
  | _ => false
  end.

(** [model == s] for a string literal [s]. *)
Definition py_eq_str (v : PyValue) (s : string) : bool :=
  match v with PyStr t => String.eqb t s | _ => false end.

(** [hasattr(v, name)]; [None], bools, ints and strings have no such
    estimator attribute. *)
Definition hasattr (v : PyValue) (name : string) : bool :=
  match v with
  | PyObj attrs _ => existsb (String.eqb name) attrs
  | _ => false
  end.

(** [str(i)] of a non-negative integer. *)
Definition str (i : nat) : string := NilEmpty.string_of_uint (Nat.to_uint i).

(** ** Data model *)

(** Modelled from the spec: [DataUtils] of the [utils] module (not among the
    sources), with the attributes the model reads; [get_kdbe_x k] is the
    one-hot encoded design matrix for dependency order [k].  The record is
    the object as it is once [get_kdbe_x] has built the encoder and the
    constraint positions, which [_warmup_run] and [_run_generator] do before
    they read either; an object whose encoder was never built, on which
    [sample] fails at its first read of [_kdbe], is not represented. *)
Record DataUtils := mkDataUtils {
  data_size : nat;
  num_features : nat;
  num_classes : nat;
  feature_uniques : list nat;
  class_counts : list nat;
  _kdbe : KdbEncoder;
  constraint_positions : list nat;
  data_y : list Z;                      (* [d.y] *)
  get_kdbe_x : option nat -> DMatrix
}.

(** Modelled from the spec: [softmax_weight] of the [utils] module, the
    kernel constraint built from the constraint positions. *)
Inductive Constraint :=
| softmax_weight (positions : list nat).

Inductive Activation := softmax | sigmoid.

(** The losses a network is compiled with. *)
Inductive Loss :=
| categorical_crossentropy
| binary_crossentropy
| elr_loss_of (loss : R).

(** The state of an optimizer: step count and moment accumulators. *)
Record OptState := mkOptState {
  opt_iterations : nat;
  opt_slots : list RMatrix
}.

(** [optimizer='adam']: a new optimizer without accumulated state. *)
Definition adam : OptState := mkOptState 0 [].

(** A compiled [tf.keras.Sequential] with one [Dense] layer. *)
Record Network := mkNetwork {
  net_units : nat;
  net_input_dim : nat;
  net_activation : Activation;
  net_kernel_constraint : option Constraint;
  net_loss : Loss;
  net_optimizer : OptState;
  net_weights : Weights
}.

Definition set_weights (net : Network) (w : Weights) : Network :=
  mkNetwork (net_units net) (net_input_dim net) (net_activation net)
            (net_kernel_constraint net) (net_loss net) (net_optimizer net) w.

Record TabularCPD := mkTabularCPD {
  variable : string;
  variable_card : nat;
  values : RMatrix;
  evidence : list string;
  evidence_card : list nat
}.

Record BayesianNetwork := mkBayesianNetwork {
  bn_edges : list (string * string);
  bn_cpds : list TabularCPD
}.

Record DataFrame := mkDataFrame {
  df_columns : list string;
  df_values : DMatrix
}.

(** The classifiers [evaluate] can fit. *)
Inductive Classifier :=
| LogisticRegression
| MLPClassifier
| RandomForestClassifier.

Inductive Estimator :=
| Plain (clf : Classifier)
  (** [Pipeline([('scaler', StandardScaler()), (name, clf)])] *)
| ScaledPipeline (name : string) (clf : Classifier)
  (** an object passed by the caller *)
| UserModel (model : PyValue).

(** The fields of a [GANBLR] object; [None] until assigned. *)
Record GANBLR := mkGANBLR {
  __d : option DataUtils;
  __gen_weights : option Weights;
  batch_size : option nat;
  epochs : option nat;
  k : option nat;
  constraints : option Constraint
}.

(** [GANBLR.__init__] *)
Definition __init__ : GANBLR := mkGANBLR None None None None None None.

(** ** Collaborators

    The libraries the model calls.  What they compute is outside the
    program; each is a function of its arguments, of the Keras global state
    where it is a Keras call, and of the ambient random state (the global
    NumPy and TensorFlow generators) where it draws random numbers. *)
Class Collaborators := {
  Rng : Type;
  Session : Type;
  History : Type;
  Fitted : Type;
  (** the Keras global state left by [tf.keras.backend.clear_session()] *)
  fresh_session : Session;
  (** [DataUtils(x, y)] *)
  DataUtils_init : DMatrix -> list Z -> DataUtils;
  (** what [tf.keras.Sequential()] does to the Keras global state *)
  sequential_init : Session -> Session;
  (** initial weights of [Dense(units, input_dim=input_dim)] *)
  dense_init : nat -> nat -> Session -> Rng -> Weights * Session * Rng;
  (** [net.fit(x, y, batch_size=batch_size, epochs=epochs)] *)
  keras_fit : Network -> DMatrix -> list Z -> option nat -> nat -> Session -> Rng ->
              History * Network * Session * Rng;
  (** [net.predict(x)], flattened *)
  keras_predict : Network -> DMatrix -> Session -> list R * Session;
  (** [utils.sample(x, y, frac=frac)] *)
  utils_sample : DMatrix -> list Z -> R -> Rng -> (DMatrix * list Z) * Rng;
  (** [BayesianModelSampling(bn).forward_sample(size, show_progress)] *)
  forward_sample : BayesianNetwork -> nat -> bool -> Rng -> DataFrame * Rng;
  (** [estimator.fit(x, y)] and [fitted.predict(x)] of scikit-learn or of
      the caller's object: either returns ([inl]) or raises an exception of
      the class named ([inr]) *)
  sklearn_fit : Estimator -> DMatrix -> list Z -> Rng -> (Fitted + string) * Rng;
  sklearn_predict : Fitted -> DMatrix -> list Z + string
}.

(** ** Pure helpers of [sample], [fit] and [evaluate] *)

(** [np.mean] *)
Definition np_mean (l : list R) : R := rsum l / INR (length l).

(** [np.mean(-np.log(np.subtract(1, prob_fake)))] *)
Definition KL_loss (prob_fake : list R) : R :=
  np_mean (map (fun p => - ln (1 - p)) prob_fake).

Fixpoint index_of (name : string) (cols : list string) : option nat :=
  match cols with
  | [] => None
  | c :: t => if String.eqb name c then Some 0%nat
              else option_map S (index_of name t)
  end.

(** [df[names].values]; a missing column raises [KeyError]. *)
Definition df_getitem (df : DataFrame) (names : list string) : Result DMatrix :=
  match collect (map (fun n => index_of n (df_columns df)) names) with
  | None => Raise KeyError
  | Some idxs => Ok (map (fun row => map (fun i => nth i row 0%Z) idxs) (df_values df))
  end.

(** [OneHotEncoder().fit_transform(X)], densely: per column the sorted
    distinct values, per row the concatenated indicator vectors. *)
Fixpoint insert_unique (z : Z) (l : list Z) : list Z :=
  match l with
  | [] => [z]
  | h :: t => if (z <? h)%Z then z :: l
              else if (z =? h)%Z then l
              else h :: insert_unique z t
  end.

Definition categories (col : list Z) : list Z := fold_right insert_unique [] col.

Definition one_hot (cats : list Z) (v : Z) : list Z :=
  map (fun c => if (c =? v)%Z then 1%Z else 0%Z) cats.

Definition OneHotEncoder_fit_transform (X : DMatrix) : DMatrix :=
  let cols := seq 0 (shape1 X) in
  let cats := map (fun j => categories (map (fun row => nth j row 0%Z) X)) cols in
  map (fun row =>
         concat (map (fun jc => one_hot (snd jc) (nth (fst jc) row 0%Z))
                     (combine cols cats)))
      X.

(** [accuracy_score(y_true, y_pred)]; inconsistent lengths raise
    [ValueError]. *)
Definition accuracy_score (y_true y_pred : list Z) : Result R :=
  if (length y_true =? length y_pred)%nat
  then Ok (INR (length (filter (fun p => (fst p =? snd p)%Z) (combine y_true y_pred)))
           / INR (length y_true))
  else Raise ValueError.

(** [(d.class_counts / d.data_size).reshape(-1, 1)] *)
Definition y_probs_of (d : DataUtils) : RMatrix :=
  map (fun c => [INR c / INR (data_size d)]) (class_counts d).

Section Model.

Context {collab : Collaborators}.

(** The calls that cross the boundary of the program, with their arguments
    and results, in the order they happen. *)
Inductive Event :=
| EvClearSession
| EvDenseInit (input_dim units : nat) (w : Weights)
| EvFit (net : Network) (x : DMatrix) (y : list Z) (batch : option nat) (n_epochs : nat)
        (trained : Network)
| EvPredict (net : Network) (x : DMatrix) (p : list R)
| EvSubsample (x : DMatrix) (y : list Z) (frac : R) (x' : DMatrix) (y' : list Z)
| EvForwardSample (bn : BayesianNetwork) (size : nat) (show_progress : bool) (df : DataFrame)
| EvSklearnFit (m : Estimator) (x : DMatrix) (y : list Z)
| EvSklearnPredict (x : DMatrix) (pred : list Z + string).

(** Everything a call can read or change: the object, the ambient random
    state, the Keras global state, and the log of boundary calls. *)
Record World := mkWorld {
  self : GANBLR;
  rng : Rng;
  session : Session;
  log : list Event
}.

(** State and exceptions: a raised exception keeps the state reached. *)
Definition M (A : Type) : Type := World -> Result A * World.

Definition ret {A : Type} (a : A) : M A := fun w => (Ok a, w).

Definition raise {A : Type} (e : PyError) : M A := fun w => (Raise e, w).

Definition bind {A B : Type} (m : M A) (f : A -> M B) : M B :=
  fun w => match m w with
           | (Ok a, w') => f a w'
           | (Raise e, w') => (Raise e, w')
           end.

Notation "x <- m ;; f" := (bind m (fun x => f))
  (at level 61, m at next level, right associativity).
Notation "' pat <- m ;; f" := (bind m (fun x => match x with pat => f end))
  (at level 61, pat pattern, m at next level, right associativity).
Notation "m ;;; f" := (bind m (fun _ => f))
  (at level 61, right associativity).

Definition get_self : M GANBLR := fun w => (Ok (self w), w).

Definition put_self (g : GANBLR) : M unit :=
  fun w => (Ok tt, mkWorld g (rng w) (session w) (log w)).

Definition emit (e : Event) : M unit :=
  fun w => (Ok tt, mkWorld (self w) (rng w) (session w) (log w ++ [e])).

Definition of_option {A : Type} (o : option A) (e : PyError) : M A :=
  match o with Some a => ret a | None => raise e end.

Fixpoint mapM {A B : Type} (f : A -> M B) (l : list A) : M (list B) :=
  match l with
  | [] => ret []
  | a :: t => b <- f a ;; bs <- mapM f t ;; ret (b :: bs)
  end.

(** Attribute assignments [self.<field> = v]. *)
Definition set___d (v : option DataUtils) : M unit :=
  g <- get_self ;;
  put_self (mkGANBLR v (__gen_weights g) (batch_size g) (epochs g) (k g) (constraints g)).

Definition set___gen_weights (v : option Weights) : M unit :=
  g <- get_self ;;
  put_self (mkGANBLR (__d g) v (batch_size g) (epochs g) (k g) (constraints g)).

Definition set_batch_size (v : option nat) : M unit :=
  g <- get_self ;;
  put_self (mkGANBLR (__d g) (__gen_weights g) v (epochs g) (k g) (constraints g)).

Definition set_k (v : option nat) : M unit :=
  g <- get_self ;;
  put_self (mkGANBLR (__d g) (__gen_weights g) (batch_size g) (epochs g) v (constraints g)).

Definition set_constraints (v : option Constraint) : M unit :=
  g <- get_self ;;
  put_self (mkGANBLR (__d g) (__gen_weights g) (batch_size g) (epochs g) (k g) v).

(** *** Calls to the collaborators *)

(** [tf.keras.backend.clear_session()] *)
Definition clear_session : M unit :=
  fun w => (Ok tt, mkWorld (self w) (rng w) fresh_session (log w ++ [EvClearSession])).

(** [tf.keras.Sequential()]: an empty model.  The call takes no argument
    and is not logged; its effect is on the Keras global state. *)
Definition new_sequential : M unit :=
  fun w => (Ok tt, mkWorld (self w) (rng w) (sequential_init (session w)) (log w)).

(** [model.add(Dense(units, input_dim, activation, kernel_constraint))],
    [model.compile(loss, optimizer='adam')]. *)
Definition add_dense (units input_dim : nat) (activation : Activation)
    (kernel_constraint : option Constraint) (loss : Loss) : M Network :=
  fun w =>
    let '(w0, s', r') := dense_init input_dim units (session w) (rng w) in
    (Ok (mkNetwork units input_dim activation kernel_constraint loss adam w0),
     mkWorld (self w) r' s' (log w ++ [EvDenseInit input_dim units w0])).

(** [Sequential()], [add(Dense(...))], [compile(...)] in a row. *)
Definition build_network (units input_dim : nat) (activation : Activation)
    (kernel_constraint : option Constraint) (loss : Loss) : M Network :=
  new_sequential ;;;
  add_dense units input_dim activation kernel_constraint loss.

(** [net.fit(x, y, batch_size, epochs)]: the network object is trained in
    place; the result is its history and the trained network. *)
Definition net_fit (net : Network) (x : DMatrix) (y : list Z) (batch : option nat)
    (n_epochs : nat) : M (History * Network) :=
  fun w =>
    let '(h, net', s', r') := keras_fit net x y batch n_epochs (session w) (rng w) in
    (Ok (h, net'), mkWorld (self w) r' s' (log w ++ [EvFit net x y batch n_epochs net'])).

(** [net.predict(x)] *)
Definition net_predict (net : Network) (x : DMatrix) : M (list R) :=
  fun w =>
    let '(p, s') := keras_predict net x (session w) in
    (Ok p, mkWorld (self w) (rng w) s' (log w ++ [EvPredict net x p])).

(** [sample(x, y, frac=frac)] of the [utils] module *)
Definition subsample (x : DMatrix) (y : list Z) (frac : R) : M (DMatrix * list Z) :=
  fun w =>
    let '((x', y'), r') := utils_sample x y frac (rng w) in
    (Ok (x', y'), mkWorld (self w) r' (session w) (log w ++ [EvSubsample x y frac x' y'])).

Definition bn_forward_sample (bn : BayesianNetwork) (size : nat) (show_progress : bool)
    : M DataFrame :=
  fun w =>
    let '(df, r') := forward_sample bn size show_progress (rng w) in
    (Ok df, mkWorld (self w) r' (session w)
                    (log w ++ [EvForwardSample bn size show_progress df])).

(** The outcome of a call into an estimator, as a result of the program. *)
Definition of_outcome {A : Type} (o : A + string) : Result A :=
  match o with
  | inl a => Ok a
  | inr cls => Raise (EstimatorError cls)
  end.

Definition estimator_fit (m : Estimator) (x : DMatrix) (y : list Z) : M Fitted :=
  fun w =>
    let '(f, r') := sklearn_fit m x y (rng w) in
    (of_outcome f, mkWorld (self w) r' (session w) (log w ++ [EvSklearnFit m x y])).

Definition estimator_predict (f : Fitted) (x : DMatrix) : M (list Z) :=
  let pred := sklearn_predict f x in
  emit (EvSklearnPredict x pred) ;;; fun w => (of_outcome pred, w).

Definition lift_result {A : Type} (r : Result A) : M A := fun w => (r, w).

(** *** [GANBLR.sample] *)

Definition sample (size : option nat) (ohe : bool) (verbose : PyValue)
    : M (DMatrix * list Z) :=
  let verbose := normalize_verbose verbose in
  g <- get_self ;;
  d <- of_option (__d g) AttributeError ;;
  let feature_cards := feature_uniques d in
  gen_weights <- of_option (__gen_weights g) TypeError ;;
  full_cpd_probs <-
    of_option (full_cpd_probs_of (num_classes d) (_kdbe d) (kernel gen_weights))
              ValueError ;;
  let node_names := map str (seq 0 (num_features d + 1)) in
  let edge_names := map (fun ij => (str (fst ij), str (snd ij))) (edges_ (_kdbe d)) in
  let y_name := last node_names EmptyString in
  let evidences := dependencies_ (_kdbe d) in
  feature_cpds <-
    mapM (fun nt =>
            let '((name, evidences), table) := nt in
            card <- of_option (nth_error feature_cards name) IndexError ;;
            ev_cards <- mapM (fun e => of_option (nth_error feature_cards e) IndexError)
                             evidences ;;
            ret (mkTabularCPD (str name) card table
                              (y_name :: map str evidences)
                              (num_classes d :: ev_cards)))
         (combine evidences full_cpd_probs) ;;
  let y_probs := y_probs_of d in
  let y_cpd := mkTabularCPD y_name (num_classes d) y_probs [] [] in
  let model := mkBayesianNetwork edge_names (y_cpd :: feature_cpds) in
  let sample_size := match size with None => data_size d | Some n => n end in
  result <- bn_forward_sample model sample_size (gt_zero verbose) ;;
  sorted_result <- lift_result (df_getitem result node_names) ;;
  let syn_X := map (@removelast Z) sorted_result in
  let syn_y := map (fun row => last row 0%Z) sorted_result in
  if ohe then ret (OneHotEncoder_fit_transform syn_X, syn_y)
  else ret (syn_X, syn_y).

(** *** [GANBLR._warmup_run], [GANBLR._run_generator], [GANBLR._discrim] *)

(** Modelled from the spec: [get_lr] of the [utils] module (not among the
    sources): the generator architecture, compiled for standard
    cross-entropy. *)
Definition get_lr (input_dim output_dim : nat) (constraint : option Constraint)
    : M Network :=
  build_network output_dim input_dim softmax constraint categorical_crossentropy.

Definition _warmup_run (n_epochs : nat) : M History :=
  g <- get_self ;;
  let d := __d g in
  clear_session ;;;
  d <- of_option d AttributeError ;;
  let ohex := get_kdbe_x d (k g) in
  set_constraints (Some (softmax_weight (constraint_positions d))) ;;;
  g <- get_self ;;
  elr <- get_lr (shape1 ohex) (num_classes d) (constraints g) ;;
  ' (history, elr) <- net_fit elr ohex (data_y d) (batch_size g) n_epochs ;;
  set___gen_weights (Some (net_weights elr)) ;;;
  clear_session ;;;
  ret history.

Definition _run_generator (loss : R) : M History :=
  g <- get_self ;;
  d <- of_option (__d g) AttributeError ;;
  let ohex := get_kdbe_x d (k g) in
  clear_session ;;;
  model <- build_network (num_classes d) (shape1 ohex) softmax (constraints g)
                         (elr_loss_of loss) ;;
  gen_weights <- of_option (__gen_weights g) TypeError ;;
  let model := set_weights model gen_weights in
  ' (history, model) <- net_fit model ohex (data_y d) (batch_size g) 1 ;;
  set___gen_weights (Some (net_weights model)) ;;;
  clear_session ;;;
  ret history.

Definition _discrim : M Network :=
  new_sequential ;;;
  g <- get_self ;;
  d <- of_option (__d g) AttributeError ;;
  add_dense 1 (num_features d) sigmoid None binary_crossentropy.

(** *** [GANBLR.fit] *)

(** The body of [for i in range(epochs)], iterated; [syn_x] is the loop
    variable carried from one round to the next. *)
Fixpoint fit_rounds (n : nat) (x : DMatrix) (discriminator_label : list Z)
    (batch : nat) (syn_x : DMatrix) : M unit :=
  match n with
  | O => ret tt
  | S n' =>
      let discriminator_input := x ++ syn_x in
      ' (disc_input, disc_label) <-
        subsample discriminator_input discriminator_label (8 / 10) ;;
      disc <- _discrim ;;
      ' (_, disc) <- net_fit disc disc_input disc_label (Some batch) 1 ;;
      prob_fake <- net_predict disc x ;;
      let ls := KL_loss prob_fake in
      _run_generator ls ;;;
      ' (syn_x, _) <- sample None false (PyInt 1) ;;
      fit_rounds n' x discriminator_label batch syn_x
  end.

Definition fit (x : DMatrix) (y : list Z) (k_arg batch_size_arg epochs_arg
    warmup_epochs : nat) (verbose : PyValue) : M unit :=
  let verbose := normalize_verbose verbose in
  let d := DataUtils_init x y in
  set___d (Some d) ;;;
  set_k (Some k_arg) ;;;
  set_batch_size (Some batch_size_arg) ;;;
  _warmup_run warmup_epochs ;;;
  ' (syn_x, _) <- sample None false (PyInt 1) ;;
  let discriminator_label :=
    repeat 1%Z (data_size d) ++ repeat 0%Z (data_size d) in
  fit_rounds epochs_arg x discriminator_label batch_size_arg syn_x.

(** *** [GANBLR.evaluate] *)

Definition evaluate (x : DMatrix) (y : list Z) (model : PyValue)
    (preprocesser : PyValue) : M R :=
  eval_model <-
    (if py_eq_str model "lr" then ret (ScaledPipeline "lr" LogisticRegression)
     else if py_eq_str model "rf" then ret (Plain RandomForestClassifier)
     else if py_eq_str model "mlp" then ret (ScaledPipeline "mlp" MLPClassifier)
     else if hasattr model "fit" then ret (UserModel model)
     else raise InvalidArgument) ;;
  synthetic_data <- sample None false (PyInt 1) ;;
  fitted <- estimator_fit eval_model (fst synthetic_data) (snd synthetic_data) ;;
  pred <-
    (match eval_model with
     | UserModel m =>
         if hasattr m "predict" then estimator_predict fitted x
         else raise AttributeError
     | _ => estimator_predict fitted x
     end) ;;
  lift_result (accuracy_score y pred).

(** Running a method on a world. *)
Definition run {A : Type} (m : M A) (w : World) : Result A * World := m w.

(** ** Notions used to state the properties of the model *)

(** The CPD object [sample] builds for one feature node and its table. *)
Definition cpd_of (d : DataUtils) (nt : (nat * list nat) * list (list R)) : TabularCPD :=
  let fc := feature_uniques d in
  let y_name := last (map str (seq 0 (num_features d + 1))) EmptyString in
  mkTabularCPD (str (fst (fst nt))) (nth (fst (fst nt)) fc 0%nat) (snd nt)
               (y_name :: map str (snd (fst nt)))
               (num_classes d :: map (fun e => nth e fc 0%nat) (snd (fst nt))).

(** The Bayesian network [sample] builds from the reconstructed tables. *)
Definition network_of (d : DataUtils) (tables : list (list (list R))) : BayesianNetwork :=
  let y_name := last (map str (seq 0 (num_features d + 1))) EmptyString in
  mkBayesianNetwork
    (map (fun ij => (str (fst ij), str (snd ij))) (edges_ (_kdbe d)))
    (mkTabularCPD y_name (num_classes d) (y_probs_of d) [] []
     :: map (cpd_of d) (combine (dependencies_ (_kdbe d)) tables)).

(** [result[node_names].values] of the forward sample. *)
Definition sampled_rows (bn : BayesianNetwork) (d : DataUtils) (n : nat) (sp : bool)
    (r : Rng) : Result DMatrix :=
  df_getitem (fst (forward_sample bn n sp r)) (map str (seq 0 (num_features d + 1))).

(** The network [_run_generator] builds: the generator architecture with a
    new optimizer, the loss of this round, and the stored weights loaded. *)
Definition refinement_network (g : GANBLR) (d : DataUtils) (gw : Weights) (loss : R)
    : Network :=
  mkNetwork (num_classes d) (shape1 (get_kdbe_x d (k g))) softmax (constraints g)
            (elr_loss_of loss) adam gw.

(** What training that network returns, from a cleared Keras state. *)
Definition refinement_run (g : GANBLR) (d : DataUtils) (gw : Weights) (loss : R) (r : Rng)
    : History * Network * Session * Rng :=
  let ohex := get_kdbe_x d (k g) in
  let i := dense_init (shape1 ohex) (num_classes d) (sequential_init fresh_session) r in
  keras_fit (refinement_network g d gw loss) ohex (data_y d) (batch_size g) 1
            (snd (fst i)) (snd i).

(** The boundary calls of one refinement. *)
Definition refinement_events (g : GANBLR) (d : DataUtils) (gw : Weights) (loss : R)
    (r : Rng) : list Event :=
  let ohex := get_kdbe_x d (k g) in
  let i := dense_init (shape1 ohex) (num_classes d) (sequential_init fresh_session) r in
  [EvClearSession;
   EvDenseInit (shape1 ohex) (num_classes d) (fst (fst i));
   EvFit (refinement_network g d gw loss) ohex (data_y d) (batch_size g) 1
         (snd (fst (fst (refinement_run g d gw loss r))));
   EvClearSession].

(** The values one round of [fit] produces. *)
Record Round := mkRound {
  r_syn_x : DMatrix;          (* the synthetic rows the round starts from *)
  r_disc_input : DMatrix;     (* the subsample *)
  r_disc_label : list Z;
  r_disc_init : Weights;      (* initial weights of the new discriminator *)
  r_disc : Network;           (* the trained discriminator *)
  r_prob_fake : list R;       (* its predictions *)
  r_gen_init : Weights;       (* initial weights of the rebuilt generator *)
  r_gen_prev : Weights;       (* the stored weights loaded into it *)
  r_gen : Network;            (* the refined generator *)
  r_bn : BayesianNetwork;
  r_df : DataFrame            (* the synthetic sample for the next round *)
}.

(** The boundary calls of one round, in order. *)
Definition round_events (x : DMatrix) (d : DataUtils) (kk : option nat) (b : nat)
    (c : option Constraint) (r : Round) : list Event :=
  let ohex := get_kdbe_x d kk in
  [EvSubsample (x ++ r_syn_x r)
               (repeat 1%Z (length x) ++ repeat 0%Z (length (r_syn_x r)))
               (8 / 10) (r_disc_input r) (r_disc_label r);
   EvDenseInit (num_features d) 1 (r_disc_init r);
   EvFit (mkNetwork 1 (num_features d) sigmoid None binary_crossentropy adam (r_disc_init r))
         (r_disc_input r) (r_disc_label r) (Some b) 1 (r_disc r);
   EvPredict (r_disc r) x (r_prob_fake r);
   EvClearSession;
   EvDenseInit (shape1 ohex) (num_classes d) (r_gen_init r);
   EvFit (mkNetwork (num_classes d) (shape1 ohex) softmax c
                    (elr_loss_of (KL_loss (r_prob_fake r))) adam (r_gen_prev r))
         ohex (data_y d) (Some b) 1 (r_gen r);
   EvClearSession;
   EvForwardSample (r_bn r) (data_size d) true (r_df r)].

(** [X] of [sample()]: the frame's feature columns, in node order. *)
Definition syn_x_of (d : DataUtils) (df : DataFrame) (syn : DMatrix) : Prop :=
  exists sorted,
    df_getitem df (map str (seq 0 (num_features d + 1))) = Ok sorted
    /\ length sorted = data_size d
    /\ syn = map (@removelast Z) sorted.

(** Successive rounds: each starts from the synthetic rows sampled at the end
    of the one before and loads the weights the one before stored. *)
Fixpoint chained (d : DataUtils) (syn : DMatrix) (gw : Weights) (rs : list Round) : Prop :=
  match rs with
  | [] => True
  | r :: t =>
      r_syn_x r = syn /\ r_gen_prev r = gw
      /\ exists syn', syn_x_of d (r_df r) syn' /\ chained d syn' (net_weights (r_gen r)) t
  end.

(** Where the values of a round come from: the subsample is drawn from the
    stacked rows, the discriminator is the new network trained on the
    subsample for one epoch, and the predictions are its predictions for the
    real rows. *)
Definition round_genuine (x : DMatrix) (d : DataUtils) (b : nat) (r : Round) : Prop :=
  exists (r_sub r_fit : Rng) (s_fit s_pred : Session),
    (r_disc_input r, r_disc_label r)
    = fst (utils_sample (x ++ r_syn_x r)
                        (repeat 1%Z (length x) ++ repeat 0%Z (length (r_syn_x r)))
                        (8 / 10) r_sub)
    /\ r_disc r
       = snd (fst (fst (keras_fit
                          (mkNetwork 1 (num_features d) sigmoid None binary_crossentropy
                                     adam (r_disc_init r))
                          (r_disc_input r) (r_disc_label r) (Some b) 1 s_fit r_fit)))
    /\ r_prob_fake r = fst (keras_predict (r_disc r) x s_pred).

(** The network the warmup builds. *)
Definition warmup_network (g : GANBLR) (d : DataUtils) (w0 : Weights) : Network :=
  mkNetwork (num_classes d) (shape1 (get_kdbe_x d (k g))) softmax
            (Some (softmax_weight (constraint_positions d)))
            categorical_crossentropy adam w0.

(** The training call of the warmup and its result. *)
Definition warmup_run (g : GANBLR) (d : DataUtils) (n_epochs : nat) (r : Rng)
    : History * Network * Session * Rng :=
  let ohex := get_kdbe_x d (k g) in
  let i := dense_init (shape1 ohex) (num_classes d) (sequential_init fresh_session) r in
  keras_fit (warmup_network g d (fst (fst i))) ohex (data_y d) (batch_size g) n_epochs
            (snd (fst i)) (snd i).

(** The boundary calls of the warmup. *)
Definition warmup_events (g : GANBLR) (d : DataUtils) (n_epochs : nat) (r : Rng)
    : list Event :=
  let ohex := get_kdbe_x d (k g) in
  let i := dense_init (shape1 ohex) (num_classes d) (sequential_init fresh_session) r in
  [EvClearSession;
   EvDenseInit (shape1 ohex) (num_classes d) (fst (fst i));
   EvFit (warmup_network g d (fst (fst i))) ohex (data_y d) (batch_size g) n_epochs
         (snd (fst (fst (warmup_run g d n_epochs r))));
   EvClearSession].

(** The state [fit] sets up before the warmup. *)
Definition fit_entry (g : GANBLR) (d : DataUtils) (kk b : nat) : GANBLR :=
  mkGANBLR (Some d) (__gen_weights g) (Some b) (epochs g) (Some kk) (constraints g).

(** Two worlds with the same object and the same random state; the Keras
    global state and the log of earlier calls may differ. *)
Definition same_seed (w1 w2 : World) : Prop :=
  self w1 = self w2 /\ rng w1 = rng w2.

(** The same, and the same Keras global state. *)
Definition same_state (w1 w2 : World) : Prop :=
  same_seed w1 w2 /\ session w1 = session w2.

(** [m] returns the same result in related worlds and leaves them related:
    as [Rok] when it returns, as [same_seed] when it raises. *)
Definition respects {A : Type} (Rpre Rok : World -> World -> Prop) (m : M A) : Prop :=
  forall w1 w2, Rpre w1 w2 ->
    fst (m w1) = fst (m w2)
    /\ match fst (m w1) with
       | Ok _ => Rok (snd (m w1)) (snd (m w2))
       | Raise _ => same_seed (snd (m w1)) (snd (m w2))
       end.

(** [m] never raises the exception [e]. *)
Definition never_raises {A : Type} (e : PyError) (m : M A) : Prop :=
  forall w, fst (m w) <> Raise e.

(** What [evaluate] does once the classifier is chosen. *)
Definition evaluate_with (x : DMatrix) (y : list Z) (eval_model : Estimator) : M R :=
  bind (sample None false (PyInt 1)) (fun synthetic_data =>
  bind (estimator_fit eval_model (fst synthetic_data) (snd synthetic_data)) (fun fitted =>
  bind (match eval_model with
        | UserModel m =>
            if hasattr m "predict" then estimator_predict fitted x
            else raise AttributeError
        | _ => estimator_predict fitted x
        end) (fun pred =>
  lift_result (accuracy_score y pred)))).

(** The models [evaluate] accepts. *)
Definition accepted_model (model : PyValue) : bool :=
  (py_eq_str model "lr" || py_eq_str model "rf" || py_eq_str model "mlp"
   || hasattr model "fit")%bool.

(** The estimator [evaluate] chooses for its [model] argument. *)
Definition estimator_of (model : PyValue) : option Estimator :=
  if py_eq_str model "lr" then Some (ScaledPipeline "lr" LogisticRegression)
  else if py_eq_str model "rf" then Some (Plain RandomForestClassifier)
  else if py_eq_str model "mlp" then Some (ScaledPipeline "mlp" MLPClassifier)
  else if hasattr model "fit" then Some (UserModel model)
  else None.

(** Whether the chosen estimator has a [predict] method; the built-in ones
    do. *)
Definition has_predict (est : Estimator) : bool :=
  match est with
  | UserModel m => hasattr m "predict"
  | _ => true
  end.

(** The last three lines of [evaluate] on a synthetic sample [(X, ys)]: what
    the estimator's [fit] on the sample, its [predict] on the real rows [x]
    and the score against the real labels [y] come to.  An exception of
    [fit] or [predict] ends the call. *)
Definition train_and_score (est : Estimator) (X : DMatrix) (ys : list Z) (r : Rng)
    (x : DMatrix) (y : list Z) : Result R :=
  match fst (sklearn_fit est X ys r) with
  | inr cls => Raise (EstimatorError cls)
  | inl f =>
      if has_predict est then
        match sklearn_predict f x with
        | inr cls => Raise (EstimatorError cls)
        | inl pred => accuracy_score y pred
        end
      else Raise AttributeError
  end.

(** The calls these lines make: [fit], and [predict] when [fit] returned
    and the method exists. *)
Definition train_and_score_events (est : Estimator) (X : DMatrix) (ys : list Z) (r : Rng)
    (x : DMatrix) : list Event :=
  EvSklearnFit est X ys
  :: match fst (sklearn_fit est X ys r) with
     | inl f => if has_predict est then [EvSklearnPredict x (sklearn_predict f x)] else []
     | inr _ => []
     end.

(** [m] leaves [proj] of the world as it was, whether it returns or
    raises. *)
Definition preserves {A T : Type} (proj : World -> T) (m : M A) : Prop :=
  forall w, proj (snd (m w)) = proj w.

(** The object and the Keras global state. *)
Definition object_and_session (w : World) : GANBLR * Session := (self w, session w).

(** The fields that hold the data and the arguments of [fit]. *)
Definition settings (w : World)
    : option DataUtils * option nat * option nat * option nat :=
  (__d (self w), batch_size (self w), epochs (self w), k (self w)).

(** The same, and the kernel constraint. *)
Definition settings_and_constraints (w : World)
    : option DataUtils * option nat * option nat * option nat * option Constraint :=
  (settings w, constraints (self w)).

(** A computation that neither reads nor changes the world. *)
Definition stateless {A : Type} (m : M A) : Prop :=
  exists r, forall w, m w = (r, w).

(** The CPD objects of the feature nodes, as [sample] builds them. *)
Definition feature_cpds_of (d : DataUtils) (full_cpd_probs : list (list (list R)))
    : M (list TabularCPD) :=
  let feature_cards := feature_uniques d in
  let y_name := last (map str (seq 0 (num_features d + 1))) EmptyString in
  mapM (fun nt =>
          let '((name, evidences), table) := nt in
          bind (of_option (nth_error feature_cards name) IndexError) (fun card =>
          bind (mapM (fun e => of_option (nth_error feature_cards e) IndexError)
                     evidences) (fun ev_cards =>
          ret (mkTabularCPD (str name) card table
                            (y_name :: map str evidences)
                            (num_classes d :: ev_cards)))))
       (combine (dependencies_ (_kdbe d)) full_cpd_probs).

(** A computation that reads nothing of the world but the random state. *)
Definition rng_only {A : Type} (m : M A) : Prop :=
  forall w1 w2, rng w1 = rng w2 ->
    fst (m w1) = fst (m w2) /\ rng (snd (m w1)) = rng (snd (m w2)).

(** The weights stored after the rounds [rs], starting from [gw]: those of
    the last refined generator. *)
Definition final_weights (gw : Weights) (rs : list Round) : Weights :=
  last (map (fun r => net_weights (r_gen r)) rs) gw.

End Model.

(** ** Contracts of the collaborators *)

(** A kernel of shape [(n, c)]. *)
Definition kernel_shape (n c : nat) (w : Weights) : Prop :=
  length (kernel w) = n /\ Forall (fun row => length row = c) (kernel w).

(** Modelled from the spec: what [DataUtils] and its encoder guarantee for a
    data set: the encoder contract, an encoded design matrix as wide as the
    constraint groups together, one dependency entry, one mask and one
    cardinality per feature in feature order, and parents that are features. *)
Definition DataUtils_wf (d : DataUtils) : Prop :=
  encoder_wf (_kdbe d) = true
  /\ (forall k, shape1 (get_kdbe_x d k) = list_sum (constraints_ (_kdbe d)))
  /\ map fst (dependencies_ (_kdbe d)) = seq 0 (num_features d)
  /\ length (have_value_idxs_ (_kdbe d)) = num_features d
  /\ length (feature_uniques d) = num_features d
  /\ Forall (fun dep => Forall (fun p => (p < num_features d)%nat) (snd dep))
            (dependencies_ (_kdbe d)).

Class CollaboratorLaws (collab : Collaborators) : Prop := {
  (** a new [Dense] layer has a kernel of shape [(input_dim, units)] *)
  dense_init_shape : forall i u s r,
    kernel_shape i u (fst (fst (dense_init i u s r)));
  (** training keeps the shape of the kernel *)
  keras_fit_shape : forall net x y b e s r n c,
    kernel_shape n c (net_weights net) ->
    kernel_shape n c (net_weights (snd (fst (fst (keras_fit net x y b e s r)))));
  (** forward sampling returns [size] rows and a column per CPD variable *)
  forward_sample_rows : forall bn n sp r,
    length (df_values (fst (forward_sample bn n sp r))) = n;
  forward_sample_columns : forall bn n sp r cpd,
    In cpd (bn_cpds bn) ->
    In (variable cpd) (df_columns (fst (forward_sample bn n sp r)));
  (** a fitted classifier that returns predicts one label per row *)
  sklearn_predict_length : forall f x pred,
    sklearn_predict f x = inl pred -> length pred = length x
}.

(** A model on which [fit] has run: data and generator weights are stored,
    and the kernel has the encoded width and one column per class. *)
Definition fitted {collab : Collaborators} (w : World) (d : DataUtils) (gw : Weights) : Prop :=
  __d (self w) = Some d
  /\ __gen_weights (self w) = Some gw
  /\ DataUtils_wf d
  /\ kernel_shape (list_sum (constraints_ (_kdbe d))) (num_classes d) gw.

(** ** A small instance

    Three binary features and a binary class, dependency order 2: feature 1
    depends on feature 0, feature 2 on features 0 and 1; the parent
    combination (1, 0) of feature 2 is never observed. *)

Definition demo_x : DMatrix :=
  [[0; 0; 0]; [0; 0; 1]; [1; 1; 1]; [0; 1; 0]]%Z.

Definition demo_y : list Z := [0; 1; 1; 0]%Z.

Definition demo_kdbe : KdbEncoder :=
  mkKdbEncoder
    [2; 2; 1; 2; 1; 0; 1]%nat
    [2; 3; 4]%nat
    [mkBoolArray [2]%nat [true; true];
     mkBoolArray [2; 2]%nat [true; true; false; true];
     mkBoolArray [2; 2; 2]%nat [true; true; true; false; false; false; false; true]]
    [(0, []); (1, [0]); (2, [0; 1])]%nat
    [(3, 0); (3, 1); (0, 1); (3, 2); (0, 2); (1, 2)]%nat.

Definition demo_ohex : DMatrix :=
  [[1; 0; 1; 0; 0; 1; 0; 0; 0];
   [1; 0; 1; 0; 0; 0; 1; 0; 0];
   [0; 1; 0; 0; 1; 0; 0; 0; 1];
   [1; 0; 0; 1; 0; 0; 0; 1; 0]]%Z.

Definition demo_d : DataUtils :=
  mkDataUtils 4 3 2 [2; 2; 2]%nat [2; 2]%nat demo_kdbe (constraints_ demo_kdbe)
              demo_y (fun _ => demo_ohex).

Definition demo_weights : Weights := mkWeights (repeat [0; 0] 9) [0; 0].

(** Whether all the labels are the same. *)
Definition single_class (y : list Z) : bool :=
  match y with
  | [] => true
  | c :: t => forallb (Z.eqb c) t
  end.

(** Whether the estimator ends in a logistic regression. *)
Definition is_logistic (m : Estimator) : bool :=
  match m with
  | Plain LogisticRegression | ScaledPipeline _ LogisticRegression => true
  | _ => false
  end.

(** Small collaborators: training returns the network unchanged; forward
    sampling returns constant rows of 0 and of 1 in turn, starting with the
    parity of the random state; a logistic regression refuses labels of a
    single class, as the one of scikit-learn does. *)
Definition demo_collab : Collaborators := {|
  Rng := nat;
  Session := nat;
  History := unit;
  Fitted := unit;
  fresh_session := 0%nat;
  DataUtils_init := fun _ _ => demo_d;
  sequential_init := S;
  dense_init := fun i u s r => (mkWeights (repeat (repeat 0 u) i) (repeat 0 u), S s, S r);
  keras_fit := fun net _ _ _ _ s r => (tt, net, S s, S r);
  keras_predict := fun _ x s => (map (fun _ => 1 / 2) x, s);
  utils_sample := fun x y _ r => ((x, y), S r);
  forward_sample := fun bn n _ r =>
    (mkDataFrame (map variable (bn_cpds bn))
                 (map (fun i => map (fun _ => Z.of_nat ((r + i) mod 2)) (bn_cpds bn))
                      (seq 0 n)), S r);
  sklearn_fit := fun m _ y r =>
    (if (is_logistic m && single_class y)%bool then inr "ValueError"%string else inl tt,
     S r);
  sklearn_predict := fun _ x => inl (map (fun _ => 0%Z) x)
|}.

Definition demo_world : @World demo_collab :=
  @mkWorld demo_collab __init__ 0%nat 0%nat [].

Definition demo_fitted : @World demo_collab :=
  @mkWorld demo_collab (mkGANBLR (Some demo_d) (Some demo_weights) (Some 32%nat) None (Some 2%nat)
                    (Some (softmax_weight (constraint_positions demo_d))))
          7%nat 0%nat [].

(** The same with a single row of data, of class 0: every synthetic sample
    of the default size has one row, and so one class. *)
Definition demo_d1 : DataUtils :=
  mkDataUtils 1 3 2 [2; 2; 2]%nat [1; 0]%nat demo_kdbe (constraints_ demo_kdbe)
              [0]%Z (fun _ => [[1; 0; 1; 0; 0; 1; 0; 0; 0]]%Z).

Definition demo_fitted1 : @World demo_collab :=
  @mkWorld demo_collab (mkGANBLR (Some demo_d1) (Some demo_weights) (Some 32%nat) None
                                 (Some 2%nat)
                                 (Some (softmax_weight (constraint_positions demo_d1))))
          0%nat 0%nat [].

(** * Small cases *)

Example constraint_idxs_example :
  constraint_idxs [2; 2; 1]%nat = [(0, 2); (2, 4); (4, 5)]%nat.
Proof. reflexivity. Qed.

Example have_value_rows_example :
  have_value_rows (mkBoolArray [2; 2]%nat [true; true; false; true])
  = [[true; true]; [false; true]].
Proof. reflexivity. Qed.

Example demo_encoder_wf : encoder_wf demo_kdbe = true.
Proof. reflexivity. Qed.

Example mask_assign_example (a b : R) :
  mask_assign [true; false; false; true] [a; b] = Some [a; 0; 0; b].
Proof. reflexivity. Qed.

Example mask_assign_mismatch (a b c : R) :
  mask_assign [true; false; false; true] [a; b; c] = None.
Proof. reflexivity. Qed.

Example reshape_rows_example (a b c d : R) :
  reshape_rows [a; b; c; d] 2 = Some [[a; b]; [c; d]]
  /\ reshape_rows [a; b; c] 2 = None.
Proof. split; reflexivity. Qed.

Example transpose_example (a b c d e f : R) :
  transpose [[a; b; c]; [d; e; f]] = [[a; d]; [b; e]; [c; f]].
Proof. reflexivity. Qed.

Example normalize_verbose_examples :
  normalize_verbose PyNone = PyInt 1
  /\ normalize_verbose (PyStr "quiet") = PyInt 1
  /\ normalize_verbose (PyInt 0) = PyInt 0
  /\ normalize_verbose (PyBool true) = PyBool true.
Proof. repeat split. Qed.

Example str_example : str 12 = "12"%string /\ str 0 = "0"%string.
Proof. split; reflexivity. Qed.

Example accepted_model_examples :
  accepted_model (PyStr "mlp") = true
  /\ accepted_model (PyObj ["fit"; "predict"]%string 0) = true
  /\ accepted_model (PyObj ["predict"]%string 0) = false
  /\ accepted_model (PyStr "unknown_model") = false
  /\ accepted_model (PyInt 42) = false.
Proof. repeat split. Qed.

Example df_getitem_example :
  df_getitem (mkDataFrame ["1"; "0"; "2"]%string [[5; 6; 7]; [8; 9; 10]]%Z)
             ["0"; "1"; "2"]%string
  = Ok [[6; 5; 7]; [9; 8; 10]]%Z
  /\ df_getitem (mkDataFrame ["1"; "0"]%string [[5; 6]]%Z) ["0"; "2"]%string
     = Raise KeyError.
Proof. split; reflexivity. Qed.

Example one_hot_example :
  OneHotEncoder_fit_transform [[0; 1]; [2; 1]; [0; 1]]%Z
  = [[1; 0; 1]; [0; 1; 1]; [1; 0; 1]]%Z.
Proof. reflexivity. Qed.

(** One feature with two values and one parent with two values, one class:
    parent value 0 was seen with own value 0 only, parent value 1 with own
    value 1 only.  Whatever the two weights, the table is the identity: the
    column of parent value 0 puts all mass on own value 0. *)
Example scatter_order_example (a b : R) :
  full_cpd_probs_of 1
    (mkKdbEncoder [1; 1]%nat [2]%nat
       [mkBoolArray [2; 2]%nat [true; false; false; true]] [(0, [1])]%nat [])
    [[a]; [b]]
  = Some [[[1; 0]; [0; 1]]].
Proof.
  pose proof (exp_pos a) as Ha. pose proof (exp_pos b) as Hb.
  assert (Ea : exp a / (exp a + 0) = 1) by (field; lra).
  assert (Eb : exp b / (exp b + 0) = 1) by (field; lra).
  cbv [full_cpd_probs_of cpd_probs_of group_slices constraint_idxs cumsum cumsum_from
       consecutive slice np_exp normalize_group div_rows sum_axis0 shape1 column
       high_order_feature_uniques_ have_value_idxs_ constraints_ combine map concat
       firstn skipn Nat.sub Nat.add hd length seq nth rsum fst snd app collect
       full_cpd_prob_of ba_data ba_shape last_dim last repeat ravel transpose
       mask_assign count_true filter Nat.eqb fill tl option_map reshape_rows
       Nat.modulo Nat.div Nat.divmod Nat.mul _add_uniform].
  rewrite Ea, Eb.
  repeat match goal with
         | |- context [Req_dec_T ?x ?y] => destruct (Req_dec_T x y); try lra
         end.
  reflexivity.
Qed.

(** All-equal logits give uniform columns, and a parent combination that was
    never observed gets the uniform column from the smoothing. *)
Example uniform_example :
  full_cpd_probs_of 1
    (mkKdbEncoder [2; 0]%nat [2]%nat
       [mkBoolArray [2; 2]%nat [true; true; false; false]] [(0, [1])]%nat [])
    [[0]; [0]]
  = Some [[[1 / 2; 1 / 2]; [1 / 2; 1 / 2]]].
Proof.
  cbv [full_cpd_probs_of cpd_probs_of group_slices constraint_idxs cumsum cumsum_from
       consecutive slice np_exp normalize_group div_rows sum_axis0 shape1 column
       high_order_feature_uniques_ have_value_idxs_ constraints_ combine map concat
       firstn skipn Nat.sub Nat.add hd length seq nth rsum fst snd app collect
       full_cpd_prob_of ba_data ba_shape last_dim last repeat ravel transpose
       mask_assign count_true filter Nat.eqb fill tl option_map reshape_rows
       Nat.modulo Nat.div Nat.divmod Nat.mul _add_uniform].
  rewrite exp_0.
  assert (E : 1 / (1 + (1 + 0)) = 1 / 2) by (field; lra).
  rewrite E.
  repeat match goal with
         | |- context [Req_dec_T ?x ?y] => destruct (Req_dec_T x y); try lra
         end.
  cbv [INR]. assert (E2 : 0 + 1 / (1 + 1) = 1 / 2) by field.
  rewrite E2. reflexivity.
Qed.

(** [sample] before [fit] fails on the missing data. *)
Example sample_unfitted :
  run (sample None false (PyInt 1)) demo_world = (Raise AttributeError, demo_world).
Proof. reflexivity. Qed.

Example evaluate_rejects_42 :
  run (evaluate demo_x demo_y (PyInt 42) PyNone) demo_world
  = (Raise InvalidArgument, demo_world).
Proof. reflexivity. Qed.

(** An object with [fit] but without [predict] is accepted and fails later,
    with another exception, after sampling and fitting. *)
Example evaluate_without_predict :
  fst (run (evaluate demo_x demo_y (PyObj ["fit"]%string 0) PyNone) demo_fitted)
  = Raise AttributeError
  /\ length (log (snd (run (evaluate demo_x demo_y (PyObj ["fit"]%string 0) PyNone)
                           demo_fitted))) = 2%nat.
Proof. split; lazy; reflexivity. Qed.

(** A logistic regression refuses a synthetic sample of a single class; a
    random forest fits it. *)
Example evaluate_one_class :
  fst (run (evaluate demo_x demo_y (PyStr "lr") PyNone) demo_fitted1)
  = Raise (EstimatorError "ValueError")
  /\ fst (run (evaluate demo_x demo_y (PyStr "rf") PyNone) demo_fitted1)
     = Ok (INR 2 / INR 4).
Proof. split; lazy; reflexivity. Qed.

(** With the small collaborators, [fit] with two rounds makes the four calls
    of the warmup, one forward sample, and nine calls per round, and leaves
    [epochs] unassigned. *)
Example fit_demo_log :
  let w := snd (run (fit demo_x demo_y 2 32 2 1 (PyInt 1)) demo_world) in
  fst (run (fit demo_x demo_y 2 32 2 1 (PyInt 1)) demo_world) = Ok tt
  /\ length (log w) = (4 + 1 + 2 * 9)%nat
  /\ epochs (self w) = None
  /\ k (self w) = Some 2%nat.
Proof. lazy. repeat split. Qed.

(** * Properties of the reconstruction *)

(** ** Lists: splitting at cumulative sums *)

Lemma consecutive_cumsum {A : Type} (cs : list nat) (a : nat) (m : list A) :
  map (fun se => slice (fst se) (snd se) m) (consecutive (a :: cumsum_from a cs))
  = split_by cs (skipn a m).
Proof.
  revert a; induction cs as [|c cs IH]; intros a; [reflexivity|].
  cbn [cumsum_from].
  change (consecutive (a :: (a + c)%nat :: cumsum_from (a + c) cs))
    with ((a, (a + c)%nat) :: consecutive ((a + c)%nat :: cumsum_from (a + c) cs)).
  cbn [map split_by fst snd]. rewrite IH. unfold slice.
  replace (a + c - a)%nat with c by lia.
  now rewrite skipn_skipn, (Nat.add_comm c a).
Qed.

Lemma slices_split_by {A : Type} (cs : list nat) (m : list A) :
  map (fun se => slice (fst se) (snd se) m) (consecutive (cumsum (0%nat :: cs)))
  = split_by cs m.
Proof. exact (consecutive_cumsum cs 0 m). Qed.

Lemma group_slices_split_by (cs : list nat) (m : RMatrix) :
  group_slices cs m = split_by cs m.
Proof. apply slices_split_by. Qed.

Lemma split_by_app {A : Type} (cs ds : list nat) (m : list A) :
  split_by (cs ++ ds) m = split_by cs m ++ split_by ds (skipn (list_sum cs) m).
Proof.
  revert m; induction cs as [|c cs IH]; intros m; [reflexivity|].
  simpl. now rewrite IH, skipn_skipn, (Nat.add_comm (list_sum cs) c).
Qed.

Lemma split_by_lengths {A : Type} (cs : list nat) (m : list A) :
  (list_sum cs <= length m)%nat -> map (@length A) (split_by cs m) = cs.
Proof.
  revert m; induction cs as [|c cs IH]; intros m H; [reflexivity|].
  simpl in H. cbn [split_by map]. rewrite IH.
  - now rewrite firstn_length_le by lia.
  - rewrite length_skipn. lia.
Qed.

Lemma split_by_In {A : Type} (cs : list nat) (m g : list A) (x : A) :
  In g (split_by cs m) -> In x g -> In x m.
Proof.
  revert m; induction cs as [|c cs IH]; intros m Hg Hx; [contradiction|].
  destruct Hg as [<-|Hg].
  - rewrite <- (firstn_skipn c m). apply in_or_app; now left.
  - rewrite <- (firstn_skipn c m). apply in_or_app; right. now apply IH.
Qed.

Lemma split_by_length {A : Type} (cs : list nat) (m : list A) :
  length (split_by cs m) = length cs.
Proof. revert m; induction cs; intros; cbn; auto. Qed.

(** ** Column sums and per-group normalisation *)

Lemma rsum_app (a b : list R) : rsum (a ++ b) = rsum a + rsum b.
Proof. induction a as [|x a IH]; cbn; [lra | rewrite IH; lra]. Qed.

Lemma rsum_map_div {A : Type} (f : A -> R) (s : R) (l : list A) :
  rsum (map (fun a => f a / s) l) = rsum (map f l) / s.
Proof. induction l as [|a l IH]; cbn; [lra | rewrite IH; lra]. Qed.

Lemma rsum_pos (l : list R) :
  l <> [] -> Forall (fun x => 0 < x) l -> 0 < rsum l.
Proof.
  intros Hne H. assert (Hnn : forall l', Forall (fun x => 0 < x) l' -> 0 <= rsum l').
  { induction 1; cbn; lra. }
  destruct H as [|x l Hx Hl]; [congruence|]. cbn. specialize (Hnn l Hl). lra.
Qed.

Lemma shape1_positive_rows (C : nat) (g : RMatrix) :
  g <> [] -> positive_rows C g -> shape1 g = C.
Proof.
  intros Hne H. destruct H as [|row g [Hl _] _]; [congruence|]. exact Hl.
Qed.

Lemma column_positive (C c : nat) (g : RMatrix) :
  positive_rows C g -> (c < C)%nat -> Forall (fun x => 0 < x) (column c g).
Proof.
  intros H Hc. unfold column. induction H as [|row g [Hl Hp] _ IH]; cbn; constructor; auto.
  rewrite Forall_forall in Hp. apply Hp, nth_In. lia.
Qed.

Lemma sum_axis0_nth (g : RMatrix) (c : nat) :
  (c < shape1 g)%nat -> nth c (sum_axis0 g) 0 = rsum (column c g).
Proof.
  intros Hc. unfold sum_axis0.
  rewrite (nth_indep _ 0 (rsum (column 0 g))) by (now rewrite length_map, length_seq).
  rewrite (map_nth (fun j => rsum (column j g)) (seq 0 (shape1 g)) 0%nat c).
  now rewrite seq_nth.
Qed.

Lemma sum_axis0_length (g : RMatrix) : length (sum_axis0 g) = shape1 g.
Proof. unfold sum_axis0. now rewrite length_map, length_seq. Qed.

Lemma sum_axis0_positive (C : nat) (g : RMatrix) :
  g <> [] -> positive_rows C g -> Forall (fun s => 0 < s) (sum_axis0 g).
Proof.
  intros Hne H. unfold sum_axis0. rewrite (shape1_positive_rows C g Hne H).
  apply Forall_forall. intros s Hs. apply in_map_iff in Hs as (c & <- & Hc).
  apply in_seq in Hc. apply rsum_pos.
  - destruct g; [congruence | discriminate].
  - apply (column_positive C); [assumption | lia].
Qed.

Lemma nth_div_combine (row s : list R) (c : nat) :
  length row = length s -> (c < length row)%nat ->
  nth c (map (fun xs => fst xs / snd xs) (combine row s)) 0 = nth c row 0 / nth c s 0.
Proof.
  intros Hl Hc.
  rewrite (nth_indep _ 0 ((fun xs : R * R => fst xs / snd xs) (0, 0)))
    by (rewrite length_map, length_combine; lia).
  rewrite (map_nth (fun xs : R * R => fst xs / snd xs)).
  now rewrite combine_nth.
Qed.

Lemma normalize_group_column (C c : nat) (g : RMatrix) :
  g <> [] -> positive_rows C g -> (c < C)%nat ->
  rsum (column c (normalize_group g)) = 1.
Proof.
  intros Hne H Hc.
  pose proof (shape1_positive_rows C g Hne H) as Hs.
  assert (Hcol : column c (normalize_group g)
                 = map (fun row => nth c row 0 / rsum (column c g)) g).
  { unfold column, normalize_group, div_rows. rewrite map_map.
    apply map_ext_in. intros row Hrow.
    unfold positive_rows in H. rewrite Forall_forall in H. destruct (H row Hrow) as [Hl _].
    rewrite nth_div_combine by (rewrite ?sum_axis0_length; lia).
    now rewrite sum_axis0_nth by lia. }
  rewrite Hcol, rsum_map_div. fold (column c g).
  assert (0 < rsum (column c g)).
  { apply rsum_pos; [destruct g; [congruence | discriminate]|].
    now apply (column_positive C). }
  field. lra.
Qed.

Lemma normalize_group_length (g : RMatrix) : length (normalize_group g) = length g.
Proof. unfold normalize_group, div_rows. now rewrite length_map. Qed.

Lemma normalize_group_row_length (C : nat) (g : RMatrix) :
  positive_rows C g -> Forall (fun row => length row = C) (normalize_group g).
Proof.
  intros H. destruct g as [|r0 g']; [constructor|].
  pose proof (shape1_positive_rows C (r0 :: g') ltac:(discriminate) H) as Hs.
  unfold normalize_group, div_rows. apply Forall_forall. intros row Hrow.
  apply in_map_iff in Hrow as (row0 & <- & Hin).
  unfold positive_rows in H. rewrite Forall_forall in H. destruct (H row0 Hin) as [Hl _].
  rewrite length_map, length_combine, sum_axis0_length. lia.
Qed.

Lemma np_exp_positive (C : nat) (w : RMatrix) :
  Forall (fun row => length row = C) w -> positive_rows C (np_exp w).
Proof.
  intros H. unfold positive_rows, np_exp. induction H as [|row w Hl _ IH]; cbn; constructor; auto.
  split; [now rewrite length_map|].
  apply Forall_forall. intros x Hx. apply in_map_iff in Hx as (y & <- & _). apply exp_pos.
Qed.

Lemma positive_rows_group (C : nat) (cs : list nat) (m g : RMatrix) :
  positive_rows C m -> In g (split_by cs m) -> positive_rows C g.
Proof.
  intros H Hg. unfold positive_rows in *. rewrite Forall_forall in *.
  intros row Hrow. apply H. eapply split_by_In; eauto.
Qed.

(** ** Scattering through a mask *)

Lemma count_true_app (a b : list bool) :
  count_true (a ++ b) = (count_true a + count_true b)%nat.
Proof. unfold count_true. now rewrite filter_app, length_app. Qed.

Lemma count_true_concat (l : list (list bool)) :
  count_true (concat l) = list_sum (map count_true l).
Proof.
  induction l as [|a l IH]; [reflexivity|].
  simpl. now rewrite count_true_app, IH.
Qed.

Lemma fill_length (mask : list bool) (vals : list R) :
  length (fill mask vals) = length mask.
Proof.
  revert vals; induction mask as [|[|] mask IH]; intros vals; simpl; auto.
Qed.

Lemma fill_app (m1 m2 : list bool) (v1 v2 : list R) :
  length v1 = count_true m1 ->
  fill (m1 ++ m2) (v1 ++ v2) = fill m1 v1 ++ fill m2 v2.
Proof.
  revert v1; induction m1 as [|[|] m1 IH]; intros v1 Hl.
  - destruct v1; [reflexivity | discriminate].
  - destruct v1 as [|x v1]; [discriminate|].
    simpl. f_equal. apply IH. unfold count_true in *. simpl in Hl. lia.
  - simpl. f_equal. apply IH. exact Hl.
Qed.

Lemma fill_rsum (mask : list bool) (vals : list R) :
  length vals = count_true mask -> rsum (fill mask vals) = rsum vals.
Proof.
  revert vals; induction mask as [|[|] mask IH]; intros vals Hl.
  - destruct vals; [reflexivity | discriminate].
  - destruct vals as [|x vals]; [discriminate|].
    simpl. f_equal. apply IH. unfold count_true in *. simpl in Hl. lia.
  - simpl. rewrite IH by exact Hl. lra.
Qed.

Lemma fill_concat (masks : list (list bool)) (vals : list (list R)) :
  Forall2 (fun m v => length v = count_true m) masks vals ->
  fill (concat masks) (concat vals) = concat (fill_blocks masks vals).
Proof.
  induction 1 as [|m v masks vals Hl _ IH]; [reflexivity|].
  simpl. now rewrite fill_app, IH.
Qed.

Lemma fill_blocks_lengths (n : nat) (masks : list (list bool)) (vals : list (list R)) :
  length masks = length vals ->
  Forall (fun m => length m = n) masks ->
  Forall (fun r => length r = n) (fill_blocks masks vals)
  /\ length (fill_blocks masks vals) = length masks.
Proof.
  revert vals; induction masks as [|m masks IH]; intros [|v vals] Hl Hm;
    try discriminate; simpl; [split; [constructor | reflexivity]|].
  inversion Hm as [|m0 ms0 Hm0 Hms]; subst.
  destruct (IH vals) as [Hr Hn]; [simpl in Hl; lia | assumption |].
  split; [constructor; [now rewrite fill_length | exact Hr] | now rewrite Hn].
Qed.

(** ** Reshaping *)

Lemma chunks_of_concat {A : Type} (n : nat) (l : list (list A)) :
  Forall (fun r => length r = n) l ->
  map (fun i => firstn n (skipn (i * n) (concat l))) (seq 0 (length l)) = l.
Proof.
  intros H. induction H as [|r l Hr _ IH]; [reflexivity|].
  simpl length. rewrite <- cons_seq, <- seq_shift. cbn [map]. rewrite map_map.
  f_equal.
  - cbn [concat Nat.mul skipn]. rewrite firstn_app, Hr, Nat.sub_diag, firstn_O, app_nil_r.
    rewrite <- Hr. apply firstn_all.
  - rewrite <- IH at 2. apply map_ext. intros i.
    cbn [concat]. replace (S i * n)%nat with (length r + i * n)%nat by (simpl; lia).
    rewrite skipn_app, skipn_all2 by lia.
    now replace (length r + i * n - length r)%nat with (i * n)%nat by lia.
Qed.

Lemma concat_length_uniform {A : Type} (n : nat) (l : list (list A)) :
  Forall (fun r => length r = n) l -> length (concat l) = (length l * n)%nat.
Proof.
  induction 1 as [|r l Hr _ IH]; [reflexivity|].
  simpl. rewrite length_app, IH, Hr. lia.
Qed.

Lemma reshape_rows_concat {A : Type} (n : nat) (l : list (list A)) :
  (0 < n)%nat -> Forall (fun r => length r = n) l ->
  reshape_rows (concat l) n = Some l.
Proof.
  intros Hn H. unfold reshape_rows.
  rewrite (concat_length_uniform n l H).
  destruct (Nat.eqb_spec n 0); [lia|].
  rewrite Nat.Div0.mod_mul, Nat.eqb_refl, Nat.div_mul by lia.
  now rewrite (chunks_of_concat n l H).
Qed.

(** ** Transposition and uniform smoothing *)

Lemma nth_seq_id (row : list R) :
  map (fun i => nth i row 0) (seq 0 (length row)) = row.
Proof.
  induction row as [|x row IH]; [reflexivity|].
  simpl length. rewrite <- cons_seq, <- seq_shift. cbn [map nth]. rewrite map_map.
  now rewrite IH.
Qed.

Lemma map_nth_seq {A B : Type} (f : A -> B) (d : A) (l : list A) :
  map (fun j => f (nth j l d)) (seq 0 (length l)) = map f l.
Proof.
  induction l as [|x l IH]; [reflexivity|].
  simpl length. rewrite <- cons_seq, <- seq_shift. cbn [map nth]. rewrite map_map.
  now rewrite IH.
Qed.

Lemma column_nth (i j : nat) (r : RMatrix) :
  nth j (column i r) 0 = nth i (nth j r []) 0.
Proof.
  unfold column.
  replace 0 with ((fun row : list R => nth i row 0) []) at 1 by (now destruct i).
  apply (map_nth (fun row : list R => nth i row 0)).
Qed.

Lemma column_length (j : nat) (m : RMatrix) : length (column j m) = length m.
Proof. unfold column. apply length_map. Qed.

Lemma transpose_column (n j : nat) (r : RMatrix) :
  Forall (fun row => length row = n) r -> (j < length r)%nat ->
  column j (transpose r) = nth j r [].
Proof.
  intros H Hj. unfold transpose.
  assert (Hs : shape1 r = n).
  { destruct H as [|row r' Hl _]; [simpl in Hj; lia | exact Hl]. }
  rewrite Hs. unfold column at 1. rewrite map_map.
  rewrite (map_ext _ (fun i => nth i (nth j r []) 0)) by (intros; apply column_nth).
  assert (Hl : length (nth j r []) = n).
  { rewrite Forall_forall in H. apply H, nth_In, Hj. }
  rewrite <- Hl. apply nth_seq_id.
Qed.

Lemma transpose_shape (n : nat) (r : RMatrix) :
  (0 < n)%nat -> r <> [] -> Forall (fun row => length row = n) r ->
  length (transpose r) = n /\ Forall (fun row => length row = length r) (transpose r).
Proof.
  intros Hn Hne H. unfold transpose.
  assert (Hs : shape1 r = n).
  { destruct H as [|row r' Hl _]; [congruence | exact Hl]. }
  rewrite Hs, length_map, length_seq. split; [reflexivity|].
  apply Forall_forall. intros row Hrow. apply in_map_iff in Hrow as (i & <- & _).
  apply column_length.
Qed.

Lemma sum_axis0_transpose (n : nat) (r : RMatrix) :
  (0 < n)%nat -> Forall (fun row => length row = n) r ->
  sum_axis0 (transpose r) = map rsum r.
Proof.
  intros Hn H. destruct r as [|r0 r']; [reflexivity|].
  set (r := r0 :: r') in *.
  destruct (transpose_shape n r Hn ltac:(discriminate) H) as [Hlen Hrows].
  unfold sum_axis0.
  assert (Hs : shape1 (transpose r) = length r).
  { destruct (transpose r) as [|t0 t']; [simpl in Hlen; lia|].
    inversion Hrows; subst. assumption. }
  rewrite Hs. rewrite <- (map_nth_seq rsum [] r).
  apply map_ext_in. intros j Hj. apply in_seq in Hj.
  now rewrite (transpose_column n) by (assumption || lia).
Qed.

Lemma rsum_map_plus {A : Type} (f : A -> R) (c : R) (l : list A) :
  rsum (map (fun a => f a + c) l) = rsum (map f l) + INR (length l) * c.
Proof.
  induction l as [|a l IH]; [simpl; lra|].
  cbn [map rsum]. rewrite IH. cbn [length]. rewrite S_INR. lra.
Qed.

Lemma add_uniform_sums (k : nat) (t : RMatrix) :
  t <> [] -> Forall (fun row => length row = k) t ->
  sum_axis0 (_add_uniform t 0)
  = map (fun s => if Req_dec_T s 0 then 1 else s) (sum_axis0 t).
Proof.
  intros Hne H.
  assert (Hs : shape1 t = k).
  { destruct H as [|row t' Hl _]; [congruence | exact Hl]. }
  assert (Hn : INR (length t) <> 0).
  { apply not_0_INR. destruct t; [congruence | discriminate]. }
  set (f := fun xs : R * R =>
              let '(x, s) := xs in
              if Req_dec_T s 0 then x + 1 / INR (length t)
              else if Req_dec_T 0 0 then x
              else if Req_dec_T x 0 then x + 0 else x).
  assert (Hs' : shape1 (_add_uniform t 0) = k).
  { unfold _add_uniform, shape1. destruct t as [|row t']; [congruence|].
    cbn [map hd]. inversion H; subst.
    rewrite length_map, length_combine, sum_axis0_length. unfold shape1. cbn [hd]. lia. }
  unfold sum_axis0. rewrite Hs', Hs, map_map.
  apply map_ext_in. intros j Hj. apply in_seq in Hj.
  assert (Hcol : column j (_add_uniform t 0)
                 = map (fun row => f (nth j row 0, rsum (column j t))) t).
  { unfold column at 1, _add_uniform. rewrite map_map. apply map_ext_in. intros row Hrow.
    fold f. rewrite Forall_forall in H. pose proof (H row Hrow) as Hl.
    rewrite (nth_indep _ 0 (f (0, 0))) by (rewrite length_map, length_combine, sum_axis0_length; lia).
    rewrite (map_nth f), combine_nth by (rewrite sum_axis0_length; lia).
    now rewrite sum_axis0_nth by lia. }
  rewrite Hcol. unfold f. destruct (Req_dec_T (rsum (column j t)) 0) as [Hz|Hnz].
  - rewrite (rsum_map_plus (fun row => nth j row 0)). fold (column j t). rewrite Hz. field. exact Hn.
  - destruct (Req_dec_T 0 0) as [_|Hc]; [reflexivity | congruence].
Qed.

(** ** One feature node *)

Lemma prod_shape_last (shape : list nat) :
  shape <> [] ->
  fold_right Nat.mul 1%nat shape
  = (fold_right Nat.mul 1%nat (removelast shape) * last shape 0%nat)%nat.
Proof.
  induction shape as [|a [|b shape] IH]; intros Hne; [congruence | simpl; lia |].
  specialize (IH ltac:(discriminate)).
  change (fold_right Nat.mul 1%nat (a :: b :: shape))
    with (a * fold_right Nat.mul 1%nat (b :: shape))%nat.
  change (removelast (a :: b :: shape)) with (a :: removelast (b :: shape)).
  change (last (a :: b :: shape) 0%nat) with (last (b :: shape) 0%nat).
  rewrite IH. simpl. lia.
Qed.

Lemma chunks_concat {A : Type} (n k : nat) (v : list A) :
  length v = (k * n)%nat ->
  concat (map (fun i => firstn n (skipn (i * n) v)) (seq 0 k)) = v
  /\ Forall (fun r => length r = n)
            (map (fun i => firstn n (skipn (i * n) v)) (seq 0 k)).
Proof.
  revert v; induction k as [|k IH]; intros v Hl.
  - destruct v; [split; [reflexivity | constructor] | discriminate].
  - rewrite <- cons_seq, <- seq_shift. cbn [map]. rewrite map_map.
    assert (Hl' : length (skipn n v) = (k * n)%nat) by (rewrite length_skipn; simpl in Hl; lia).
    destruct (IH (skipn n v) Hl') as [Hc Hf].
    assert (He : map (fun i => firstn n (skipn (S i * n) v)) (seq 0 k)
                 = map (fun i => firstn n (skipn (i * n) (skipn n v))) (seq 0 k)).
    { apply map_ext. intros i. rewrite skipn_skipn. do 2 f_equal. simpl; lia. }
    rewrite He. cbn [Nat.mul skipn concat]. split.
    + rewrite Hc. apply firstn_skipn.
    + constructor; [|exact Hf]. rewrite firstn_length_le; [reflexivity | simpl in Hl; lia].
Qed.

Lemma have_value_rows_spec (hv : BoolArray) :
  ba_wf hv = true ->
  (0 < last_dim hv)%nat
  /\ concat (have_value_rows hv) = ba_data hv
  /\ Forall (fun r => length r = last_dim hv) (have_value_rows hv).
Proof.
  unfold ba_wf. intros H. apply andb_prop in H as [Hl Hn].
  apply Nat.eqb_eq in Hl. apply Nat.ltb_lt in Hn.
  split; [exact Hn|]. unfold have_value_rows.
  apply chunks_concat.
  assert (Hne : ba_shape hv <> []).
  { unfold last_dim in Hn. destruct (ba_shape hv); [simpl in Hn; lia | discriminate]. }
  rewrite Hl, (prod_shape_last _ Hne). fold (last_dim hv).
  now rewrite Nat.div_mul by lia.
Qed.

Lemma concat_nils {A B : Type} (l : list B) :
  concat (map (fun _ => @nil A) l) = [].
Proof. induction l; simpl; auto. Qed.

Lemma column_concat (c : nat) (l : list RMatrix) :
  column c (concat l) = concat (map (column c) l).
Proof. unfold column. apply concat_map. Qed.

Lemma concat_lengths {A : Type} (l : list (list A)) :
  length (concat l) = list_sum (map (@length A) l).
Proof. induction l as [|a l IH]; [reflexivity|]. simpl. now rewrite length_app, IH. Qed.

Lemma fill_blocks_In (P : list bool -> list R -> Prop) (masks : list (list bool))
    (vals : list (list R)) (b : list R) :
  Forall2 P masks vals -> In b (fill_blocks masks vals) ->
  exists m v, P m v /\ b = fill m v.
Proof.
  induction 1 as [|m v masks vals Hp _ IH]; intros Hb; [contradiction|].
  destruct Hb as [<-|Hb]; [now exists m, v | now apply IH].
Qed.

Lemma blocks_of_groups (C c : nat) (rows : list (list bool)) (gs : list RMatrix) :
  (c < C)%nat ->
  Forall2 (fun row g => length g = count_true row) rows gs ->
  Forall (positive_rows C) gs ->
  Forall2 block_of rows (map (column c) (map normalize_group gs)).
Proof.
  intros Hc H. induction H as [|row g rows gs Hl _ IH]; intros Hp; [constructor|].
  inversion Hp as [|g0 gs0 Hg Hgs]; subst. cbn [map]. constructor; [|now apply IH].
  split; [now rewrite column_length, normalize_group_length|].
  destruct g as [|r0 g']; [right; reflexivity|].
  left. apply (normalize_group_column C); [discriminate | assumption | assumption].
Qed.

Lemma block_lengths (rows : list (list bool)) (vs : list (list R)) :
  Forall2 block_of rows vs ->
  Forall2 (fun m v => length v = count_true m) rows vs.
Proof. induction 1 as [|m v rows vs [Hl _] _ IH]; constructor; auto. Qed.

Lemma forall2_count (masks : list (list bool)) (vals : list (list R)) :
  Forall2 (fun m v => length v = count_true m) masks vals ->
  length (concat vals) = count_true (concat masks).
Proof.
  induction 1 as [|m v masks vals Hl _ IH]; [reflexivity|].
  simpl. now rewrite length_app, count_true_app, Hl, IH.
Qed.

Lemma forall2_repeat_map {A B : Type} (P : A -> B -> Prop) (a : A) (f : nat -> B)
    (l : list nat) :
  (forall c, In c l -> P a (f c)) -> Forall2 P (repeat a (length l)) (map f l).
Proof.
  induction l as [|c l IH]; intros H; [constructor|].
  simpl. constructor; [apply H; now left | apply IH; intros; apply H; now right].
Qed.

Lemma fill_blocks_repeat (data : list bool) (f : nat -> list R) (l : list nat) :
  fill_blocks (repeat data (length l)) (map f l) = map (fun c => fill data (f c)) l.
Proof. induction l as [|c l IH]; [reflexivity|]. simpl. now rewrite IH. Qed.

Lemma concat_join {A : Type} (l : list (list (list A))) :
  concat (concat l) = concat (map (@concat A) l).
Proof.
  induction l as [|a l IH]; [reflexivity|].
  simpl. now rewrite concat_app, IH.
Qed.

Lemma concat_map_shape {A : Type} (n k : nat) (F : nat -> list (list A)) (l : list nat) :
  (forall c, Forall (fun r => length r = n) (F c) /\ length (F c) = k) ->
  Forall (fun r => length r = n) (concat (map F l))
  /\ length (concat (map F l)) = (length l * k)%nat.
Proof.
  intros HF. induction l as [|c l [IH1 IH2]]; [split; [constructor | reflexivity]|].
  cbn [map concat]. destruct (HF c) as [H1 H2]. split.
  - apply Forall_app; split; assumption.
  - rewrite length_app, H2, IH2. simpl. lia.
Qed.

Lemma full_cpd_prob_feature (C : nat) (hv : BoolArray) (gs : list RMatrix) :
  ba_wf hv = true ->
  Forall2 (fun row g => length g = count_true row) (have_value_rows hv) gs ->
  Forall (positive_rows C) gs ->
  exists t,
    full_cpd_prob_of C hv (concat (map normalize_group gs)) = Some t
    /\ length (sum_axis0 t) = (C * length (have_value_rows hv))%nat
    /\ Forall (fun s => s = 1) (sum_axis0 t).
Proof.
  intros Hwf Hgs Hpos.
  destruct (have_value_rows_spec hv Hwf) as (Hn & Hdata & Hrows).
  set (rows := have_value_rows hv) in *. set (n := last_dim hv) in *.
  set (cp := concat (map normalize_group gs)).
  set (F := fun c => fill_blocks rows (map (column c) (map normalize_group gs))).
  (* the values that are scattered, class by class *)
  assert (Hvals : ravel (transpose cp) = concat (map (fun c => column c cp) (seq 0 C))).
  { unfold ravel, transpose. destruct cp as [|r0 cp'] eqn:Ecp.
    - cbn [shape1 hd length seq map concat]. unfold column. cbn [map].
      now rewrite concat_nils.
    - assert (Hr0 : length r0 = C).
      { assert (Hin : In r0 cp) by (rewrite Ecp; now left).
        unfold cp in Hin. apply in_concat in Hin as (ng & Hng & Hin).
        apply in_map_iff in Hng as (g & <- & Hg).
        rewrite Forall_forall in Hpos.
        pose proof (normalize_group_row_length C g (Hpos g Hg)) as Hl.
        rewrite Forall_forall in Hl. now apply Hl. }
      unfold shape1. cbn [hd]. now rewrite Hr0. }
  (* each class block is scattered row by row *)
  assert (Hblock : forall c, (c < C)%nat ->
            Forall2 block_of rows (map (column c) (map normalize_group gs))).
  { intros c Hc. now apply (blocks_of_groups C). }
  assert (Hcol : forall c, (c < C)%nat ->
            length (column c cp) = count_true (ba_data hv)
            /\ fill (ba_data hv) (column c cp) = concat (F c)).
  { intros c Hc. unfold cp, F. rewrite column_concat, <- Hdata.
    pose proof (block_lengths _ _ (Hblock c Hc)) as Hl.
    split; [now apply forall2_count | now apply fill_concat]. }
  assert (Hrep : Forall2 (fun m v => length v = count_true m)
                   (repeat (ba_data hv) (length (seq 0 C)))
                   (map (fun c => column c cp) (seq 0 C))).
  { apply forall2_repeat_map. intros c Hc. apply in_seq in Hc. apply Hcol. lia. }
  rewrite length_seq in Hrep.
  assert (Hfill : fill (concat (repeat (ba_data hv) C))
                       (concat (map (fun c => column c cp) (seq 0 C)))
                  = concat (concat (map F (seq 0 C)))).
  { rewrite (fill_concat _ _ Hrep).
    replace (repeat (ba_data hv) C) with (repeat (ba_data hv) (length (seq 0 C)))
      by (now rewrite length_seq).
    rewrite (fill_blocks_repeat (ba_data hv) (fun c => column c cp) (seq 0 C)).
    rewrite concat_join. f_equal. rewrite map_map.
    apply map_ext_in. intros c Hc. apply in_seq in Hc. apply Hcol. lia. }
  pose proof (forall2_count _ _ Hrep) as Hcount.
  (* shape of the scattered blocks *)
  assert (Hshape : Forall (fun r => length r = n) (concat (map F (seq 0 C)))
                   /\ length (concat (map F (seq 0 C))) = (length (seq 0 C) * length rows)%nat).
  { apply concat_map_shape. intros c. unfold F.
    apply fill_blocks_lengths; [|exact Hrows].
    rewrite !length_map. eapply Forall2_length; eauto. }
  rewrite length_seq in Hshape. destruct Hshape as [Hs1 Hs2].
  set (r := concat (map F (seq 0 C))) in *.
  (* run the code *)
  unfold full_cpd_prob_of. fold cp. rewrite Hvals. unfold mask_assign.
  rewrite Hcount, Nat.eqb_refl, Hfill. fold n.
  rewrite (reshape_rows_concat n r Hn Hs1).
  eexists; split; [reflexivity|].
  assert (Hsums : sum_axis0 (_add_uniform (transpose r) 0)
                  = map (fun s => if Req_dec_T s 0 then 1 else s) (map rsum r)).
  { destruct r as [|b0 r'] eqn:Er; [reflexivity|]. rewrite <- Er in *.
    assert (Hne : r <> []) by (rewrite Er; discriminate).
    destruct (transpose_shape n r Hn Hne Hs1) as [Ht1 Ht2].
    rewrite (add_uniform_sums (length r)); [| |exact Ht2].
    - now rewrite (sum_axis0_transpose n).
    - destruct (transpose r); [simpl in Ht1; lia | discriminate]. }
  rewrite Hsums. split; [now rewrite !length_map|].
  apply Forall_forall. intros s Hs.
  apply in_map_iff in Hs as (s0 & <- & Hs0). apply in_map_iff in Hs0 as (b & <- & Hb).
  unfold r in Hb. apply in_concat in Hb as (blk & Hblk & Hb).
  apply in_map_iff in Hblk as (c & <- & Hc). apply in_seq in Hc.
  unfold F in Hb.
  destruct (fill_blocks_In block_of _ _ b (Hblock c ltac:(lia)) Hb) as (m & v & [Hl Hv] & ->).
  rewrite (fill_rsum m v Hl).
  destruct (Req_dec_T (rsum v) 0) as [Hz|Hnz]; [reflexivity|].
  destruct Hv as [Hv|Hv]; [exact Hv | contradiction].
Qed.

(** ** All feature nodes *)

Lemma forall2_of_lengths {A B : Type} (f : A -> nat) (rows : list A) (gs : list (list B)) :
  map (@length B) gs = map f rows ->
  Forall2 (fun row g => length g = f row) rows gs.
Proof.
  revert gs; induction rows as [|row rows IH]; intros [|g gs] H; try discriminate;
    constructor; inversion H; auto.
Qed.

Lemma positive_rows_skipn (C k : nat) (m : RMatrix) :
  positive_rows C m -> positive_rows C (skipn k m).
Proof.
  unfold positive_rows. rewrite !Forall_forall. intros H row Hrow.
  apply H. rewrite <- (firstn_skipn k m). apply in_or_app. now right.
Qed.

Lemma normalized_length (gs : list RMatrix) :
  length (concat (map normalize_group gs)) = list_sum (map (@length (list R)) gs).
Proof.
  rewrite concat_lengths, map_map. f_equal. apply map_ext. intros g.
  apply normalize_group_length.
Qed.

Lemma features_stochastic (C : nat) (hvs : list BoolArray) (m : RMatrix) :
  forallb ba_wf hvs = true ->
  positive_rows C m ->
  (list_sum (flat_map row_counts hvs) <= length m)%nat ->
  exists tables,
    collect (map (fun hs => full_cpd_prob_of C (fst hs) (snd hs))
                 (combine hvs
                    (split_by (map (fun hv => count_true (ba_data hv)) hvs)
                       (concat (map normalize_group
                                    (split_by (flat_map row_counts hvs) m))))))
    = Some tables
    /\ Forall2 (stochastic_table C) hvs tables.
Proof.
  revert m; induction hvs as [|hv hvs IH]; intros m Hwf Hpos Hlen.
  - exists []. split; [reflexivity | constructor].
  - cbn [forallb] in Hwf. apply andb_prop in Hwf as [Hwf Hwfs].
    cbn [flat_map] in *. rewrite list_sum_app in Hlen.
    rewrite split_by_app, map_app, concat_app.
    set (gs := split_by (row_counts hv) m).
    assert (Hgl : map (@length (list R)) gs = row_counts hv)
      by (apply split_by_lengths; lia).
    destruct (have_value_rows_spec hv Hwf) as (_ & Hdata & _).
    assert (Htot : length (concat (map normalize_group gs)) = count_true (ba_data hv)).
    { rewrite normalized_length, Hgl, <- Hdata, count_true_concat. reflexivity. }
    cbn [map split_by]. rewrite <- Htot.
    rewrite firstn_app, Nat.sub_diag, firstn_O, app_nil_r, firstn_all.
    rewrite skipn_app, Nat.sub_diag, skipn_all. cbn [skipn app combine map fst snd collect].
    destruct (full_cpd_prob_feature C hv gs Hwf) as (t & Ht & Hst).
    { apply forall2_of_lengths. exact Hgl. }
    { apply Forall_forall. intros g Hg. eapply positive_rows_group; eauto. }
    destruct (IH (skipn (list_sum (row_counts hv)) m) Hwfs) as (ts & Hts & Hsts).
    { now apply positive_rows_skipn. }
    { rewrite length_skipn. lia. }
    exists (t :: ts). split; [now rewrite Ht, Hts | constructor; assumption].
Qed.

Lemma combine_map_r {A B D : Type} (f : B -> D) (l : list A) (l' : list B) :
  combine l (map f l') = map (fun p => (fst p, f (snd p))) (combine l l').
Proof.
  revert l'; induction l as [|a l IH]; intros [|b l']; simpl; auto. now rewrite IH.
Qed.

Lemma list_nat_eqb_eq (a b : list nat) : list_nat_eqb a b = true -> a = b.
Proof. unfold list_nat_eqb. destruct (list_eq_dec Nat.eq_dec a b); congruence. Qed.

Lemma full_cpd_probs_stochastic (C : nat) (e : KdbEncoder) (w : RMatrix) :
  encoder_wf e = true ->
  length w = list_sum (constraints_ e) ->
  Forall (fun row => length row = C) w ->
  exists tables,
    full_cpd_probs_of C e w = Some tables
    /\ Forall2 (stochastic_table C) (have_value_idxs_ e) tables.
Proof.
  unfold encoder_wf. intros Hwf Hlen Hrows.
  apply andb_prop in Hwf as [Hwf Hh]. apply andb_prop in Hwf as [Hwf Hc].
  apply list_nat_eqb_eq in Hc, Hh.
  destruct (features_stochastic C (have_value_idxs_ e) (np_exp w) Hwf) as (ts & Hts & Hst).
  - now apply np_exp_positive.
  - fold row_counts in Hc. unfold np_exp. rewrite length_map, Hlen, Hc. apply Nat.le_refl.
  - exists ts. split; [|exact Hst].
    rewrite <- Hts. fold row_counts in Hc. rewrite <- Hc, <- Hh.
    unfold full_cpd_probs_of, cpd_probs_of. rewrite group_slices_split_by. f_equal.
    rewrite <- (slices_split_by (high_order_feature_uniques_ e)).
    rewrite combine_map_r, map_map. apply map_ext. intros [hv [s t]]. reflexivity.
Qed.

(** ** The range of float32

    The kernel is a float32 array, and [np.exp] of it is one too.  Where a
    property is about the normalisation dividing by zero, what matters is
    which results leave the range: a result of at most [2^-150], half the
    smallest subnormal, is rounded to [0.0], and one of at least [2^128] to
    [inf].  Inside the range rounding moves no value to zero or to infinity,
    and a value is kept as the real it rounds. *)

(** * The normalisation on float32 *)























(** * Properties of the model *)

Section ModelProperties.

Context {collab : Collaborators}.

Notation "x <- m ;; f" := (bind m (fun x => f))
  (at level 61, m at next level, right associativity).

(** ** The monad *)

(** Unfolds the plumbing of the monad and the projections of the state. *)
Ltac msimpl :=
  repeat (progress
    (unfold run, bind, get_self, put_self, ret, clear_session, build_network,
                     new_sequential, add_dense, net_fit,
                     net_predict, subsample, bn_forward_sample, set___d, set___gen_weights,
                     set_batch_size, set_k, set_constraints, set_weights, get_lr, _discrim;
     cbn [self rng session log fst snd of_option __d __gen_weights batch_size epochs k
          constraints net_units net_input_dim net_activation net_kernel_constraint
          net_loss net_optimizer net_weights])).

Lemma bind_ok {A B : Type} (m : M A) (f : A -> M B) (w w' : World) (a : A) :
  m w = (Ok a, w') -> bind m f w = f a w'.
Proof. intros H. unfold bind. now rewrite H. Qed.

Lemma bind_raise {A B : Type} (m : M A) (f : A -> M B) (w w' : World) (e : PyError) :
  m w = (Raise e, w') -> bind m f w = (Raise e, w').
Proof. intros H. unfold bind. now rewrite H. Qed.

Lemma mapM_pure {A B : Type} (f : A -> M B) (g : A -> B) (l : list A) :
  (forall a, In a l -> forall w, f a w = (Ok (g a), w)) ->
  forall w, mapM f l w = (Ok (map g l), w).
Proof.
  induction l as [|a l IH]; intros H w; [reflexivity|].
  cbn [mapM map]. rewrite (bind_ok _ _ w w (g a)) by (apply H; now left).
  rewrite (bind_ok _ _ w w (map g l)) by (apply IH; intros; apply H; now right).
  reflexivity.
Qed.

(** ** Selecting the columns of a frame *)

Lemma index_of_In (name : string) (cols : list string) :
  In name cols -> exists i, index_of name cols = Some i.
Proof.
  induction cols as [|c cols IH]; intros H; [contradiction|].
  cbn [index_of]. destruct (String.eqb_spec name c) as [_|Hne]; [now exists 0%nat|].
  destruct H as [->|H]; [congruence|]. destruct (IH H) as [i ->]. now exists (S i).
Qed.

Lemma collect_map_some {A B : Type} (f : A -> option B) (l : list A) :
  (forall a, In a l -> exists b, f a = Some b) ->
  exists bs, collect (map f l) = Some bs.
Proof.
  induction l as [|a l IH]; intros H; [now exists []|].
  destruct (H a (or_introl eq_refl)) as [b Hb].
  destruct IH as [bs Hbs]; [intros; apply H; now right|].
  exists (b :: bs). cbn [map collect]. now rewrite Hb, Hbs.
Qed.

Lemma df_getitem_ok (df : DataFrame) (names : list string) :
  (forall n, In n names -> In n (df_columns df)) ->
  exists sorted, df_getitem df names = Ok sorted
                 /\ length sorted = length (df_values df).
Proof.
  intros H. unfold df_getitem.
  destruct (collect_map_some (fun n => index_of n (df_columns df)) names) as [idxs ->].
  - intros n Hn. now apply index_of_In, H.
  - eexists; split; [reflexivity | now rewrite length_map].
Qed.

(** ** [sample] on a fitted model *)

Lemma nth_error_nth_lt {A : Type} (l : list A) (n : nat) (d : A) :
  (n < length l)%nat -> nth_error l n = Some (nth n l d).
Proof.
  revert n; induction l as [|a l IH]; intros [|n] H; simpl in *; try lia; auto.
  apply IH. lia.
Qed.

Lemma combine_fst_map {A B : Type} (l : list A) (l' : list B) :
  length l = length l' -> map fst (combine l l') = l.
Proof.
  revert l'; induction l as [|a l IH]; intros [|b l'] H; try discriminate; [reflexivity|].
  simpl. f_equal. apply IH. simpl in H. lia.
Qed.

Lemma sample_fitted {laws : CollaboratorLaws collab} (w : World) (d : DataUtils)
    (gw : Weights) :
  fitted w d gw ->
  exists tables,
    full_cpd_probs_of (num_classes d) (_kdbe d) (kernel gw) = Some tables
    /\ forall size verbose,
      let n := match size with None => data_size d | Some n => n end in
      let sp := gt_zero (normalize_verbose verbose) in
      let bn := network_of d tables in
      exists sorted,
        sampled_rows bn d n sp (rng w) = Ok sorted
        /\ length sorted = n
        /\ forall ohe,
          run (sample size ohe verbose) w
          = (Ok (if ohe then OneHotEncoder_fit_transform (map (@removelast Z) sorted)
                 else map (@removelast Z) sorted,
                 map (fun row => last row 0%Z) sorted),
             mkWorld (self w) (snd (forward_sample bn n sp (rng w))) (session w)
                     (log w ++ [EvForwardSample bn n sp
                                  (fst (forward_sample bn n sp (rng w)))])).
Proof.
  intros (Hd & Hg & (Hwf & Hwidth & Hdeps & Hhv & Hfc & Hpar) & (Hkl & Hkr)).
  destruct (full_cpd_probs_stochastic (num_classes d) (_kdbe d) (kernel gw) Hwf Hkl Hkr)
    as (tables & Htab & Hst).
  exists tables. split; [exact Htab|]. intros size verbose n sp bn.
  assert (Htl : length tables = num_features d).
  { rewrite <- Hhv. symmetry. eapply Forall2_length; eauto. }
  assert (Hdl : length (dependencies_ (_kdbe d)) = num_features d).
  { rewrite <- (length_map fst), Hdeps. apply length_seq. }
  (* every node has a column *)
  destruct (df_getitem_ok (fst (forward_sample bn n sp (rng w)))
              (map str (seq 0 (num_features d + 1)))) as (sorted & Hsorted & Hlen).
  { intros name Hname. rewrite seq_app, map_app in Hname. cbn [seq map Nat.add] in Hname.
    apply in_app_or in Hname as [Hname|[<-|[]]].
    - apply in_map_iff in Hname as (i & <- & Hi).
      rewrite <- Hdeps in Hi. apply in_map_iff in Hi as (dep & <- & Hdep).
      rewrite <- (combine_fst_map (dependencies_ (_kdbe d)) tables) in Hdep by lia.
      apply in_map_iff in Hdep as (nt & <- & Hnt).
      apply (forward_sample_columns bn n sp (rng w) (cpd_of d nt)).
      unfold bn, network_of. cbn [bn_cpds]. right. now apply in_map.
    - apply (forward_sample_columns bn n sp (rng w)
               (mkTabularCPD (str (num_features d)) (num_classes d) (y_probs_of d) [] [])).
      unfold bn, network_of. cbn [bn_cpds]. left.
      rewrite seq_app, map_app. cbn [seq map Nat.add]. now rewrite last_last. }
  exists sorted. split; [exact Hsorted|]. split; [now rewrite Hlen, forward_sample_rows|].
  intros ohe. unfold run, sample.
  rewrite (bind_ok _ _ w w (self w)) by reflexivity.
  rewrite Hd, Hg. cbn [of_option].
  rewrite (bind_ok _ _ w w d) by reflexivity.
  rewrite (bind_ok _ _ w w gw) by reflexivity.
  rewrite Htab. cbn [of_option].
  rewrite (bind_ok _ _ w w tables) by reflexivity.
  rewrite (bind_ok _ _ w w (map (cpd_of d) (combine (dependencies_ (_kdbe d)) tables)) ).
  2:{ apply mapM_pure. intros [[name evs] table] Hin w0.
      assert (Hname : (name < num_features d)%nat).
      { apply in_combine_l in Hin. apply (in_map fst) in Hin. rewrite Hdeps in Hin.
        apply in_seq in Hin. cbn [fst] in Hin. lia. }
      assert (Hevs : Forall (fun p => (p < num_features d)%nat) evs).
      { apply in_combine_l in Hin. rewrite Forall_forall in Hpar. exact (Hpar _ Hin). }
      rewrite (nth_error_nth_lt _ _ 0%nat) by lia. cbn [of_option].
      rewrite (bind_ok _ _ w0 w0 (nth name (feature_uniques d) 0%nat)) by reflexivity.
      rewrite (bind_ok _ _ w0 w0 (map (fun e => nth e (feature_uniques d) 0%nat) evs)).
      - reflexivity.
      - apply mapM_pure. intros e He w1. rewrite Forall_forall in Hevs.
        rewrite (nth_error_nth_lt _ _ 0%nat) by (specialize (Hevs e He); lia).
        reflexivity. }
  fold (network_of d tables). fold bn. fold n. fold sp.
  unfold bn_forward_sample at 1. unfold bind at 1.
  destruct (forward_sample bn n sp (rng w)) as [df r'] eqn:Efs.
  cbn [fst snd] in *. unfold sampled_rows in *.
  unfold lift_result, bind. rewrite Hsorted. destruct ohe; reflexivity.
Qed.

(** ** One generator refinement *)

Lemma run_generator_spec (w : World) (d : DataUtils) (gw : Weights) (loss : R) :
  __d (self w) = Some d ->
  __gen_weights (self w) = Some gw ->
  let out := refinement_run (self w) d gw loss (rng w) in
  run (_run_generator loss) w
  = (Ok (fst (fst (fst out))),
     mkWorld (mkGANBLR (Some d) (Some (net_weights (snd (fst (fst out)))))
                       (batch_size (self w)) (epochs (self w)) (k (self w))
                       (constraints (self w)))
             (snd out) fresh_session
             (log w ++ refinement_events (self w) d gw loss (rng w))).
Proof.
  intros Hd Hg out. unfold out, refinement_events, refinement_run, refinement_network.
  unfold _run_generator. msimpl. rewrite Hd, Hg. msimpl.
  destruct (dense_init _ _ (sequential_init fresh_session) (rng w)) as [[w0 s1] r1]. msimpl.
  destruct (keras_fit _ _ _ _ _ s1 r1) as [[[h gen1] s2] r2]. msimpl.
  rewrite Hd.
  now rewrite <- !app_assoc.
Qed.

(** ** One adversarial round *)

Lemma fitted_after_refinement {laws : CollaboratorLaws collab} (w : World) (d : DataUtils)
    (gw : Weights) (loss : R) :
  fitted w d gw ->
  fitted (snd (run (_run_generator loss) w)) d
         (net_weights (snd (fst (fst (refinement_run (self w) d gw loss (rng w)))))).
Proof.
  intros (Hd & Hg & Hwf & Hk).
  rewrite (run_generator_spec w d gw loss Hd Hg). cbn [snd].
  unfold fitted. cbn [self __d __gen_weights].
  split; [reflexivity|]. split; [reflexivity|]. split; [exact Hwf|].
  unfold refinement_run. apply keras_fit_shape. exact Hk.
Qed.

Lemma fit_rounds_spec {laws : CollaboratorLaws collab} (x : DMatrix) (d : DataUtils)
    (b : nat) :
  length x = data_size d ->
  forall n w gw syn,
    fitted w d gw ->
    batch_size (self w) = Some b ->
    length syn = data_size d ->
    exists rs w' gw',
      run (fit_rounds n x (repeat 1%Z (data_size d) ++ repeat 0%Z (data_size d)) b syn) w
      = (Ok tt, w')
      /\ length rs = n
      /\ log w' = log w ++ flat_map (round_events x d (k (self w)) b (constraints (self w))) rs
      /\ chained d syn gw rs
      /\ Forall (round_genuine x d b) rs
      /\ fitted w' d gw'
      /\ batch_size (self w') = Some b
      /\ k (self w') = k (self w)
      /\ constraints (self w') = constraints (self w)
      /\ epochs (self w') = epochs (self w).
Proof.
  intros Hx n. induction n as [|n IH]; intros w gw syn Hfit Hb Hsyn.
  - exists [], w, gw. cbn [fit_rounds flat_map length chained]. rewrite app_nil_r.
    split; [reflexivity|].
    repeat (split; [first [reflexivity | assumption | exact I | constructor]|]).
    reflexivity.
  - pose proof Hfit as (Hd & Hg & Hwf & Hk).
    cbn [fit_rounds]. msimpl.
    destruct (utils_sample _ _ _ (rng w)) as [[di dl] r1] eqn:Esub. msimpl.
    rewrite Hd. msimpl.
    destruct (dense_init (num_features d) 1 (sequential_init (session w)) r1) as [[w0 s1] r2] eqn:Einit. msimpl.
    destruct (keras_fit _ di dl (Some b) 1 s1 r2) as [[[h disc] s2] r3] eqn:Edisc. msimpl.
    destruct (keras_predict disc x s2) as [p s3] eqn:Epred. msimpl.
    match goal with
    | |- context [_run_generator ?l ?W] =>
        pose proof (run_generator_spec W d gw l Hd Hg) as Hgen;
        pose proof (fitted_after_refinement W d gw l
                      (conj Hd (conj Hg (conj Hwf Hk)))) as Hfit2;
        unfold run in Hgen, Hfit2; rewrite Hgen in Hfit2 |- *
    end.
    cbn [self rng session log snd] in Hfit2 |- *.
    set (out := refinement_run (self w) d gw (KL_loss p) r3) in *.
    match goal with
    | |- context [sample None false (PyInt 1) ?W] =>
        destruct (sample_fitted W d _ Hfit2) as (tables & Htab & Hsample);
        destruct (Hsample None (PyInt 1)) as (sorted & Hsorted & Hlen & Hrun);
        specialize (Hrun false); unfold run in Hrun; rewrite Hrun;
        clear Hrun Hsample
    end.
    cbn [self rng session log snd gt_zero normalize_verbose isinstance_int negb] in *.
    match goal with
    | |- context [fit_rounds n x _ b ?S ?W] =>
        destruct (IH W (net_weights (snd (fst (fst out)))) S) as
          (rs & w' & gw' & Hrun & Hrs & Hlog & Hch & Hgen' & Hfit' & Hb' & Hk' & Hc' & He')
    end.
    { exact Hfit2. }
    { exact Hb. }
    { now rewrite length_map. }
    unfold run in Hrun. rewrite Hrun.
    cbn [self rng session log k constraints epochs batch_size] in *.
    eexists (mkRound syn di dl w0 disc p _ gw (snd (fst (fst out))) _ _ :: rs), w', gw'.
    split; [reflexivity|]. split; [cbn [length]; now rewrite Hrs|].
    split.
    { rewrite Hlog. cbn [flat_map]. unfold round_events, refinement_events, refinement_network.
      fold out. cbn [r_syn_x r_disc_input r_disc_label r_disc_init r_disc r_prob_fake
                     r_gen_init r_gen_prev r_gen r_bn r_df].
      rewrite Hx, Hsyn, Hb.
      rewrite <- !app_assoc. cbn [app]. reflexivity. }
    split.
    { cbn [chained r_syn_x r_gen_prev r_df r_gen]. split; [reflexivity|].
      split; [reflexivity|]. eexists. split; [|exact Hch].
      exists sorted. split; [exact Hsorted|]. split; [exact Hlen | reflexivity]. }
    split.
    { constructor; [|exact Hgen'].
      exists (rng w), r2, s1, s2.
      cbn [r_syn_x r_disc_input r_disc_label r_disc_init r_disc r_prob_fake].
      rewrite Hx, Hsyn, Esub, Edisc, Epred. repeat split. }
    split; [exact Hfit'|]. split; [exact Hb'|]. split; [exact Hk'|].
    split; [exact Hc' | exact He'].
Qed.

(** ** Warmup and the whole of [fit] *)

Lemma warmup_run_spec (w : World) (d : DataUtils) (n_epochs : nat) :
  __d (self w) = Some d ->
  let out := warmup_run (self w) d n_epochs (rng w) in
  run (_warmup_run n_epochs) w
  = (Ok (fst (fst (fst out))),
     mkWorld (mkGANBLR (Some d) (Some (net_weights (snd (fst (fst out)))))
                       (batch_size (self w)) (epochs (self w)) (k (self w))
                       (Some (softmax_weight (constraint_positions d))))
             (snd out) fresh_session
             (log w ++ warmup_events (self w) d n_epochs (rng w))).
Proof.
  intros Hd out. unfold out, warmup_events, warmup_run, warmup_network.
  unfold _warmup_run. msimpl. rewrite Hd. msimpl.
  destruct (dense_init _ _ (sequential_init fresh_session) (rng w)) as [[w0 s1] r1]. msimpl.
  destruct (keras_fit _ _ _ _ _ s1 r1) as [[[h net1] s2] r2]. msimpl.
  rewrite Hd. now rewrite <- !app_assoc.
Qed.

Lemma fit_spec {laws : CollaboratorLaws collab} (x : DMatrix) (y : list Z)
    (kk b E we : nat) (verbose : PyValue) (w : World) :
  let d := DataUtils_init x y in
  let c := Some (softmax_weight (constraint_positions d)) in
  let g0 := fit_entry (self w) d kk b in
  DataUtils_wf d ->
  data_size d = length x ->
  exists bn0 df0 syn0 rs w' gw',
    run (fit x y kk b E we verbose) w = (Ok tt, w')
    /\ log w' = log w ++ warmup_events g0 d we (rng w)
                      ++ [EvForwardSample bn0 (data_size d) true df0]
                      ++ flat_map (round_events x d (Some kk) b c) rs
    /\ syn_x_of d df0 syn0
    /\ length rs = E
    /\ chained d syn0 (net_weights (snd (fst (fst (warmup_run g0 d we (rng w)))))) rs
    /\ Forall (round_genuine x d b) rs
    /\ fitted w' d gw'
    /\ self w' = mkGANBLR (Some d) (Some gw') (Some b) (epochs (self w)) (Some kk) c.
Proof.
  intros d c g0 Hwf Hsize.
  unfold fit. fold d. msimpl.
  match goal with
  | |- context [_warmup_run we ?W] =>
      pose proof (warmup_run_spec W d we eq_refl) as Hwarm;
      unfold run in Hwarm; rewrite Hwarm; clear Hwarm
  end.
  cbn [self rng session log]. fold (fit_entry (self w) d kk b). fold g0.
  set (out := warmup_run g0 d we (rng w)).
  set (gw0 := net_weights (snd (fst (fst out)))).
  match goal with
  | |- context [sample None false (PyInt 1) ?W] => set (W1 := W)
  end.
  assert (Hfit1 : fitted W1 d gw0).
  { unfold fitted, W1. cbn [self __d __gen_weights].
    split; [reflexivity|]. split; [reflexivity|]. split; [exact Hwf|].
    unfold gw0, out, warmup_run. apply keras_fit_shape.
    destruct Hwf as (_ & Hwidth & _). rewrite <- (Hwidth (k g0)).
    apply dense_init_shape. }
  destruct (sample_fitted W1 d gw0 Hfit1) as (tables & Htab & Hsample).
  destruct (Hsample None (PyInt 1)) as (sorted & Hsorted & Hlen & Hrun).
  specialize (Hrun false). unfold run in Hrun. rewrite Hrun. clear Hrun Hsample.
  cbn [gt_zero normalize_verbose isinstance_int negb] in *.
  match goal with
  | |- context [fit_rounds E x _ b ?S ?W] =>
      destruct (fit_rounds_spec x d b (eq_sym Hsize) E W gw0 S) as
        (rs & w' & gw' & Hrounds & Hrs & Hlog & Hch & Hgen & Hfit' & Hb' & Hk' & Hc' & He')
  end.
  { exact Hfit1. }
  { reflexivity. }
  { now rewrite length_map. }
  unfold run in Hrounds. rewrite Hrounds.
  cbn [self rng session log k constraints epochs batch_size] in *.
  eexists _, _, (map (@removelast Z) sorted), rs, w', gw'.
  split; [reflexivity|]. split.
  { rewrite Hlog. unfold W1. cbn [log rng self]. rewrite <- !app_assoc. reflexivity. }
  split; [exists sorted; split; [exact Hsorted | split; [exact Hlen | reflexivity]]|].
  split; [exact Hrs|]. split; [exact Hch|]. split; [exact Hgen|]. split; [exact Hfit'|].
  destruct Hfit' as (Hd' & Hg' & _).
  unfold W1, g0, fit_entry in Hb', Hk', Hc', He'.
  cbn [self batch_size k constraints epochs] in Hb', Hk', Hc', He'.
  destruct (self w') as [d1 g1 b1 e1 k1 c1].
  cbn [__d __gen_weights batch_size k constraints epochs] in *.
  subst d1 g1 b1 e1 k1 c1. reflexivity.
Qed.

(** ** Two runs compared *)

Lemma respects_bind {A B : Type} (Rpre Rmid Rok : World -> World -> Prop)
    (m : M A) (f : A -> M B) :
  respects Rpre Rmid m -> (forall a, respects Rmid Rok (f a)) ->
  respects Rpre Rok (bind m f).
Proof.
  intros Hm Hf w1 w2 H. destruct (Hm w1 w2 H) as [Hr Hw]. unfold bind.
  destruct (m w1) as [[a1|e1] w1'], (m w2) as [[a2|e2] w2']; cbn [fst snd] in *;
    try discriminate.
  - injection Hr as <-. exact (Hf a1 w1' w2' Hw).
  - injection Hr as <-. split; [reflexivity | exact Hw].
Qed.

Lemma respects_ret {A : Type} (R : World -> World -> Prop) (a : A) :
  respects R R (ret a).
Proof. intros w1 w2 H. cbn. auto. Qed.

Lemma respects_raise_seed {A : Type} (Rok : World -> World -> Prop) (e : PyError) :
  respects same_seed Rok (@raise _ A e).
Proof. intros w1 w2 H. cbn. auto. Qed.

Lemma respects_raise_state {A : Type} (Rok : World -> World -> Prop) (e : PyError) :
  respects same_state Rok (@raise _ A e).
Proof. intros w1 w2 [H _]. cbn. auto. Qed.

Lemma respects_of_option_seed {A : Type} (o : option A) (e : PyError) :
  respects same_seed same_seed (of_option o e).
Proof. destruct o; [apply respects_ret | apply respects_raise_seed]. Qed.

Lemma respects_of_option_state {A : Type} (o : option A) (e : PyError) :
  respects same_state same_state (of_option o e).
Proof. destruct o; [apply respects_ret | apply respects_raise_state]. Qed.

Lemma respects_lift_result {A : Type} (r : Result A) :
  respects same_state same_state (lift_result r).
Proof. intros w1 w2 H. unfold lift_result. cbn. destruct r; [auto | split; [reflexivity | apply H]]. Qed.

Lemma respects_get_self_seed : respects same_seed same_seed get_self.
Proof. intros w1 w2 H. cbn. split; [now rewrite (proj1 H) | exact H]. Qed.

Lemma respects_get_self_state : respects same_state same_state get_self.
Proof.
  intros w1 w2 H. cbn. split; [now rewrite (proj1 (proj1 H)) | exact H].
Qed.

Lemma respects_put_self_seed (g : GANBLR) : respects same_seed same_seed (put_self g).
Proof. intros w1 w2 [_ Hr]. cbn. split; [reflexivity | now split]. Qed.

Lemma respects_put_self_state (g : GANBLR) : respects same_state same_state (put_self g).
Proof. intros w1 w2 [[_ Hr] Hs]. cbn. split; [reflexivity | repeat split; assumption]. Qed.

Lemma respects_clear_session : respects same_seed same_state clear_session.
Proof. intros w1 w2 [Hs Hr]. cbn. split; [reflexivity | repeat split; assumption]. Qed.

Lemma respects_clear_session_state : respects same_state same_state clear_session.
Proof. intros w1 w2 [[Hs Hr] _]. cbn. split; [reflexivity | repeat split; assumption]. Qed.

Lemma respects_new_sequential : respects same_state same_state new_sequential.
Proof.
  intros w1 w2 [[Hs Hr] Hk]. unfold new_sequential. rewrite Hs, Hr, Hk. cbn.
  split; [reflexivity | repeat split].
Qed.

Lemma respects_add_dense (u i : nat) (a : Activation) (c : option Constraint) (l : Loss) :
  respects same_state same_state (add_dense u i a c l).
Proof.
  intros w1 w2 [[Hs Hr] Hk]. unfold add_dense. rewrite Hs, Hr, Hk.
  destruct (dense_init i u (session w2) (rng w2)) as [[w0 s'] r']. cbn.
  split; [reflexivity | repeat split].
Qed.

Lemma respects_build_network (u i : nat) (a : Activation) (c : option Constraint) (l : Loss) :
  respects same_state same_state (build_network u i a c l).
Proof.
  unfold build_network. eapply respects_bind; [apply respects_new_sequential|].
  intros _. apply respects_add_dense.
Qed.

Lemma respects_net_fit (net : Network) (x : DMatrix) (y : list Z) (b : option nat) (e : nat) :
  respects same_state same_state (net_fit net x y b e).
Proof.
  intros w1 w2 [[Hs Hr] Hk]. unfold net_fit. rewrite Hs, Hr, Hk.
  destruct (keras_fit net x y b e (session w2) (rng w2)) as [[[h n'] s'] r']. cbn.
  split; [reflexivity | repeat split].
Qed.

Lemma respects_net_predict (net : Network) (x : DMatrix) :
  respects same_state same_state (net_predict net x).
Proof.
  intros w1 w2 [[Hs Hr] Hk]. unfold net_predict. rewrite Hs, Hr, Hk.
  destruct (keras_predict net x (session w2)) as [p s']. cbn.
  split; [reflexivity | repeat split].
Qed.

Lemma respects_subsample (x : DMatrix) (y : list Z) (frac : R) :
  respects same_state same_state (subsample x y frac).
Proof.
  intros w1 w2 [[Hs Hr] Hk]. unfold subsample. rewrite Hs, Hr, Hk.
  destruct (utils_sample x y frac (rng w2)) as [[x' y'] r']. cbn.
  split; [reflexivity | repeat split].
Qed.

Lemma respects_forward_sample (bn : BayesianNetwork) (n : nat) (sp : bool) :
  respects same_state same_state (bn_forward_sample bn n sp).
Proof.
  intros w1 w2 [[Hs Hr] Hk]. unfold bn_forward_sample. rewrite Hs, Hr, Hk.
  destruct (forward_sample bn n sp (rng w2)) as [df r']. cbn.
  split; [reflexivity | repeat split].
Qed.

Lemma respects_mapM {A B : Type} (f : A -> M B) (l : list A) :
  (forall a, respects same_state same_state (f a)) ->
  respects same_state same_state (mapM f l).
Proof.
  intros Hf. induction l as [|a l IH]; cbn [mapM]; [apply respects_ret|].
  eapply respects_bind; [apply Hf|]. intros b.
  eapply respects_bind; [apply IH|]. intros bs. apply respects_ret.
Qed.

Ltac respects_step :=
  cbv beta;
  match goal with
  | |- respects _ _ (bind _ _) => eapply respects_bind; [ | intro ]
  | |- respects _ _ (match ?x with (_, _) => _ end) => destruct x
  | |- respects _ _ (if ?b then _ else _) => destruct b
  | |- respects _ _ (ret _) => apply respects_ret
  | |- respects same_state _ (of_option _ _) => apply respects_of_option_state
  | |- respects same_seed _ (of_option _ _) => apply respects_of_option_seed
  | |- respects same_state _ get_self => apply respects_get_self_state
  | |- respects same_seed _ get_self => apply respects_get_self_seed
  | |- respects same_state _ (put_self _) => apply respects_put_self_state
  | |- respects same_seed _ (put_self _) => apply respects_put_self_seed
  | |- respects same_state _ clear_session => apply respects_clear_session_state
  | |- respects same_seed _ clear_session => apply respects_clear_session
  | |- respects _ _ (build_network _ _ _ _ _) => apply respects_build_network
  | |- respects _ _ new_sequential => apply respects_new_sequential
  | |- respects _ _ (add_dense _ _ _ _ _) => apply respects_add_dense
  | |- respects _ _ (net_fit _ _ _ _ _) => apply respects_net_fit
  | |- respects _ _ (net_predict _ _) => apply respects_net_predict
  | |- respects _ _ (subsample _ _ _) => apply respects_subsample
  | |- respects _ _ (bn_forward_sample _ _ _) => apply respects_forward_sample
  | |- respects _ _ (lift_result _) => apply respects_lift_result
  | |- respects _ _ (mapM _ _) => apply respects_mapM; intro
  end.

Ltac respects_auto :=
  unfold set___d, set___gen_weights, set_batch_size, set_k, set_constraints, get_lr;
  repeat respects_step.

Lemma respects_sample (size : option nat) (ohe : bool) (verbose : PyValue) :
  respects same_state same_state (sample size ohe verbose).
Proof. unfold sample. respects_auto. Qed.

Lemma respects_discrim : respects same_state same_state _discrim.
Proof. unfold _discrim. respects_auto. Qed.

(** A refinement does not read the Keras state it finds: it clears it
    before it builds its network. *)
Lemma respects_run_generator (loss : R) :
  respects same_seed same_state (_run_generator loss).
Proof. unfold _run_generator. respects_auto. Qed.

Lemma respects_run_generator_state (loss : R) :
  respects same_state same_state (_run_generator loss).
Proof. unfold _run_generator. respects_auto. Qed.


Lemma respects_fit_rounds (n : nat) (x : DMatrix) (labels : list Z) (b : nat) :
  forall syn, respects same_state same_state (fit_rounds n x labels b syn).
Proof.
  induction n as [|n IH]; intros syn; cbn [fit_rounds]; [apply respects_ret|].
  respects_auto; [apply respects_discrim | apply respects_run_generator_state
                 | apply respects_sample | apply IH].
Qed.


(** ** Which exceptions a call can raise *)

Lemma never_bind {A B : Type} (e : PyError) (m : M A) (f : A -> M B) :
  never_raises e m -> (forall a, never_raises e (f a)) -> never_raises e (bind m f).
Proof.
  intros Hm Hf w. unfold bind. specialize (Hm w).
  destruct (m w) as [[a|e'] w']; cbn [fst] in *; [apply Hf | congruence].
Qed.

Lemma never_ret {A : Type} (e : PyError) (a : A) : never_raises e (ret a).
Proof. intros w. discriminate. Qed.

Lemma never_of_option {A : Type} (e e' : PyError) (o : option A) :
  e' <> e -> never_raises e (of_option o e').
Proof. intros H w. destruct o; cbn; [discriminate | congruence]. Qed.

Lemma never_mapM {A B : Type} (e : PyError) (f : A -> M B) (l : list A) :
  (forall a, never_raises e (f a)) -> never_raises e (mapM f l).
Proof.
  intros Hf. induction l as [|a l IH]; cbn [mapM]; [apply never_ret|].
  apply never_bind; [apply Hf|]. intros b.
  apply never_bind; [apply IH|]. intros bs. apply never_ret.
Qed.

Lemma never_df_getitem (df : DataFrame) (names : list string) :
  never_raises InvalidArgument (lift_result (df_getitem df names)).
Proof.
  intros w. unfold lift_result, df_getitem. cbn [fst].
  destruct (collect _); discriminate.
Qed.

Lemma never_accuracy_score (y p : list Z) :
  never_raises InvalidArgument (lift_result (accuracy_score y p)).
Proof.
  intros w. unfold lift_result, accuracy_score. cbn [fst].
  destruct (_ =? _)%nat; discriminate.
Qed.

Ltac never_prim :=
  let w := fresh "w" in
  intros w;
  cbv beta delta [get_self emit bn_forward_sample estimator_fit estimator_predict bind ret
                  of_outcome];
  cbv zeta;
  repeat match goal with
         | |- context [let '(_, _) := ?x in _] => destruct x
         | |- context [match ?x with inl _ => _ | inr _ => _ end] => destruct x
         end;
  cbn [fst]; discriminate.

Ltac never_step :=
  cbv beta;
  match goal with
  | |- never_raises _ (bind _ _) => apply never_bind; [ | intro ]
  | |- never_raises _ (match ?x with (_, _) => _ end) => destruct x
  | |- never_raises _ (if ?b then _ else _) => destruct b
  | |- never_raises _ (ret _) => apply never_ret
  | |- never_raises _ (of_option _ _) => apply never_of_option; discriminate
  | |- never_raises _ (mapM _ _) => apply never_mapM; intro
  | |- never_raises _ (lift_result (df_getitem _ _)) => apply never_df_getitem
  | |- never_raises _ (lift_result (accuracy_score _ _)) => apply never_accuracy_score
  | |- never_raises _ get_self => never_prim
  | |- never_raises _ (bn_forward_sample _ _ _) => never_prim
  | |- never_raises _ (estimator_fit _ _ _) => never_prim
  | |- never_raises _ (estimator_predict _ _) => never_prim
  end.

Lemma sample_never_invalid (size : option nat) (ohe : bool) (verbose : PyValue) :
  never_raises InvalidArgument (sample size ohe verbose).
Proof. unfold sample. repeat never_step. Qed.

Lemma evaluate_with_never_invalid (x : DMatrix) (y : list Z) (m : Estimator) :
  never_raises InvalidArgument (evaluate_with x y m).
Proof.
  unfold evaluate_with. apply never_bind; [apply sample_never_invalid|]. intros sd.
  apply never_bind; [never_prim|]. intros f.
  apply never_bind; [|intros p; apply never_accuracy_score].
  destruct m as [c|n c|m]; try never_prim.
  destruct (hasattr m "predict"); [never_prim | intros w; discriminate].
Qed.

Lemma evaluate_rejects (x : DMatrix) (y : list Z) (model pre : PyValue) (w : World) :
  accepted_model model = false ->
  run (evaluate x y model pre) w = (Raise InvalidArgument, w).
Proof.
  unfold accepted_model. intros H.
  apply orb_false_elim in H as [H Hfit]. apply orb_false_elim in H as [H Hmlp].
  apply orb_false_elim in H as [Hlr Hrf].
  unfold run, evaluate. now rewrite Hlr, Hrf, Hmlp, Hfit.
Qed.

Lemma evaluate_accepts (x : DMatrix) (y : list Z) (model pre : PyValue) (w : World) :
  accepted_model model = true ->
  exists m, run (evaluate x y model pre) w = evaluate_with x y m w.
Proof.
  unfold accepted_model, run, evaluate. intros H.
  destruct (py_eq_str model "lr"); [eexists; reflexivity|].
  destruct (py_eq_str model "rf"); [eexists; reflexivity|].
  destruct (py_eq_str model "mlp"); [eexists; reflexivity|].
  destruct (hasattr model "fit"); [eexists; reflexivity | discriminate].
Qed.

Lemma accuracy_score_bounds (y p : list Z) (acc : R) :
  accuracy_score y p = Ok acc -> 0 <= acc <= 1.
Proof.
  unfold accuracy_score. destruct (Nat.eqb_spec (length y) (length p)) as [Hl|]; [|discriminate].
  intros [= <-].
  set (hits := length (filter (fun q => (fst q =? snd q)%Z) (combine y p))).
  assert (Hle : (hits <= length y)%nat).
  { unfold hits. etransitivity; [apply filter_length_le|]. rewrite length_combine. lia. }
  destruct (length y) as [|n] eqn:En.
  - replace hits with 0%nat by lia. cbn. lra.
  - assert (0 < INR (S n)) by (apply lt_0_INR; lia).
    assert (0 <= INR hits) by apply pos_INR.
    assert (INR hits <= INR (S n)) by (apply le_INR; lia).
    split.
    + apply Rmult_le_pos; [assumption | left; now apply Rinv_0_lt_compat].
    + apply (Rmult_le_reg_r (INR (S n))); [assumption|]. field_simplify; lra.
Qed.

(** ** [evaluate] once the classifier is chosen *)

Lemma evaluate_estimator (x : DMatrix) (y : list Z) (model pre : PyValue) (w : World)
    (est : Estimator) :
  estimator_of model = Some est ->
  run (evaluate x y model pre) w = evaluate_with x y est w.
Proof.
  unfold estimator_of, run, evaluate. intros H.
  destruct (py_eq_str model "lr"); [now injection H as <-|].
  destruct (py_eq_str model "rf"); [now injection H as <-|].
  destruct (py_eq_str model "mlp"); [now injection H as <-|].
  destruct (hasattr model "fit"); [now injection H as <- | discriminate].
Qed.

Lemma estimator_of_accepted (model : PyValue) :
  accepted_model model = true -> exists est, estimator_of model = Some est.
Proof.
  unfold accepted_model, estimator_of. intros H.
  destruct (py_eq_str model "lr"); [eexists; reflexivity|].
  destruct (py_eq_str model "rf"); [eexists; reflexivity|].
  destruct (py_eq_str model "mlp"); [eexists; reflexivity|].
  destruct (hasattr model "fit"); [eexists; reflexivity | discriminate].
Qed.

Lemma evaluate_with_sampled (x : DMatrix) (y : list Z) (est : Estimator) (w w1 : World)
    (X : DMatrix) (ys : list Z) :
  run (sample None false (PyInt 1)) w = (Ok (X, ys), w1) ->
  evaluate_with x y est w
  = (train_and_score est X ys (rng w1) x y,
     mkWorld (self w1) (snd (sklearn_fit est X ys (rng w1))) (session w1)
             (log w1 ++ train_and_score_events est X ys (rng w1) x)).
Proof.
  intros Hrun. unfold run in Hrun. unfold evaluate_with.
  rewrite (bind_ok _ _ _ _ _ Hrun). cbn [fst snd].
  unfold train_and_score, train_and_score_events.
  unfold estimator_fit at 1. unfold bind at 1.
  destruct (sklearn_fit est X ys (rng w1)) as [[f|cls] r']; cbn [fst snd of_outcome];
    [|reflexivity].
  destruct est as [c|n c|m]; cbn [has_predict];
    try (unfold bind, estimator_predict, emit, lift_result, bind;
         cbn [self rng session log];
         destruct (sklearn_predict f x) as [pred|cls]; cbn [of_outcome];
         rewrite <- app_assoc; reflexivity).
  destruct (hasattr m "predict").
  - unfold bind, estimator_predict, emit, lift_result, bind. cbn [self rng session log].
    destruct (sklearn_predict f x) as [pred|cls]; cbn [of_outcome];
      rewrite <- app_assoc; reflexivity.
  - reflexivity.
Qed.

Lemma evaluate_with_fitted {laws : CollaboratorLaws collab} (x : DMatrix) (y : list Z)
    (est : Estimator) (w : World) (d : DataUtils) (gw : Weights) :
  fitted w d gw ->
  exists X ys w1,
    run (sample None false (PyInt 1)) w = (Ok (X, ys), w1)
    /\ length X = data_size d
    /\ length ys = data_size d
    /\ evaluate_with x y est w
       = (train_and_score est X ys (rng w1) x y,
          mkWorld (self w) (snd (sklearn_fit est X ys (rng w1))) (session w)
                  (log w1 ++ train_and_score_events est X ys (rng w1) x)).
Proof.
  intros Hfit. destruct (sample_fitted w d gw Hfit) as (tables & _ & Hs).
  destruct (Hs None (PyInt 1)) as (sorted & _ & Hlen & Hrun).
  specialize (Hrun false). cbv beta iota in Hrun.
  eexists _, _, _. split; [exact Hrun|]. split; [now rewrite length_map|].
  split; [now rewrite length_map|].
  now rewrite (evaluate_with_sampled x y est _ _ _ _ Hrun).
Qed.

Lemma train_and_score_bounds (est : Estimator) (X : DMatrix) (ys : list Z) (r : Rng)
    (x : DMatrix) (y : list Z) (acc : R) :
  train_and_score est X ys r x y = Ok acc -> 0 <= acc <= 1.
Proof.
  unfold train_and_score. destruct (fst (sklearn_fit est X ys r)) as [f|cls]; [|discriminate].
  destruct (has_predict est); [|discriminate].
  destruct (sklearn_predict f x) as [pred|cls]; [|discriminate].
  apply accuracy_score_bounds.
Qed.

Lemma train_and_score_returns {laws : CollaboratorLaws collab} (est : Estimator)
    (X : DMatrix) (ys : list Z) (r : Rng) (x : DMatrix) (y : list Z) (f : Fitted)
    (pred : list Z) :
  fst (sklearn_fit est X ys r) = inl f -> has_predict est = true ->
  sklearn_predict f x = inl pred -> length y = length x ->
  exists acc, train_and_score est X ys r x y = Ok acc
              /\ accuracy_score y pred = Ok acc /\ 0 <= acc <= 1.
Proof.
  intros Hf Hp Hpred Hlen. unfold train_and_score. rewrite Hf, Hp, Hpred.
  destruct (accuracy_score y pred) as [acc|e] eqn:Ea.
  - exists acc. split; [reflexivity|]. split; [reflexivity|].
    exact (accuracy_score_bounds _ _ _ Ea).
  - unfold accuracy_score in Ea.
    rewrite (sklearn_predict_length f x pred Hpred), Hlen, Nat.eqb_refl in Ea. discriminate.
Qed.

(** * The claims *)

(** C1. The conditional probability tables that [sample] reconstructs from
    the generator weights are column-stochastic: for every feature node the
    reconstruction succeeds, the table has one column per (class, parent
    combination), and each column sums to 1 over the feature's own values. *)
Theorem reconstructed_cpd_column_stochastic (d : DataUtils) (gen_weights : Weights) :
  encoder_wf (_kdbe d) = true ->
  kernel_shape (list_sum (constraints_ (_kdbe d))) (num_classes d) gen_weights ->
  exists tables,
    full_cpd_probs_of (num_classes d) (_kdbe d) (kernel gen_weights) = Some tables
    /\ Forall2 (fun have_value table =>
                 length (sum_axis0 table)
                 = (num_classes d * length (have_value_rows have_value))%nat
                 /\ Forall (fun s => s = 1) (sum_axis0 table))
              (have_value_idxs_ (_kdbe d)) tables.
Proof.
  intros Hwf [Hlen Hrows].
  exact (full_cpd_probs_stochastic (num_classes d) (_kdbe d) (kernel gen_weights)
           Hwf Hlen Hrows).
Qed.

(** C2. In every adversarial round of [fit] the loss the generator
    refinement is compiled with is the mean of [-ln (1 - p)] over the
    predictions [p] of that round's trained discriminator for the real rows
    [x]; the discriminator was trained on the subsample of the stacked rows,
    and is applied to [x] only. *)
Theorem refinement_loss_from_real_rows {laws : CollaboratorLaws collab}
    (x : DMatrix) (y : list Z) (kk b E we : nat) (verbose : PyValue) (w : World) :
  let d := DataUtils_init x y in
  let c := Some (softmax_weight (constraint_positions d)) in
  DataUtils_wf d ->
  data_size d = length x ->
  exists prefix rounds w',
    run (fit x y kk b E we verbose) w = (Ok tt, w')
    /\ log w' = log w ++ prefix ++ flat_map (round_events x d (Some kk) b c) rounds
    /\ length rounds = E
    /\ Forall (fun r =>
                 round_genuine x d b r
                 /\ forall net X Y batch n trained loss,
                      In (EvFit net X Y batch n trained) (round_events x d (Some kk) b c r) ->
                      net_loss net = elr_loss_of loss ->
                      trained = r_gen r
                      /\ loss = np_mean (map (fun p => - ln (1 - p)) (r_prob_fake r)))
              rounds.
Proof.
  intros d c Hwf Hsize.
  destruct (fit_spec x y kk b E we verbose w Hwf Hsize)
    as (bn0 & df0 & syn0 & rs & w' & gw' & Hrun & Hlog & _ & Hrs & _ & Hgen & _).
  exists (warmup_events (fit_entry (self w) (DataUtils_init x y) kk b)
                        (DataUtils_init x y) we (rng w)
          ++ [EvForwardSample bn0 (data_size d) true df0]), rs, w'.
  split; [exact Hrun|]. split; [rewrite Hlog; now rewrite <- !app_assoc|].
  split; [exact Hrs|].
  apply Forall_forall. intros r Hr. rewrite Forall_forall in Hgen.
  split; [now apply Hgen|].
  intros net X Y batch n trained loss Hin Hloss.
  unfold round_events in Hin. cbn [In] in Hin.
  repeat match goal with
         | H : _ \/ _ |- _ => destruct H as [H|H]
         | H : False |- _ => destruct H
         end; try discriminate; injection Hin as <- <- <- <- <- <-;
    cbn [net_loss] in Hloss; try discriminate.
  injection Hloss as <-. split; reflexivity.
Qed.

(** C3. [fit] runs the warmup, draws one initial sample, and then performs
    exactly [epochs] adversarial rounds; each round makes these calls in
    this order: subsample 80% of the real rows (label 1) stacked on the
    synthetic rows of the preceding sample (label 0), build a new
    discriminator, train it one epoch on the subsample, score the real
    rows, rebuild and refine the generator one epoch under the resulting
    loss, and sample the synthetic rows of the next round. *)
Theorem fit_performs_rounds {laws : CollaboratorLaws collab}
    (x : DMatrix) (y : list Z) (kk b E we : nat) (verbose : PyValue) (w : World) :
  let d := DataUtils_init x y in
  let c := Some (softmax_weight (constraint_positions d)) in
  let g0 := fit_entry (self w) d kk b in
  DataUtils_wf d ->
  data_size d = length x ->
  exists bn0 df0 syn0 rounds w',
    run (fit x y kk b E we verbose) w = (Ok tt, w')
    /\ log w' = log w ++ warmup_events g0 d we (rng w)
                      ++ [EvForwardSample bn0 (data_size d) true df0]
                      ++ flat_map (round_events x d (Some kk) b c) rounds
    /\ syn_x_of d df0 syn0
    /\ length rounds = E
    /\ chained d syn0 (net_weights (snd (fst (fst (warmup_run g0 d we (rng w)))))) rounds.
Proof.
  intros d c g0 Hwf Hsize.
  destruct (fit_spec x y kk b E we verbose w Hwf Hsize)
    as (bn0 & df0 & syn0 & rs & w' & gw' & Hrun & Hlog & Hsyn & Hrs & Hch & _).
  exists bn0, df0, syn0, rs, w'. repeat split; assumption.
Qed.

(** C4. On a fitted model [sample(size=N)] returns [X] with [N] rows and [y]
    with [N] entries; without a size the number of rows is the size of the
    training set; with [ohe=True] it returns the one-hot encoding of the
    same [X], with as many rows, and the same [y]. *)
Theorem sample_returns_requested_rows {laws : CollaboratorLaws collab}
    (w : World) (d : DataUtils) (gw : Weights) (size : option nat) (verbose : PyValue) :
  fitted w d gw ->
  let n := match size with None => data_size d | Some N => N end in
  exists X y w',
    run (sample size false verbose) w = (Ok (X, y), w')
    /\ length X = n /\ length y = n
    /\ run (sample size true verbose) w = (Ok (OneHotEncoder_fit_transform X, y), w')
    /\ length (OneHotEncoder_fit_transform X) = n.
Proof.
  intros Hfit n.
  destruct (sample_fitted w d gw Hfit) as (tables & _ & Hsample).
  destruct (Hsample size verbose) as (sorted & _ & Hlen & Hrun).
  eexists _, _, _. split; [exact (Hrun false)|].
  split; [now rewrite length_map|]. split; [now rewrite length_map|].
  split; [exact (Hrun true)|].
  unfold OneHotEncoder_fit_transform. now rewrite !length_map.
Qed.

(** C5. A generator refinement builds a new network with a new optimizer,
    loads the stored weights, trains it one epoch from a cleared Keras
    state, stores the trained weights and clears the Keras state again; of
    the model's fields only the stored weights change, and the outcome does
    not depend on the Keras state the refinement finds. *)
Theorem refinement_carries_only_weights (w : World) (d : DataUtils) (gw : Weights)
    (loss : R) :
  __d (self w) = Some d ->
  __gen_weights (self w) = Some gw ->
  let net := refinement_network (self w) d gw loss in
  let out := refinement_run (self w) d gw loss (rng w) in
  let w' := snd (run (_run_generator loss) w) in
  net_optimizer net = adam
  /\ net_weights net = gw
  /\ fst (run (_run_generator loss) w) = Ok (fst (fst (fst out)))
  /\ log w' = log w ++ refinement_events (self w) d gw loss (rng w)
  /\ __gen_weights (self w') = Some (net_weights (snd (fst (fst out))))
  /\ __d (self w') = __d (self w)
  /\ batch_size (self w') = batch_size (self w)
  /\ epochs (self w') = epochs (self w)
  /\ k (self w') = k (self w)
  /\ constraints (self w') = constraints (self w)
  /\ session w' = fresh_session
  /\ forall w2, same_seed w w2 ->
       fst (run (_run_generator loss) w2) = fst (run (_run_generator loss) w)
       /\ self (snd (run (_run_generator loss) w2)) = self w'
       /\ rng (snd (run (_run_generator loss) w2)) = rng w'.
Proof.
  intros Hd Hg net out w'. unfold w'.
  rewrite (run_generator_spec w d gw loss Hd Hg). cbn [fst snd self log session
    __d __gen_weights batch_size epochs k constraints].
  repeat (split; [first [reflexivity | now rewrite Hd]|]).
  intros w2 Hsame.
  destruct (respects_run_generator loss w w2 Hsame) as [Hres Hw].
  unfold run in *. rewrite <- Hres.
  pose proof (run_generator_spec w d gw loss Hd Hg) as Hspec. unfold run in Hspec.
  rewrite Hspec in Hw |- *. cbn [fst snd] in Hw |- *.
  destruct Hw as [[Hs Hr] _]. cbn [self rng] in Hs, Hr.
  split; [reflexivity|]. split; [now rewrite <- Hs | now rewrite <- Hr].
Qed.

(** C6. [evaluate] raises the invalid-argument error exactly when [model] is
    none of ['lr'], ['rf'], ['mlp'] and has no [fit] attribute, as for
    ['unknown_model'] and for [42]; it then leaves the object, the random
    state and the log untouched.  For ['lr'] on a fitted model it draws the
    synthetic sample, and its result is that of fitting the scaled logistic
    regression on the sample, predicting the real rows and scoring them
    against the real labels: an exception of [fit] or [predict] ends the
    call, and when both return and [y] has one label per row of [x] the
    result is the accuracy of those predictions, between 0 and 1. *)
Theorem evaluate_invalid_argument {laws : CollaboratorLaws collab}
    (x : DMatrix) (y : list Z) (model pre : PyValue) (w : World) :
  (fst (run (evaluate x y model pre) w) = Raise InvalidArgument
   <-> accepted_model model = false)
  /\ (accepted_model model = false -> snd (run (evaluate x y model pre) w) = w)
  /\ run (evaluate x y (PyStr "unknown_model") pre) w = (Raise InvalidArgument, w)
  /\ run (evaluate x y (PyInt 42) pre) w = (Raise InvalidArgument, w)
  /\ (forall d gw, fitted w d gw ->
      let lr := ScaledPipeline "lr" LogisticRegression in
      exists X ys w1,
        run (sample None false (PyInt 1)) w = (Ok (X, ys), w1)
        /\ fst (run (evaluate x y (PyStr "lr") pre) w)
           = train_and_score lr X ys (rng w1) x y
        /\ forall f pred,
             fst (sklearn_fit lr X ys (rng w1)) = inl f ->
             sklearn_predict f x = inl pred ->
             length y = length x ->
             exists acc,
               fst (run (evaluate x y (PyStr "lr") pre) w) = Ok acc
               /\ accuracy_score y pred = Ok acc
               /\ 0 <= acc <= 1).
Proof.
  split; [split|].
  - intros Hraise. destruct (accepted_model model) eqn:Hacc; [|reflexivity].
    destruct (evaluate_accepts x y model pre w Hacc) as [m Hm].
    rewrite Hm in Hraise. now apply evaluate_with_never_invalid in Hraise.
  - intros Hacc. now rewrite evaluate_rejects.
  - split; [intros Hacc; now rewrite evaluate_rejects|].
    split; [now apply evaluate_rejects|]. split; [now apply evaluate_rejects|].
    intros d gw Hfit lr.
    destruct (evaluate_with_fitted x y lr w d gw Hfit) as (X & ys & w1 & Hs & _ & _ & He).
    rewrite <- (evaluate_estimator x y (PyStr "lr") pre w lr eq_refl) in He.
    exists X, ys, w1. split; [exact Hs|]. rewrite He. cbn [fst].
    split; [reflexivity|]. intros f pred Hf Hpred Hlen.
    exact (train_and_score_returns lr X ys (rng w1) x y f pred Hf eq_refl Hpred Hlen).
Qed.


(** C9. The outcome of [fit], result and final state, does not depend on
    [verbose]. *)
Theorem fit_independent_of_verbose (x : DMatrix) (y : list Z) (kk b E we : nat)
    (verbose1 verbose2 : PyValue) (w : World) :
  run (fit x y kk b E we verbose1) w = run (fit x y kk b E we verbose2) w.
Proof. reflexivity. Qed.

(** C7. With [loss = 0] the Elastic Softmax Loss is categorical
    cross-entropy, on every batch of one-hot labels and predicted class
    probabilities and for every stabilizing term. *)
Theorem elr_loss_zero_is_crossentropy (stabilizer : list R -> list R -> R)
    (batch : list (list R * list R)) :
  on_batch (elr_loss stabilizer 0) batch = on_batch categorical_crossentropy_fn batch.
Proof.
  unfold on_batch. apply map_ext. intros [y_true y_pred]. unfold elr_loss. cbn [fst snd].
  ring.
Qed.

(** * Further properties of the model *)

(** ** What a call leaves as it was, in every outcome *)

Lemma preserves_bind {A B T : Type} (proj : World -> T) (m : M A) (f : A -> M B) :
  preserves proj m -> (forall a, preserves proj (f a)) -> preserves proj (bind m f).
Proof.
  intros Hm Hf w. unfold bind. specialize (Hm w).
  destruct (m w) as [[a|e] w']; cbn [snd] in *; [|exact Hm].
  now rewrite (Hf a w').
Qed.

Lemma preserves_mapM {A B T : Type} (proj : World -> T) (f : A -> M B) (l : list A) :
  (forall a, preserves proj (f a)) -> preserves proj (mapM f l).
Proof.
  intros Hf. induction l as [|a l IH]; cbn [mapM]; [intros w; reflexivity|].
  apply preserves_bind; [apply Hf|]. intros b.
  apply preserves_bind; [apply IH|]. intros bs w. reflexivity.
Qed.

Lemma preserves_of_option {A T : Type} (proj : World -> T) (o : option A) (e : PyError) :
  preserves proj (of_option o e).
Proof. intros w. destruct o; reflexivity. Qed.

Ltac preserves_prim :=
  let w := fresh "w" in
  intros w;
  unfold estimator_predict, set___d, set___gen_weights, set_batch_size, set_k,
    set_constraints, lift_result, bn_forward_sample, estimator_fit, clear_session,
    build_network, new_sequential, add_dense, net_fit, net_predict, subsample, bind,
    get_self, put_self, ret, raise, emit;
  cbv beta iota zeta;
  repeat match goal with
         | |- context [let '(_, _) := ?x in _] => destruct x
         end;
  reflexivity.

Ltac preserves_step :=
  cbv beta;
  match goal with
  | |- preserves _ (bind _ _) => apply preserves_bind; [ | intro ]
  | |- preserves _ (match ?x with _ => _ end) => destruct x
  | |- preserves _ (if ?b then _ else _) => destruct b
  | |- preserves _ (of_option _ _) => apply preserves_of_option
  | |- preserves _ (mapM _ _) => apply preserves_mapM; intro
  | |- preserves _ _ => preserves_prim
  end.

Lemma sample_preserves_object (size : option nat) (ohe : bool) (verbose : PyValue) :
  preserves object_and_session (sample size ohe verbose).
Proof. unfold sample. repeat preserves_step. Qed.

(** X4. [sample] is read-only: whatever the arguments and the state of the
    object, and whether it returns or raises, it changes no field of the
    object and leaves the Keras global state alone. *)
Theorem sample_read_only (size : option nat) (ohe : bool) (verbose : PyValue) (w : World) :
  self (snd (run (sample size ohe verbose) w)) = self w
  /\ session (snd (run (sample size ohe verbose) w)) = session w.
Proof.
  pose proof (sample_preserves_object size ohe verbose w) as H.
  unfold object_and_session in H. injection H as Hs Hk. split; assumption.
Qed.

(** X5. [evaluate] never changes the model: whatever the classifier argument
    and whether it returns or raises, the fields of the object and the Keras
    global state are as before. *)
Theorem evaluate_read_only (x : DMatrix) (y : list Z) (model pre : PyValue) (w : World) :
  self (snd (run (evaluate x y model pre) w)) = self w
  /\ session (snd (run (evaluate x y model pre) w)) = session w.
Proof.
  assert (H : preserves object_and_session (evaluate x y model pre)).
  { unfold evaluate.
    apply preserves_bind; [repeat preserves_step|]. intros est.
    apply preserves_bind; [apply sample_preserves_object|]. intros sd.
    repeat preserves_step. }
  specialize (H w). unfold object_and_session in H. injection H as Hs Hk.
  split; assumption.
Qed.

Lemma warmup_run_preserves (n : nat) : preserves settings (_warmup_run n).
Proof. unfold _warmup_run, get_lr. repeat preserves_step. Qed.

Lemma run_generator_preserves (loss : R) :
  preserves settings_and_constraints (_run_generator loss).
Proof. unfold _run_generator. repeat preserves_step. Qed.

Lemma discrim_preserves : preserves settings_and_constraints _discrim.
Proof. unfold _discrim. repeat preserves_step. Qed.

Lemma sample_preserves_settings (size : option nat) (ohe : bool) (verbose : PyValue) :
  preserves settings_and_constraints (sample size ohe verbose).
Proof.
  intros w. pose proof (sample_preserves_object size ohe verbose w) as H.
  unfold object_and_session in H. injection H as Hs _.
  unfold settings_and_constraints, settings. now rewrite Hs.
Qed.

Lemma fit_rounds_preserves (n : nat) (x : DMatrix) (labels : list Z) (b : nat) :
  forall syn, preserves settings_and_constraints (fit_rounds n x labels b syn).
Proof.
  induction n as [|n IH]; intros syn; cbn [fit_rounds]; [intros w; reflexivity|].
  apply preserves_bind; [preserves_prim|]. intros [di dl].
  apply preserves_bind; [apply discrim_preserves|]. intros disc.
  apply preserves_bind; [preserves_prim|]. intros [h disc'].
  apply preserves_bind; [preserves_prim|]. intros p.
  apply preserves_bind; [apply run_generator_preserves|]. intros _.
  apply preserves_bind; [apply sample_preserves_settings|]. intros [syn' ys].
  apply IH.
Qed.

Lemma preserves_weaken {A : Type} (m : M A) :
  preserves settings_and_constraints m -> preserves settings m.
Proof.
  intros H w. specialize (H w). unfold settings_and_constraints in H.
  apply (f_equal fst) in H. exact H.
Qed.

(** X6. [fit] stores its arguments first and nothing later touches them: in
    every outcome, also when a later step raises, the object holds the data
    of [(x, y)], [k] and [batch_size]; the field [epochs] is never assigned
    and keeps the value it had. *)
Theorem fit_stores_arguments (x : DMatrix) (y : list Z) (kk b E we : nat)
    (verbose : PyValue) (w : World) :
  let w' := snd (run (fit x y kk b E we verbose) w) in
  __d (self w') = Some (DataUtils_init x y)
  /\ k (self w') = Some kk
  /\ batch_size (self w') = Some b
  /\ epochs (self w') = epochs (self w).
Proof.
  cbv zeta. unfold run, fit.
  erewrite bind_ok by reflexivity. erewrite bind_ok by reflexivity.
  erewrite bind_ok by reflexivity.
  match goal with
  | |- context [snd (?m ?w0)] =>
      assert (H : settings (snd (m w0)) = settings w0)
  end.
  { apply preserves_bind; [apply warmup_run_preserves|]. intros _.
    apply preserves_bind; [apply preserves_weaken, sample_preserves_settings|].
    intros [syn ys]. apply preserves_weaken, fit_rounds_preserves. }
  unfold settings in H. cbn [self __d batch_size epochs k] in H.
  injection H as Hd Hb He Hk. repeat split; assumption.
Qed.

(** ** When [sample] fails and what it reads *)

Lemma stateless_ret {A : Type} (a : A) : stateless (ret a).
Proof. now exists (Ok a). Qed.

Lemma stateless_of_option {A : Type} (o : option A) (e : PyError) :
  stateless (of_option o e).
Proof. destruct o; [now exists (Ok a) | now exists (Raise e)]. Qed.

Lemma stateless_bind {A B : Type} (m : M A) (f : A -> M B) :
  stateless m -> (forall a, stateless (f a)) -> stateless (bind m f).
Proof.
  intros [[a|e] Hm] Hf.
  - destruct (Hf a) as [r Hr]. exists r. intros w. unfold bind. now rewrite Hm, Hr.
  - exists (Raise e). intros w. unfold bind. now rewrite Hm.
Qed.

Lemma stateless_mapM {A B : Type} (f : A -> M B) (l : list A) :
  (forall a, stateless (f a)) -> stateless (mapM f l).
Proof.
  intros Hf. induction l as [|a l IH]; cbn [mapM]; [apply stateless_ret|].
  apply stateless_bind; [apply Hf|]. intros b.
  apply stateless_bind; [apply IH|]. intros bs. apply stateless_ret.
Qed.

Lemma feature_cpds_stateless (d : DataUtils) (tables : list (list (list R))) :
  stateless (feature_cpds_of d tables).
Proof.
  unfold feature_cpds_of. apply stateless_mapM. intros [[name evs] table].
  apply stateless_bind; [apply stateless_of_option|]. intros card.
  apply stateless_bind; [|intros; apply stateless_ret].
  apply stateless_mapM. intros e. apply stateless_of_option.
Qed.

Lemma feature_cpds_never_key_error (d : DataUtils) (tables : list (list (list R))) :
  never_raises KeyError (feature_cpds_of d tables).
Proof. unfold feature_cpds_of. repeat never_step. Qed.

Lemma sample_without_data (size : option nat) (ohe : bool) (verbose : PyValue) (w : World) :
  __d (self w) = None ->
  run (sample size ohe verbose) w = (Raise AttributeError, w).
Proof.
  intros Hd. unfold run, sample. rewrite (bind_ok _ _ w w (self w)) by reflexivity.
  now rewrite Hd.
Qed.

Lemma sample_without_weights (size : option nat) (ohe : bool) (verbose : PyValue)
    (w : World) (d : DataUtils) :
  __d (self w) = Some d -> __gen_weights (self w) = None ->
  run (sample size ohe verbose) w = (Raise TypeError, w).
Proof.
  intros Hd Hg. unfold run, sample. rewrite (bind_ok _ _ w w (self w)) by reflexivity.
  rewrite Hd, Hg. reflexivity.
Qed.

(** X7. [sample] draws nothing before the tables and the network are built.
    Without data it raises [AttributeError]; without weights it fails as
    well, with or without data; whenever it raises anything but [KeyError]
    the world is exactly as before; otherwise it has made one call, a
    forward sample of [size] rows ([data_size] when [size] is [None]), and
    either returns or raises [KeyError] for a column missing from the
    frame. *)
Theorem sample_fails_before_sampling (size : option nat) (ohe : bool)
    (verbose : PyValue) (w : World) :
  (__d (self w) = None -> run (sample size ohe verbose) w = (Raise AttributeError, w))
  /\ (__gen_weights (self w) = None ->
      exists e, e <> KeyError /\ run (sample size ohe verbose) w = (Raise e, w))
  /\ ((exists e, e <> KeyError /\ run (sample size ohe verbose) w = (Raise e, w))
      \/ (exists d bn,
            __d (self w) = Some d
            /\ let n := match size with None => data_size d | Some n => n end in
               let sp := gt_zero (normalize_verbose verbose) in
               snd (run (sample size ohe verbose) w)
               = mkWorld (self w) (snd (forward_sample bn n sp (rng w))) (session w)
                         (log w ++ [EvForwardSample bn n sp
                                      (fst (forward_sample bn n sp (rng w)))])
               /\ (fst (run (sample size ohe verbose) w) = Raise KeyError
                   \/ exists X y, fst (run (sample size ohe verbose) w) = Ok (X, y)))).
Proof.
  split; [apply sample_without_data|]. split.
  { intros Hg. destruct (__d (self w)) as [d|] eqn:Hd.
    - exists TypeError. split; [discriminate | now apply (sample_without_weights _ _ _ _ d)].
    - exists AttributeError. split; [discriminate | now apply sample_without_data]. }
  destruct (__d (self w)) as [d|] eqn:Hd.
  2:{ left. exists AttributeError. split; [discriminate | now apply sample_without_data]. }
  destruct (__gen_weights (self w)) as [gw|] eqn:Hg.
  2:{ left. exists TypeError. split; [discriminate | now apply (sample_without_weights _ _ _ _ d)]. }
  unfold run, sample. rewrite (bind_ok _ _ w w (self w)) by reflexivity.
  rewrite Hd, Hg. cbn [of_option].
  rewrite (bind_ok _ _ w w d) by reflexivity.
  rewrite (bind_ok _ _ w w gw) by reflexivity.
  destruct (full_cpd_probs_of (num_classes d) (_kdbe d) (kernel gw)) as [tables|].
  2:{ left. exists ValueError. split; [discriminate | reflexivity]. }
  cbn [of_option]. rewrite (bind_ok _ _ w w tables) by reflexivity.
  fold (feature_cpds_of d tables).
  destruct (feature_cpds_stateless d tables) as [r Hr].
  pose proof (feature_cpds_never_key_error d tables w) as Hne. rewrite Hr in Hne.
  cbn [fst] in Hne. destruct r as [cpds|e].
  2:{ left. exists e. split; [congruence|]. unfold bind. now rewrite Hr. }
  rewrite (bind_ok _ _ w w cpds) by apply Hr.
  right. exists d.
  exists (mkBayesianNetwork
            (map (fun ij => (str (fst ij), str (snd ij))) (edges_ (_kdbe d)))
            (mkTabularCPD (last (map str (seq 0 (num_features d + 1))) EmptyString)
                          (num_classes d) (y_probs_of d) [] [] :: cpds)).
  split; [reflexivity|]. cbv zeta.
  unfold bn_forward_sample at 1 2 3. unfold bind at 1 3 5.
  destruct (forward_sample _ _ _ (rng w)) as [df r'] eqn:Efs. cbn [fst snd].
  unfold lift_result, bind.
  destruct (df_getitem df _) as [sorted|e] eqn:Eg.
  - destruct ohe; unfold ret; cbn [fst snd];
      (split; [reflexivity | right; eexists _, _; reflexivity]).
  - split; [reflexivity|]. left. cbn [fst].
    unfold df_getitem in Eg. destruct (collect _); [discriminate|]. now injection Eg as <-.
Qed.

(** ** What [sample] depends on *)

Lemma rng_only_stateless {A : Type} (m : M A) : stateless m -> rng_only m.
Proof. intros [r Hr] w1 w2 H. rewrite !Hr. split; [reflexivity | exact H]. Qed.

Lemma rng_only_bind {A B : Type} (m : M A) (f : A -> M B) :
  rng_only m -> (forall a, rng_only (f a)) -> rng_only (bind m f).
Proof.
  intros Hm Hf w1 w2 H. destruct (Hm w1 w2 H) as [Hr Hw]. unfold bind.
  destruct (m w1) as [[a1|e1] w1'], (m w2) as [[a2|e2] w2']; cbn [fst snd] in *;
    try discriminate.
  - injection Hr as <-. now apply Hf.
  - injection Hr as <-. split; [reflexivity | exact Hw].
Qed.

Lemma rng_only_forward_sample (bn : BayesianNetwork) (n : nat) (sp : bool) :
  rng_only (bn_forward_sample bn n sp).
Proof.
  intros w1 w2 H. unfold bn_forward_sample. rewrite H.
  destruct (forward_sample bn n sp (rng w2)) as [df r']. split; reflexivity.
Qed.

(** X8. [sample] reads the object through its data and the kernel of the
    stored weights only: two objects with the same data and the same kernel
    give the same result and leave the same random state, whatever their
    biases, their other fields, the Keras state and the calls made before. *)
Theorem sample_depends_on_kernel_only (size : option nat) (ohe : bool)
    (verbose : PyValue) (w1 w2 : World) :
  __d (self w1) = __d (self w2) ->
  option_map kernel (__gen_weights (self w1))
  = option_map kernel (__gen_weights (self w2)) ->
  rng w1 = rng w2 ->
  fst (run (sample size ohe verbose) w1) = fst (run (sample size ohe verbose) w2)
  /\ rng (snd (run (sample size ohe verbose) w1))
     = rng (snd (run (sample size ohe verbose) w2)).
Proof.
  intros Hd Hk Hr.
  destruct (__d (self w2)) as [d|] eqn:Hd2.
  2:{ rewrite !sample_without_data by assumption. split; [reflexivity | exact Hr]. }
  destruct (__gen_weights (self w1)) as [gw1|] eqn:Hg1,
           (__gen_weights (self w2)) as [gw2|] eqn:Hg2; try discriminate.
  2:{ rewrite !(sample_without_weights _ _ _ _ d) by assumption.
      split; [reflexivity | exact Hr]. }
  cbn [option_map] in Hk. injection Hk as Hk.
  unfold run, sample.
  rewrite (bind_ok _ _ w1 w1 (self w1)) by reflexivity.
  rewrite (bind_ok _ _ w2 w2 (self w2)) by reflexivity.
  rewrite Hd, Hd2, Hg1, Hg2. cbn [of_option].
  rewrite (bind_ok _ _ w1 w1 d) by reflexivity.
  rewrite (bind_ok _ _ w2 w2 d) by reflexivity.
  rewrite (bind_ok _ _ w1 w1 gw1) by reflexivity.
  rewrite (bind_ok _ _ w2 w2 gw2) by reflexivity.
  rewrite Hk.
  match goal with
  | |- fst (?m w1) = _ /\ _ => assert (Hm : rng_only m)
  end.
  { apply rng_only_bind; [apply rng_only_stateless, stateless_of_option|]. intros tables.
    apply rng_only_bind; [apply rng_only_stateless, (feature_cpds_stateless d tables)|].
    intros cpds.
    apply rng_only_bind; [apply rng_only_forward_sample|]. intros df.
    apply rng_only_bind.
    - apply rng_only_stateless. exists (df_getitem df (map str (seq 0 (num_features d + 1)))).
      reflexivity.
    - intros sorted. apply rng_only_stateless. destruct ohe; apply stateless_ret. }
  exact (Hm w1 w2 Hr).
Qed.

(** ** The shape of what [sample] returns *)

Lemma removelast_len {A : Type} (l : list A) :
  length (removelast l) = (length l - 1)%nat.
Proof.
  induction l as [|a [|b l] IH]; [reflexivity | reflexivity|].
  change (removelast (a :: b :: l)) with (a :: removelast (b :: l)).
  cbn [length] in *. lia.
Qed.

Lemma collect_length {A : Type} (l : list (option A)) (r : list A) :
  collect l = Some r -> length r = length l.
Proof.
  revert r. induction l as [|[a|] l IH]; intros r H; cbn [collect] in H.
  - now injection H as <-.
  - destruct (collect l) as [r'|]; [|discriminate]. injection H as <-.
    cbn [length]. now rewrite (IH r' eq_refl).
  - discriminate.
Qed.

Lemma df_getitem_width (df : DataFrame) (names : list string) (sorted : DMatrix) :
  df_getitem df names = Ok sorted ->
  Forall (fun row => length row = length names) sorted.
Proof.
  unfold df_getitem. destruct (collect _) as [idxs|] eqn:E; [|discriminate].
  intros [= <-]. apply collect_length in E. rewrite length_map in E.
  apply Forall_forall. intros row Hrow. apply in_map_iff in Hrow as (r & <- & _).
  now rewrite length_map.
Qed.

(** X9. On a fitted model every row of the [X] that [sample] returns has
    exactly [num_features] entries: the label column, the last node, is
    split off and returned beside it, one label per row. *)
Theorem sample_output_shape {laws : CollaboratorLaws collab} (size : option nat)
    (verbose : PyValue) (w : World) (d : DataUtils) (gw : Weights) :
  fitted w d gw ->
  exists X y w' sorted,
    run (sample size false verbose) w = (Ok (X, y), w')
    /\ Forall (fun row => length row = num_features d) X
    /\ Forall (fun row => length row = (num_features d + 1)%nat) sorted
    /\ X = map (@removelast Z) sorted
    /\ y = map (fun row => last row 0%Z) sorted.
Proof.
  intros Hfit. destruct (sample_fitted w d gw Hfit) as (tables & _ & Hs).
  destruct (Hs size verbose) as (sorted & Hsorted & Hlen & Hrun).
  eexists _, _, _, sorted. split; [exact (Hrun false)|].
  apply df_getitem_width in Hsorted. rewrite length_map, length_seq in Hsorted.
  split; [|split; [exact Hsorted | split; reflexivity]].
  apply Forall_forall. intros row Hrow. apply in_map_iff in Hrow as (r & <- & Hr).
  rewrite Forall_forall in Hsorted. rewrite removelast_len, (Hsorted r Hr). lia.
Qed.

(** ** [evaluate]: training on synthetic data, testing on real data *)

(** X10. On a fitted model with an accepted [model], [evaluate] draws one
    synthetic sample of [data_size] rows and labels, calls the estimator's
    [fit] on it and, when [fit] returns, its [predict] on the real [x]; its
    result is what these calls and the score against the real [y] come to,
    and it makes no other call and leaves the object and the Keras state as
    they were.  An exception of [fit] ends the call; when [fit] and
    [predict] return, the result is the accuracy of the predictions, between
    0 and 1, if [y] has one label per row of [x], and [ValueError] if not. *)
Theorem evaluate_trains_on_synthetic {laws : CollaboratorLaws collab} (x : DMatrix)
    (y : list Z) (model pre : PyValue) (w : World) (d : DataUtils) (gw : Weights)
    (est : Estimator) :
  fitted w d gw -> estimator_of model = Some est ->
  exists X ys w1,
    run (sample None false (PyInt 1)) w = (Ok (X, ys), w1)
    /\ length X = data_size d
    /\ length ys = data_size d
    /\ run (evaluate x y model pre) w
       = (train_and_score est X ys (rng w1) x y,
          mkWorld (self w) (snd (sklearn_fit est X ys (rng w1))) (session w)
                  (log w1 ++ train_and_score_events est X ys (rng w1) x))
    /\ (forall cls, fst (sklearn_fit est X ys (rng w1)) = inr cls ->
        train_and_score est X ys (rng w1) x y = Raise (EstimatorError cls)
        /\ train_and_score_events est X ys (rng w1) x = [EvSklearnFit est X ys])
    /\ (forall f pred,
          fst (sklearn_fit est X ys (rng w1)) = inl f -> has_predict est = true ->
          sklearn_predict f x = inl pred ->
          train_and_score est X ys (rng w1) x y = accuracy_score y pred
          /\ (length y = length x ->
              exists acc, accuracy_score y pred = Ok acc /\ 0 <= acc <= 1)
          /\ (length y <> length x -> accuracy_score y pred = Raise ValueError)).
Proof.
  intros Hfit Hest.
  destruct (evaluate_with_fitted x y est w d gw Hfit)
    as (X & ys & w1 & Hs & Hl & Hly & He).
  exists X, ys, w1. split; [exact Hs|]. split; [exact Hl|]. split; [exact Hly|].
  split; [now rewrite (evaluate_estimator _ _ _ _ _ est Hest)|]. split.
  - intros cls Hc. unfold train_and_score, train_and_score_events. rewrite Hc.
    split; reflexivity.
  - intros f pred Hf Hp Hpred.
    split; [unfold train_and_score; now rewrite Hf, Hp, Hpred|]. split.
    + intros Hlen.
      destruct (train_and_score_returns est X ys (rng w1) x y f pred Hf Hp Hpred Hlen)
        as (acc & _ & Ha & Hb).
      exists acc. split; assumption.
    + intros Hlen. unfold accuracy_score.
      rewrite (sklearn_predict_length f x pred Hpred).
      now apply Nat.eqb_neq in Hlen as ->.
Qed.

(** X11. An object with a [fit] method but no [predict] is accepted by
    [evaluate]: on a fitted model the synthetic sample is drawn and the
    object's [fit] is called on it, and when that returns the call raises
    [AttributeError]; an exception of [fit] itself ends the call instead.
    Nothing is predicted. *)
Theorem evaluate_fits_before_predict {laws : CollaboratorLaws collab} (x : DMatrix)
    (y : list Z) (model pre : PyValue) (w : World) (d : DataUtils) (gw : Weights) :
  fitted w d gw -> hasattr model "fit" = true -> hasattr model "predict" = false ->
  exists X ys w1,
    run (sample None false (PyInt 1)) w = (Ok (X, ys), w1)
    /\ run (evaluate x y model pre) w
       = (match fst (sklearn_fit (UserModel model) X ys (rng w1)) with
          | inl _ => Raise AttributeError
          | inr cls => Raise (EstimatorError cls)
          end,
          mkWorld (self w) (snd (sklearn_fit (UserModel model) X ys (rng w1)))
                  (session w) (log w1 ++ [EvSklearnFit (UserModel model) X ys])).
Proof.
  intros Hfit Hf Hp.
  assert (Hest : estimator_of model = Some (UserModel model)).
  { unfold estimator_of. destruct model; try discriminate. cbn [py_eq_str]. now rewrite Hf. }
  destruct (evaluate_with_fitted x y (UserModel model) w d gw Hfit)
    as (X & ys & w1 & Hs & _ & _ & He).
  exists X, ys, w1. split; [exact Hs|].
  rewrite (evaluate_estimator _ _ _ _ _ _ Hest), He.
  unfold train_and_score, train_and_score_events. cbn [has_predict]. rewrite Hp.
  now destruct (fst (sklearn_fit (UserModel model) X ys (rng w1))).
Qed.

(** X12. With an accepted [model], [evaluate] on an object that has no data
    raises [AttributeError] and leaves the world exactly as it was; whatever
    exception [sample] raises, [evaluate] raises it from the same state,
    with no classifier fitted; so on an object without generator weights it
    fails and the world is as before. *)
Theorem evaluate_before_fit (x : DMatrix) (y : list Z) (model pre : PyValue) (w : World) :
  accepted_model model = true ->
  (__d (self w) = None -> run (evaluate x y model pre) w = (Raise AttributeError, w))
  /\ (forall e w', run (sample None false (PyInt 1)) w = (Raise e, w') ->
      run (evaluate x y model pre) w = (Raise e, w'))
  /\ (__gen_weights (self w) = None ->
      exists e, run (evaluate x y model pre) w = (Raise e, w)).
Proof.
  intros Ha. destruct (estimator_of_accepted model Ha) as [est Hest].
  rewrite (evaluate_estimator _ _ _ _ _ est Hest).
  assert (Hprop : forall e w', run (sample None false (PyInt 1)) w = (Raise e, w') ->
                               evaluate_with x y est w = (Raise e, w')).
  { intros e w' Hs. unfold run in Hs. unfold evaluate_with, bind. now rewrite Hs. }
  split; [|split].
  - intros Hd. apply Hprop. now apply sample_without_data.
  - exact Hprop.
  - intros Hg. destruct (__d (self w)) as [d|] eqn:Hd.
    + exists TypeError. apply Hprop. now apply (sample_without_weights _ _ _ _ d).
    + exists AttributeError. apply Hprop. now apply sample_without_data.
Qed.

(** ** The helper methods on an object that is not ready *)

(** X13. What the helper methods do on an object without data or without
    weights.  [_warmup_run] clears the Keras state and only then raises
    [AttributeError]; [_run_generator] raises it before it touches
    anything; [_discrim] has constructed its empty [Sequential] by then, so
    the Keras state has moved on, and nothing else has.  With data but no
    stored weights [_run_generator] raises [TypeError] after it has cleared
    the Keras state and built its network; the fields of the object are as
    before. *)
Theorem helpers_on_unready_object (n_epochs : nat) (loss : R) (w : World) :
  (__d (self w) = None ->
   run (_warmup_run n_epochs) w
   = (Raise AttributeError,
      mkWorld (self w) (rng w) fresh_session (log w ++ [EvClearSession]))
   /\ run (_run_generator loss) w = (Raise AttributeError, w)
   /\ run _discrim w
      = (Raise AttributeError,
         mkWorld (self w) (rng w) (sequential_init (session w)) (log w)))
  /\ (forall d, __d (self w) = Some d -> __gen_weights (self w) = None ->
      let ohex := get_kdbe_x d (k (self w)) in
      let i := dense_init (shape1 ohex) (num_classes d) (sequential_init fresh_session)
                          (rng w) in
      run (_run_generator loss) w
      = (Raise TypeError,
         mkWorld (self w) (snd i) (snd (fst i))
                 (log w ++ [EvClearSession;
                            EvDenseInit (shape1 ohex) (num_classes d) (fst (fst i))]))).
Proof.
  split.
  - intros Hd. unfold _warmup_run, _run_generator. msimpl. rewrite Hd. msimpl.
    repeat split.
  - intros d Hd Hg. cbv zeta. unfold _run_generator. msimpl. rewrite Hd. msimpl.
    destruct (dense_init _ _ (sequential_init fresh_session) (rng w)) as [[w0 s1] r1]. msimpl.
    rewrite Hg. msimpl. now rewrite <- app_assoc.
Qed.

(** X14. [_warmup_run] on an object with data always returns, whatever
    weights and constraint the object held: it replaces both, trains a new
    network for [n_epochs] from a cleared Keras state, leaves the Keras
    state cleared, and neither the network nor the outcome depends on the
    weights, the constraint or the Keras state found. *)
Theorem warmup_replaces_weights (n_epochs : nat) (w : World) (d : DataUtils) :
  __d (self w) = Some d ->
  let out := warmup_run (self w) d n_epochs (rng w) in
  run (_warmup_run n_epochs) w
  = (Ok (fst (fst (fst out))),
     mkWorld (mkGANBLR (Some d) (Some (net_weights (snd (fst (fst out)))))
                       (batch_size (self w)) (epochs (self w)) (k (self w))
                       (Some (softmax_weight (constraint_positions d))))
             (snd out) fresh_session
             (log w ++ warmup_events (self w) d n_epochs (rng w)))
  /\ forall w2,
       __d (self w2) = Some d -> batch_size (self w2) = batch_size (self w) ->
       k (self w2) = k (self w) -> epochs (self w2) = epochs (self w) ->
       rng w2 = rng w ->
       fst (run (_warmup_run n_epochs) w2) = fst (run (_warmup_run n_epochs) w)
       /\ self (snd (run (_warmup_run n_epochs) w2))
          = self (snd (run (_warmup_run n_epochs) w))
       /\ rng (snd (run (_warmup_run n_epochs) w2))
          = rng (snd (run (_warmup_run n_epochs) w)).
Proof.
  intros Hd out. split; [exact (warmup_run_spec w d n_epochs Hd)|].
  intros w2 Hd2 Hb Hk He Hr.
  rewrite (warmup_run_spec w d n_epochs Hd), (warmup_run_spec w2 d n_epochs Hd2).
  cbn [fst snd self rng]. unfold warmup_run, warmup_network. rewrite Hb, Hk, He, Hr.
  repeat split.
Qed.

(** ** The state [fit] ends in *)

Lemma last_cons_default {A : Type} (l : list A) :
  forall a d, last (a :: l) d = last l a.
Proof.
  induction l as [|b l IH]; intros a d; [reflexivity|].
  change (last (a :: b :: l) d) with (last (b :: l) d). now rewrite !IH.
Qed.

Lemma fit_rounds_full {laws : CollaboratorLaws collab} (x : DMatrix) (d : DataUtils)
    (b : nat) :
  length x = data_size d ->
  forall n w gw syn,
    fitted w d gw ->
    batch_size (self w) = Some b ->
    length syn = data_size d ->
    exists rs w',
      run (fit_rounds n x (repeat 1%Z (data_size d) ++ repeat 0%Z (data_size d)) b syn) w
      = (Ok tt, w')
      /\ length rs = n
      /\ log w' = log w ++ flat_map (round_events x d (k (self w)) b (constraints (self w))) rs
      /\ fitted w' d (final_weights gw rs)
      /\ session w' = (if (n =? 0)%nat then session w else fresh_session).
Proof.
  intros Hx n. induction n as [|n IH]; intros w gw syn Hfit Hb Hsyn.
  - exists [], w. cbn [fit_rounds flat_map length Nat.eqb]. rewrite app_nil_r.
    repeat split; try reflexivity; apply Hfit.
  - pose proof Hfit as (Hd & Hg & Hwf & Hk).
    cbn [fit_rounds]. msimpl.
    destruct (utils_sample _ _ _ (rng w)) as [[di dl] r1] eqn:Esub. msimpl.
    rewrite Hd. msimpl.
    destruct (dense_init (num_features d) 1 (sequential_init (session w)) r1) as [[w0 s1] r2] eqn:Einit. msimpl.
    destruct (keras_fit _ di dl (Some b) 1 s1 r2) as [[[h disc] s2] r3] eqn:Edisc. msimpl.
    destruct (keras_predict disc x s2) as [p s3] eqn:Epred. msimpl.
    match goal with
    | |- context [_run_generator ?l ?W] =>
        pose proof (run_generator_spec W d gw l Hd Hg) as Hgen;
        pose proof (fitted_after_refinement W d gw l
                      (conj Hd (conj Hg (conj Hwf Hk)))) as Hfit2;
        unfold run in Hgen, Hfit2; rewrite Hgen in Hfit2 |- *
    end.
    cbn [self rng session log snd] in Hfit2 |- *.
    set (out := refinement_run (self w) d gw (KL_loss p) r3) in *.
    match goal with
    | |- context [sample None false (PyInt 1) ?W] =>
        destruct (sample_fitted W d _ Hfit2) as (tables & Htab & Hsample);
        destruct (Hsample None (PyInt 1)) as (sorted & Hsorted & Hlen & Hrun);
        specialize (Hrun false); unfold run in Hrun; rewrite Hrun;
        clear Hrun Hsample
    end.
    cbn [self rng session log snd gt_zero normalize_verbose isinstance_int negb] in *.
    match goal with
    | |- context [fit_rounds n x _ b ?S ?W] =>
        destruct (IH W (net_weights (snd (fst (fst out)))) S) as
          (rs & w' & Hrun & Hrs & Hlog & Hfit' & Hses)
    end.
    { exact Hfit2. }
    { exact Hb. }
    { now rewrite length_map. }
    unfold run in Hrun. rewrite Hrun.
    cbn [self rng session log k constraints epochs batch_size] in *.
    eexists (mkRound syn di dl w0 disc p _ gw (snd (fst (fst out))) _ _ :: rs), w'.
    split; [reflexivity|]. split; [cbn [length]; now rewrite Hrs|].
    split.
    { rewrite Hlog. cbn [flat_map]. unfold round_events, refinement_events, refinement_network.
      fold out. cbn [r_syn_x r_disc_input r_disc_label r_disc_init r_disc r_prob_fake
                     r_gen_init r_gen_prev r_gen r_bn r_df].
      rewrite Hx, Hsyn, Hb.
      rewrite <- !app_assoc. cbn [app]. reflexivity. }
    split.
    { unfold final_weights. cbn [map r_gen]. rewrite last_cons_default. exact Hfit'. }
    cbn [Nat.eqb]. rewrite Hses. now destruct (n =? 0)%nat.
Qed.

Lemma fit_full {laws : CollaboratorLaws collab} (x : DMatrix) (y : list Z)
    (kk b E we : nat) (verbose : PyValue) (w : World) :
  let d := DataUtils_init x y in
  let c := Some (softmax_weight (constraint_positions d)) in
  let g0 := fit_entry (self w) d kk b in
  DataUtils_wf d ->
  data_size d = length x ->
  exists bn0 df0 rs w',
    run (fit x y kk b E we verbose) w = (Ok tt, w')
    /\ log w' = log w ++ warmup_events g0 d we (rng w)
                      ++ [EvForwardSample bn0 (data_size d) true df0]
                      ++ flat_map (round_events x d (Some kk) b c) rs
    /\ length rs = E
    /\ fitted w' d (final_weights
                      (net_weights (snd (fst (fst (warmup_run g0 d we (rng w)))))) rs)
    /\ session w' = fresh_session.
Proof.
  intros d c g0 Hwf Hsize.
  unfold fit. fold d. msimpl.
  match goal with
  | |- context [_warmup_run we ?W] =>
      pose proof (warmup_run_spec W d we eq_refl) as Hwarm;
      unfold run in Hwarm; rewrite Hwarm; clear Hwarm
  end.
  cbn [self rng session log]. fold (fit_entry (self w) d kk b). fold g0.
  set (out := warmup_run g0 d we (rng w)).
  set (gw0 := net_weights (snd (fst (fst out)))).
  match goal with
  | |- context [sample None false (PyInt 1) ?W] => set (W1 := W)
  end.
  assert (Hfit1 : fitted W1 d gw0).
  { unfold fitted, W1. cbn [self __d __gen_weights].
    split; [reflexivity|]. split; [reflexivity|]. split; [exact Hwf|].
    unfold gw0, out, warmup_run. apply keras_fit_shape.
    destruct Hwf as (_ & Hwidth & _). rewrite <- (Hwidth (k g0)).
    apply dense_init_shape. }
  destruct (sample_fitted W1 d gw0 Hfit1) as (tables & Htab & Hsample).
  destruct (Hsample None (PyInt 1)) as (sorted & Hsorted & Hlen & Hrun).
  specialize (Hrun false). unfold run in Hrun. rewrite Hrun. clear Hrun Hsample.
  cbn [gt_zero normalize_verbose isinstance_int negb] in *.
  match goal with
  | |- context [fit_rounds E x _ b ?S ?W] =>
      destruct (fit_rounds_full x d b (eq_sym Hsize) E W gw0 S) as
        (rs & w' & Hrounds & Hrs & Hlog & Hfit' & Hses)
  end.
  { exact Hfit1. }
  { reflexivity. }
  { now rewrite length_map. }
  unfold run in Hrounds. rewrite Hrounds.
  cbn [self rng session log k constraints epochs batch_size] in *.
  eexists _, _, rs, w'.
  split; [reflexivity|]. split.
  { rewrite Hlog. unfold W1. cbn [log rng self]. rewrite <- !app_assoc. reflexivity. }
  split; [exact Hrs|]. split; [exact Hfit'|].
  rewrite Hses. unfold W1. cbn [session]. now destruct (E =? 0)%nat.
Qed.

(** X15. When [fit] returns, the weights it leaves in the object are those
    of the generator refined in the last round (those of the warmup when
    [epochs] is 0, where the calls are the warmup and one sample and
    nothing else), the constraint is the one the warmup set, and the Keras
    state is cleared. *)
Theorem fit_final_state {laws : CollaboratorLaws collab} (x : DMatrix) (y : list Z)
    (kk b E we : nat) (verbose : PyValue) (w : World) :
  let d := DataUtils_init x y in
  let c := Some (softmax_weight (constraint_positions d)) in
  let g0 := fit_entry (self w) d kk b in
  let warm := net_weights (snd (fst (fst (warmup_run g0 d we (rng w))))) in
  DataUtils_wf d ->
  data_size d = length x ->
  exists bn0 df0 rounds w',
    run (fit x y kk b E we verbose) w = (Ok tt, w')
    /\ length rounds = E
    /\ log w' = log w ++ warmup_events g0 d we (rng w)
                      ++ [EvForwardSample bn0 (data_size d) true df0]
                      ++ flat_map (round_events x d (Some kk) b c) rounds
    /\ self w' = mkGANBLR (Some d)
                          (Some (last (map (fun r => net_weights (r_gen r)) rounds) warm))
                          (Some b) (epochs (self w)) (Some kk) c
    /\ session w' = fresh_session.
Proof.
  intros d c g0 warm Hwf Hsize.
  destruct (fit_full x y kk b E we verbose w Hwf Hsize)
    as (bn0 & df0 & rs & w' & Hrun & Hlog & Hrs & Hfit & Hses).
  destruct (fit_spec x y kk b E we verbose w Hwf Hsize)
    as (_ & _ & _ & _ & w2 & gw2 & Hrun2 & _ & _ & _ & _ & _ & Hfit2 & Hself).
  fold d in Hrun, Hrun2. rewrite Hrun in Hrun2. injection Hrun2 as <-.
  exists bn0, df0, rs, w'. split; [exact Hrun|]. split; [exact Hrs|].
  split; [exact Hlog|]. split; [|exact Hses].
  destruct Hfit as (_ & Hg & _), Hfit2 as (_ & Hg2 & _).
  rewrite Hg in Hg2. injection Hg2 as <-. exact Hself.
Qed.

Lemma chained_shapes (d : DataUtils) (rs : list Round) :
  forall syn gw, chained d syn gw rs ->
  length syn = data_size d -> Forall (fun row => length row = num_features d) syn ->
  Forall (fun r => length (r_syn_x r) = data_size d
                   /\ Forall (fun row => length row = num_features d) (r_syn_x r)) rs.
Proof.
  induction rs as [|r rs IH]; intros syn gw H Hl Hw; [constructor|].
  cbn [chained] in H. destruct H as (Hs & _ & syn' & (sorted & Hget & Hlen & ->) & Hch).
  constructor; [rewrite Hs; now split|].
  apply (IH _ _ Hch); [now rewrite length_map|].
  apply df_getitem_width in Hget. rewrite length_map, length_seq in Hget.
  apply Forall_forall. intros row Hrow. apply in_map_iff in Hrow as (r0 & <- & Hr0).
  rewrite Forall_forall in Hget. rewrite removelast_len, (Hget r0 Hr0). lia.
Qed.

(** X16. In each of the [epochs] rounds of [fit] the discriminator's pool is
    balanced: the synthetic block has as many rows as the real data, each
    with [num_features] entries, so the stacked rows number twice the data
    and the labels are as many ones as zeros. *)
Theorem fit_rounds_balanced {laws : CollaboratorLaws collab} (x : DMatrix) (y : list Z)
    (kk b E we : nat) (verbose : PyValue) (w : World) :
  let d := DataUtils_init x y in
  let c := Some (softmax_weight (constraint_positions d)) in
  let g0 := fit_entry (self w) d kk b in
  DataUtils_wf d ->
  data_size d = length x ->
  exists bn0 df0 rounds w',
    run (fit x y kk b E we verbose) w = (Ok tt, w')
    /\ log w' = log w ++ warmup_events g0 d we (rng w)
                      ++ [EvForwardSample bn0 (data_size d) true df0]
                      ++ flat_map (round_events x d (Some kk) b c) rounds
    /\ length rounds = E
    /\ Forall (fun r =>
                 length (r_syn_x r) = length x
                 /\ Forall (fun row => length row = num_features d) (r_syn_x r)
                 /\ forall X Y frac X' Y',
                      In (EvSubsample X Y frac X' Y')
                         (round_events x d (Some kk) b c r) ->
                      X = x ++ r_syn_x r
                      /\ length X = (2 * length x)%nat
                      /\ Y = repeat 1%Z (length x) ++ repeat 0%Z (length x))
              rounds.
Proof.
  intros d c g0 Hwf Hsize.
  destruct (fit_spec x y kk b E we verbose w Hwf Hsize)
    as (bn0 & df0 & syn0 & rs & w' & gw' & Hrun & Hlog & Hsyn & Hrs & Hch & _).
  exists bn0, df0, rs, w'. split; [exact Hrun|]. split; [exact Hlog|].
  split; [exact Hrs|].
  destruct Hsyn as (sorted & Hget & Hlen & ->).
  pose proof (chained_shapes _ _ _ _ Hch) as Hsh.
  rewrite length_map in Hsh. specialize (Hsh Hlen).
  assert (Hw0 : Forall (fun row => length row = num_features (DataUtils_init x y))
                       (map (@removelast Z) sorted)).
  { apply df_getitem_width in Hget. rewrite length_map, length_seq in Hget.
    apply Forall_forall. intros row Hrow. apply in_map_iff in Hrow as (r0 & <- & Hr0).
    rewrite Forall_forall in Hget. rewrite removelast_len, (Hget r0 Hr0). lia. }
  specialize (Hsh Hw0). eapply Forall_impl; [|exact Hsh].
  intros r [Hl Hwd]. fold d in Hl, Hwd. rewrite Hsize in Hl.
  split; [exact Hl|]. split; [exact Hwd|].
  intros X Y frac X' Y' Hin. unfold round_events in Hin. cbn [In] in Hin.
  destruct Hin as [H|[H|[H|[H|[H|[H|[H|[H|[H|[]]]]]]]]]]; try discriminate.
  injection H as <- <- _ _ _. rewrite length_app, Hl.
  split; [reflexivity|]. split; [lia | reflexivity].
Qed.

(** X17. [fit] followed by [evaluate]: on well-formed data [fit] returns and
    leaves a model on which [evaluate], with an accepted [model], draws a
    synthetic sample of as many rows as the training data; its result is
    what the estimator's [fit] on that sample, its [predict] on the test
    rows and the score come to, an accuracy in [0, 1] whenever it is a
    number, and it changes no field of the model. *)
Theorem fit_then_evaluate {laws : CollaboratorLaws collab} (x : DMatrix) (y : list Z)
    (kk b E we : nat) (verbose : PyValue) (x' : DMatrix) (y' : list Z)
    (model pre : PyValue) (est : Estimator) (w : World) :
  DataUtils_wf (DataUtils_init x y) ->
  data_size (DataUtils_init x y) = length x ->
  estimator_of model = Some est ->
  exists w1 X ys ws,
    run (fit x y kk b E we verbose) w = (Ok tt, w1)
    /\ run (sample None false (PyInt 1)) w1 = (Ok (X, ys), ws)
    /\ length X = length x
    /\ run (evaluate x' y' model pre) w1
       = (train_and_score est X ys (rng ws) x' y',
          mkWorld (self w1) (snd (sklearn_fit est X ys (rng ws))) (session w1)
                  (log ws ++ train_and_score_events est X ys (rng ws) x'))
    /\ (forall acc, train_and_score est X ys (rng ws) x' y' = Ok acc -> 0 <= acc <= 1)
    /\ (forall f pred,
          fst (sklearn_fit est X ys (rng ws)) = inl f -> has_predict est = true ->
          sklearn_predict f x' = inl pred -> length y' = length x' ->
          exists acc, train_and_score est X ys (rng ws) x' y' = Ok acc
                      /\ accuracy_score y' pred = Ok acc).
Proof.
  intros Hwf Hsize Hest.
  destruct (fit_spec x y kk b E we verbose w Hwf Hsize)
    as (_ & _ & _ & _ & w1 & gw & Hrun & _ & _ & _ & _ & _ & Hfit & _).
  destruct (evaluate_with_fitted x' y' est w1 _ gw Hfit)
    as (X & ys & ws & Hs & Hl & _ & He).
  exists w1, X, ys, ws. split; [exact Hrun|]. split; [exact Hs|].
  split; [now rewrite Hl|].
  split; [now rewrite (evaluate_estimator x' y' model pre w1 est Hest)|]. split.
  - intros acc. apply train_and_score_bounds.
  - intros f pred Hf Hp Hpred Hlen.
    destruct (train_and_score_returns est X ys (rng ws) x' y' f pred Hf Hp Hpred Hlen)
      as (acc & Ht & Ha & _).
    exists acc. split; assumption.
Qed.

(** X18. [fit] starts afresh: its outcome does not depend on the data, the
    weights, the constraint, [k] or [batch_size] the object held before, nor
    on the Keras state; two objects that agree on the never-assigned field
    [epochs], from the same random state, end with the same result, the same
    fields and the same random state. *)
Theorem fit_forgets_previous_state (x : DMatrix) (y : list Z) (kk b E we : nat)
    (verbose : PyValue) (w1 w2 : World) :
  rng w1 = rng w2 ->
  epochs (self w1) = epochs (self w2) ->
  fst (run (fit x y kk b E we verbose) w1) = fst (run (fit x y kk b E we verbose) w2)
  /\ self (snd (run (fit x y kk b E we verbose) w1))
     = self (snd (run (fit x y kk b E we verbose) w2))
  /\ rng (snd (run (fit x y kk b E we verbose) w1))
     = rng (snd (run (fit x y kk b E we verbose) w2)).
Proof.
  intros Hr He.
  set (d := DataUtils_init x y).
  pose (rest := bind (sample None false (PyInt 1)) (fun '(syn_x, _) =>
                  fit_rounds E x (repeat 1%Z (data_size d) ++ repeat 0%Z (data_size d))
                             b syn_x)).
  assert (Hrest : respects same_state same_state rest).
  { eapply respects_bind; [apply respects_sample|].
    intros [syn ys]. apply respects_fit_rounds. }
  assert (Hfit : forall w,
             run (fit x y kk b E we verbose) w
             = bind (_warmup_run we) (fun _ => rest)
                    (mkWorld (fit_entry (self w) d kk b) (rng w) (session w) (log w))).
  { intros w. reflexivity. }
  rewrite !Hfit.
  rewrite (bind_ok _ _ _ _ _
             (warmup_run_spec (mkWorld (fit_entry (self w1) d kk b) (rng w1) (session w1)
                                       (log w1)) d we eq_refl)).
  rewrite (bind_ok _ _ _ _ _
             (warmup_run_spec (mkWorld (fit_entry (self w2) d kk b) (rng w2) (session w2)
                                       (log w2)) d we eq_refl)).
  unfold warmup_run, warmup_network, fit_entry.
  cbn [self rng session log __d __gen_weights batch_size epochs k constraints].
  rewrite Hr, He.
  match goal with
  | |- fst (rest ?W1) = fst (rest ?W2) /\ _ =>
      destruct (Hrest W1 W2) as [Hres Hw]; [repeat split|]
  end.
  split; [exact Hres|].
  match type of Hw with
  | match ?r with _ => _ end => destruct r
  end; [destruct Hw as [[Hs Hg] _] | destruct Hw as [Hs Hg]]; split; assumption.
Qed.

(** ** The network [sample] hands to the sampler *)

Lemma combine_snd_map {A B : Type} (l : list A) (l' : list B) :
  length l = length l' -> map snd (combine l l') = l'.
Proof.
  revert l'; induction l as [|a l IH]; intros [|b l'] H; try discriminate; [reflexivity|].
  simpl. f_equal. apply IH. simpl in H. lia.
Qed.

Lemma Forall2_right {A B : Type} (P : B -> Prop) (l : list A) (l' : list B) :
  Forall2 (fun _ b => P b) l l' -> Forall P l'.
Proof. induction 1; constructor; assumption. Qed.

(** X19. On a fitted model the Bayesian network that [sample] hands to the
    forward sampler has the class node first, without parents, then one CPD
    per feature in feature order, named by the feature's index; every
    feature has the class node as its first parent, and its table is one
    of the reconstructed tables, with every column summing to 1. *)
Theorem sample_network_nodes {laws : CollaboratorLaws collab} (size : option nat)
    (ohe : bool) (verbose : PyValue) (w : World) (d : DataUtils) (gw : Weights) :
  fitted w d gw ->
  exists bn df y_cpd feature_cpds,
    log (snd (run (sample size ohe verbose) w))
    = log w ++ [EvForwardSample bn
                  (match size with None => data_size d | Some n => n end)
                  (gt_zero (normalize_verbose verbose)) df]
    /\ bn_cpds bn = y_cpd :: feature_cpds
    /\ bn_edges bn = map (fun ij => (str (fst ij), str (snd ij))) (edges_ (_kdbe d))
    /\ variable y_cpd = str (num_features d) /\ evidence y_cpd = []
    /\ map variable feature_cpds = map str (seq 0 (num_features d))
    /\ Some (map values feature_cpds)
       = full_cpd_probs_of (num_classes d) (_kdbe d) (kernel gw)
    /\ Forall (fun cpd =>
                 (exists parents, evidence cpd = str (num_features d) :: parents)
                 /\ Forall (fun s => s = 1) (sum_axis0 (values cpd)))
              feature_cpds.
Proof.
  intros Hfit. destruct (sample_fitted w d gw Hfit) as (tables & Htab & Hs).
  destruct (Hs size verbose) as (sorted & _ & _ & Hrun). rewrite (Hrun ohe). cbn [snd log].
  destruct Hfit as (_ & _ & (Hwf & _ & Hdeps & Hhv & _ & _) & (Hkl & Hkr)).
  destruct (full_cpd_probs_stochastic (num_classes d) (_kdbe d) (kernel gw) Hwf Hkl Hkr)
    as (tables' & Htab' & Hst).
  rewrite Htab in Htab'. injection Htab' as <-.
  assert (Hlen : length (dependencies_ (_kdbe d)) = length tables).
  { rewrite <- (length_map fst), Hdeps, length_seq, <- Hhv.
    eapply Forall2_length; eauto. }
  assert (Hy : last (map str (seq 0 (num_features d + 1))) EmptyString
               = str (num_features d)).
  { rewrite seq_app, map_app. cbn [seq map Nat.add]. apply last_last. }
  eexists _, _, _, _. split; [reflexivity|].
  unfold network_of. cbn [bn_cpds bn_edges]. split; [reflexivity|].
  split; [reflexivity|]. cbn [variable evidence]. split; [exact Hy|].
  split; [reflexivity|]. split.
  { rewrite map_map. unfold cpd_of. cbn [variable].
    rewrite <- (map_map (fun nt => fst (fst nt)) str), <- (map_map fst fst).
    now rewrite combine_fst_map, Hdeps by exact Hlen. }
  split.
  { rewrite Htab, map_map. unfold cpd_of. cbn [values].
    now rewrite combine_snd_map by exact Hlen. }
  apply Forall_forall. intros cpd Hin. apply in_map_iff in Hin as ([dep t] & <- & Hnt).
  unfold cpd_of. cbn [evidence values snd]. split; [rewrite Hy; eexists; reflexivity|].
  apply in_combine_r in Hnt.
  assert (Hall : Forall (fun t => Forall (fun s => s = 1) (sum_axis0 t)) tables).
  { apply (Forall2_right _ (have_value_idxs_ (_kdbe d))).
    eapply Forall2_impl; [|exact Hst]. intros hv tb Ht. apply Ht. }
  rewrite Forall_forall in Hall. exact (Hall _ Hnt).
Qed.

(** X20. [sample] reads [verbose] only to decide whether the sampler shows
    its progress bar: two values that are both positive or both not, after
    the replacement of [None] and of anything that is not an int by 1, give
    the same outcome. *)
Theorem sample_verbose_only_progress (size : option nat) (ohe : bool)
    (verbose1 verbose2 : PyValue) (w : World) :
  gt_zero (normalize_verbose verbose1) = gt_zero (normalize_verbose verbose2) ->
  run (sample size ohe verbose1) w = run (sample size ohe verbose2) w.
Proof. intros H. unfold run, sample. cbv zeta. now rewrite H. Qed.

End ModelProperties.

(** * The small instance satisfies the contracts *)

Lemma demo_laws : CollaboratorLaws demo_collab.
Proof.
  constructor; cbn.
  - intros i u s r. split; [apply repeat_length|].
    apply Forall_forall. intros row Hrow. apply repeat_spec in Hrow. subst.
    apply repeat_length.
  - intros net x y b e s r n c H. exact H.
  - intros bn n sp r. now rewrite length_map, length_seq.
  - intros bn n sp r cpd H. now apply in_map.
  - intros f x pred H. injection H as <-. apply length_map.
Qed.

Lemma demo_d_wf : DataUtils_wf demo_d.
Proof.
  unfold DataUtils_wf. cbn.
  repeat split; try reflexivity.
  repeat constructor.
Qed.

Lemma demo_fitted_is_fitted : fitted demo_fitted demo_d demo_weights.
Proof.
  unfold fitted. split; [reflexivity|]. split; [reflexivity|].
  split; [exact demo_d_wf|]. split; [reflexivity|]. cbn. repeat constructor.
Qed.

(** * The claims on the small instance *)

#[local] Existing Instance demo_collab.
#[local] Existing Instance demo_laws.

Lemma reconstructed_cpd_column_stochastic_witness :
  exists tables,
    full_cpd_probs_of (num_classes demo_d) (_kdbe demo_d) (kernel demo_weights) = Some tables
    /\ Forall2 (fun have_value table =>
                 length (sum_axis0 table)
                 = (num_classes demo_d * length (have_value_rows have_value))%nat
                 /\ Forall (fun s => s = 1) (sum_axis0 table))
              (have_value_idxs_ (_kdbe demo_d)) tables.
Proof.
  apply (reconstructed_cpd_column_stochastic demo_d demo_weights);
    [reflexivity | split; [reflexivity | repeat constructor]].
Defined.

Lemma refinement_loss_from_real_rows_witness :
  let d := demo_d in
  let c := Some (softmax_weight (constraint_positions d)) in
  exists prefix rounds w',
    run (fit demo_x demo_y 2 32 2 1 (PyInt 1)) demo_world = (Ok tt, w')
    /\ log w' = log demo_world ++ prefix
                ++ flat_map (round_events demo_x d (Some 2%nat) 32 c) rounds
    /\ length rounds = 2%nat
    /\ Forall (fun r =>
                 round_genuine demo_x d 32 r
                 /\ forall net X Y batch n trained loss,
                      In (EvFit net X Y batch n trained)
                         (round_events demo_x d (Some 2%nat) 32 c r) ->
                      net_loss net = elr_loss_of loss ->
                      trained = r_gen r
                      /\ loss = np_mean (map (fun p => - ln (1 - p)) (r_prob_fake r)))
              rounds.
Proof.
  apply (refinement_loss_from_real_rows demo_x demo_y 2 32 2 1 (PyInt 1) demo_world);
    [exact demo_d_wf | reflexivity].
Defined.

Lemma fit_performs_rounds_witness :
  let d := demo_d in
  let c := Some (softmax_weight (constraint_positions d)) in
  let g0 := fit_entry (self demo_world) d 2 32 in
  exists bn0 df0 syn0 rounds w',
    run (fit demo_x demo_y 2 32 2 1 (PyInt 1)) demo_world = (Ok tt, w')
    /\ log w' = log demo_world ++ warmup_events g0 d 1 (rng demo_world)
                ++ [EvForwardSample bn0 (data_size d) true df0]
                ++ flat_map (round_events demo_x d (Some 2%nat) 32 c) rounds
    /\ syn_x_of d df0 syn0
    /\ length rounds = 2%nat
    /\ chained d syn0
               (net_weights (snd (fst (fst (warmup_run g0 d 1 (rng demo_world))))))
               rounds.
Proof.
  apply (fit_performs_rounds demo_x demo_y 2 32 2 1 (PyInt 1) demo_world);
    [exact demo_d_wf | reflexivity].
Defined.

Lemma sample_returns_requested_rows_witness :
  exists X y w',
    run (sample (Some 5%nat) false (PyInt 0)) demo_fitted = (Ok (X, y), w')
    /\ length X = 5%nat /\ length y = 5%nat
    /\ run (sample (Some 5%nat) true (PyInt 0)) demo_fitted
       = (Ok (OneHotEncoder_fit_transform X, y), w')
    /\ length (OneHotEncoder_fit_transform X) = 5%nat.
Proof.
  apply (sample_returns_requested_rows demo_fitted demo_d demo_weights (Some 5%nat)
           (PyInt 0) demo_fitted_is_fitted).
Defined.

Lemma refinement_carries_only_weights_witness :
  let w := demo_fitted in
  let net := refinement_network (self w) demo_d demo_weights 0 in
  let out := refinement_run (self w) demo_d demo_weights 0 (rng w) in
  let w' := snd (run (_run_generator 0) w) in
  net_optimizer net = adam
  /\ net_weights net = demo_weights
  /\ fst (run (_run_generator 0) w) = Ok (fst (fst (fst out)))
  /\ log w' = log w ++ refinement_events (self w) demo_d demo_weights 0 (rng w)
  /\ __gen_weights (self w') = Some (net_weights (snd (fst (fst out))))
  /\ __d (self w') = __d (self w)
  /\ batch_size (self w') = batch_size (self w)
  /\ epochs (self w') = epochs (self w)
  /\ k (self w') = k (self w)
  /\ constraints (self w') = constraints (self w)
  /\ session w' = fresh_session
  /\ forall w2, same_seed w w2 ->
       fst (run (_run_generator 0) w2) = fst (run (_run_generator 0) w)
       /\ self (snd (run (_run_generator 0) w2)) = self w'
       /\ rng (snd (run (_run_generator 0) w2)) = rng w'.
Proof.
  apply (refinement_carries_only_weights demo_fitted demo_d demo_weights 0);
    reflexivity.
Defined.

Lemma evaluate_invalid_argument_witness :
  run (evaluate demo_x demo_y (PyInt 42) PyNone) demo_fitted
  = (Raise InvalidArgument, demo_fitted)
  /\ exists acc,
       fst (run (evaluate demo_x demo_y (PyStr "lr") PyNone) demo_fitted) = Ok acc
       /\ accuracy_score demo_y [0; 0; 0; 0]%Z = Ok acc
       /\ 0 <= acc <= 1.
Proof.
  destruct (evaluate_invalid_argument demo_x demo_y (PyInt 42) PyNone demo_fitted)
    as (_ & _ & _ & H42 & Hlr).
  split; [exact H42|].
  destruct (Hlr demo_d demo_weights demo_fitted_is_fitted) as (X & ys & w1 & Hs & _ & Hok).
  assert (Hys : ys = [1; 0; 1; 0]%Z).
  { pose proof (f_equal (fun p => match fst p with
                                  | Ok a => snd a
                                  | Raise _ => []
                                  end) Hs) as H.
    lazy in H. now symmetry. }
  apply (Hok tt [0; 0; 0; 0]%Z); [rewrite Hys; reflexivity | reflexivity | reflexivity].
Defined.

(** On a fitted model whose synthetic sample has a single class, [evaluate]
    with ['lr'] does not return a score: the exception of the logistic
    regression ends the call. *)
Lemma evaluate_lr_one_class_raises :
  fitted demo_fitted1 demo_d1 demo_weights
  /\ length demo_y = length demo_x
  /\ fst (run (evaluate demo_x demo_y (PyStr "lr") PyNone) demo_fitted1)
     = Raise (EstimatorError "ValueError").
Proof.
  split; [|split; [reflexivity | lazy; reflexivity]].
  unfold fitted. split; [reflexivity|]. split; [reflexivity|]. split.
  - unfold DataUtils_wf. cbn. repeat split; try reflexivity. repeat constructor.
  - split; [reflexivity|]. cbn. repeat constructor.
Qed.



(** * Further properties of the reconstruction *)

(** ** Rows of the kernel beyond the constraint groups *)

Lemma split_by_firstn {A : Type} (cs : list nat) (m : list A) :
  split_by cs (firstn (list_sum cs) m) = split_by cs m.
Proof.
  revert m; induction cs as [|c cs IH]; intros m; [reflexivity|].
  cbn [split_by]. change (list_sum (c :: cs)) with (c + list_sum cs)%nat. f_equal.
  - rewrite firstn_firstn. f_equal. lia.
  - rewrite <- (IH (skipn c m)). f_equal. now rewrite firstn_skipn_comm.
Qed.

(** X1. The reconstruction reads the first [sum(constraints_)] rows of the
    kernel only: further rows are dropped by the slicing, without an
    error. *)
Theorem reconstruction_ignores_extra_rows (num_classes : nat) (e : KdbEncoder)
    (w : list (list R)) :
  full_cpd_probs_of num_classes e w
  = full_cpd_probs_of num_classes e (firstn (list_sum (constraints_ e)) w).
Proof.
  unfold full_cpd_probs_of, cpd_probs_of. rewrite !group_slices_split_by.
  unfold np_exp. now rewrite <- firstn_map, split_by_firstn.
Qed.

(** ** Shifting the logits *)

Lemma np_exp_shift (c : list R) (w : list (list R)) :
  np_exp (shift_rows c w) = map (scale_row c) (np_exp w).
Proof.
  unfold np_exp, shift_rows, scale_row. rewrite !map_map. apply map_ext. intros row.
  rewrite map_map. revert c. induction row as [|x row IH]; intros [|a c]; try reflexivity.
  cbn [map combine fst snd]. now rewrite exp_plus, IH.
Qed.

Lemma split_by_map {A B : Type} (f : A -> B) (cs : list nat) (m : list A) :
  split_by cs (map f m) = map (map f) (split_by cs m).
Proof.
  revert m; induction cs as [|k cs IH]; intros m; [reflexivity|].
  cbn [split_by map]. now rewrite firstn_map, skipn_map, IH.
Qed.

Lemma scale_row_length (c row : list R) :
  length row = length c -> length (scale_row c row) = length c.
Proof. intros H. unfold scale_row. rewrite length_map, length_combine. lia. Qed.

Lemma scale_row_nth (c row : list R) (j : nat) :
  length row = length c -> (j < length c)%nat ->
  nth j (scale_row c row) 0 = nth j row 0 * exp (nth j c 0).
Proof.
  intros Hl Hj. unfold scale_row.
  rewrite (nth_indep _ 0 ((fun xc : R * R => fst xc * exp (snd xc)) (0, 0)))
    by (rewrite length_map, length_combine; lia).
  rewrite (map_nth (fun xc : R * R => fst xc * exp (snd xc))).
  now rewrite combine_nth.
Qed.

Lemma rsum_map_mult {A : Type} (f : A -> R) (k : R) (l : list A) :
  rsum (map (fun a => f a * k) l) = rsum (map f l) * k.
Proof. induction l as [|a l IH]; cbn [map rsum]; [lra | rewrite IH; lra]. Qed.

Lemma sum_axis0_scaled (c : list R) (g : list (list R)) :
  g <> [] -> Forall (fun row => length row = length c) g ->
  sum_axis0 (map (scale_row c) g) = scale_row c (sum_axis0 g).
Proof.
  intros Hne H.
  assert (Hs : shape1 g = length c).
  { destruct H as [|row g' Hl _]; [congruence | exact Hl]. }
  assert (Hs' : shape1 (map (scale_row c) g) = length c).
  { destruct H as [|row g' Hl _]; [congruence|]. cbn [map]. unfold shape1. cbn [hd].
    now apply scale_row_length. }
  apply (nth_ext _ _ 0 0).
  - rewrite sum_axis0_length, Hs', scale_row_length; [reflexivity|].
    now rewrite sum_axis0_length.
  - intros j Hj. rewrite sum_axis0_length, Hs' in Hj.
    rewrite sum_axis0_nth by lia.
    rewrite scale_row_nth by (rewrite ?sum_axis0_length; lia).
    rewrite sum_axis0_nth by lia.
    unfold column. rewrite map_map.
    rewrite <- (rsum_map_mult (fun row => nth j row 0)). f_equal.
    apply map_ext_in. intros row Hrow. rewrite Forall_forall in H.
    apply scale_row_nth; [now apply H | exact Hj].
Qed.

Lemma div_scaled (c row s : list R) :
  length row = length c -> length s = length c ->
  Forall (fun x => 0 < x) s ->
  map (fun xs => fst xs / snd xs) (combine (scale_row c row) (scale_row c s))
  = map (fun xs => fst xs / snd xs) (combine row s).
Proof.
  unfold scale_row. revert row s. induction c as [|a c IH]; intros [|x row] [|y s] Hr Hs Hp;
    try discriminate; [reflexivity|].
  inversion Hp as [|y0 s0 Hy Hps]; subst.
  cbn [combine map fst snd]. f_equal.
  - pose proof (exp_pos a). field. split; lra.
  - apply IH; [simpl in Hr; lia | simpl in Hs; lia | assumption].
Qed.

Lemma normalize_group_scaled (c : list R) (g : list (list R)) :
  positive_rows (length c) g ->
  normalize_group (map (scale_row c) g) = normalize_group g.
Proof.
  intros Hpos. destruct g as [|r0 g'] eqn:Eg; [reflexivity|]. rewrite <- Eg in *.
  assert (Hne : g <> []) by (rewrite Eg; discriminate).
  assert (Hlen : Forall (fun row => length row = length c) g).
  { unfold positive_rows in Hpos. rewrite Forall_forall in *. intros row Hrow.
    apply (Hpos row Hrow). }
  unfold normalize_group. rewrite (sum_axis0_scaled c g Hne Hlen).
  unfold div_rows. rewrite map_map. apply map_ext_in. intros row Hrow.
  rewrite Forall_forall in Hlen.
  apply div_scaled.
  - now apply Hlen.
  - rewrite sum_axis0_length. now apply (shape1_positive_rows (length c)).
  - now apply (sum_axis0_positive (length c)).
Qed.

Lemma uniform_shift_invariant (cs : list nat) (c : list R) (w : list (list R)) :
  Forall (fun row => length row = length c) w ->
  cpd_probs_of cs (shift_rows c w) = cpd_probs_of cs w.
Proof.
  intros Hw. unfold cpd_probs_of.
  rewrite !group_slices_split_by, np_exp_shift, split_by_map.
  rewrite map_map. f_equal. apply map_ext_in. intros g Hg.
  apply normalize_group_scaled.
  apply (positive_rows_group (length c) cs (np_exp w) g);
    [now apply np_exp_positive | exact Hg].
Qed.

(** X2. The normalised probabilities, and so the reconstructed tables, depend
    on the kernel only up to a constant per constraint group and class: two
    kernels whose groups differ by such constants give the same result. *)
Theorem reconstruction_shift_invariant (num_classes : nat) (e : KdbEncoder)
    (w1 w2 : list (list R)) :
  Forall2 shifted_group (group_slices (constraints_ e) w1)
                        (group_slices (constraints_ e) w2) ->
  cpd_probs_of (constraints_ e) w1 = cpd_probs_of (constraints_ e) w2
  /\ full_cpd_probs_of num_classes e w1 = full_cpd_probs_of num_classes e w2.
Proof.
  intros H.
  assert (Hcpd : cpd_probs_of (constraints_ e) w1 = cpd_probs_of (constraints_ e) w2).
  { unfold cpd_probs_of. rewrite !group_slices_split_by in *.
    unfold np_exp. rewrite !split_by_map, !map_map. f_equal.
    induction H as [|g1 g2 l1 l2 (c & Hlen & ->) _ IH]; [reflexivity|].
    cbn [map]. f_equal; [|exact IH].
    change (map (map exp) (shift_rows c g2)) with (np_exp (shift_rows c g2)).
    change (map (map exp) g2) with (np_exp g2). rewrite np_exp_shift.
    apply normalize_group_scaled. now apply np_exp_positive. }
  split; [exact Hcpd|].
  unfold full_cpd_probs_of. fold (cpd_probs_of (constraints_ e) w1).
  fold (cpd_probs_of (constraints_ e) w2). now rewrite Hcpd.
Qed.

(** ** Entries of the tables *)




















(** * The further properties on the small instance *)

Lemma reconstruction_shift_invariant_witness :
  let w2 := kernel demo_weights in
  let w1 := shift_rows [1; 2] (firstn 2 w2) ++ shift_rows [3; 4] (skipn 2 w2) in
  cpd_probs_of (constraints_ demo_kdbe) w1 = cpd_probs_of (constraints_ demo_kdbe) w2
  /\ full_cpd_probs_of 2 demo_kdbe w1 = full_cpd_probs_of 2 demo_kdbe w2.
Proof.
  apply (reconstruction_shift_invariant 2 demo_kdbe).
  cbv [group_slices constraint_idxs consecutive cumsum cumsum_from slice firstn skipn map
       fst snd combine Nat.sub Nat.add shift_rows demo_kdbe constraints_ kernel
       demo_weights repeat app].
  constructor; [exists [1; 2]; split; [repeat constructor | reflexivity]|].
  repeat (constructor; [exists [3; 4]; split; [repeat constructor | reflexivity]|]).
  constructor.
Defined.


Lemma sample_fails_before_sampling_witness :
  run (sample None false (PyInt 1)) demo_world = (Raise AttributeError, demo_world).
Proof.
  exact (proj1 (sample_fails_before_sampling None false (PyInt 1) demo_world) eq_refl).
Defined.

Lemma sample_depends_on_kernel_only_witness :
  let w1 := demo_fitted in
  let w2 := @mkWorld demo_collab
              (mkGANBLR (Some demo_d) (Some (mkWeights (kernel demo_weights) [5; 7]))
                        None None None None)
              7%nat 3%nat [EvClearSession] in
  fst (run (sample (Some 3%nat) false (PyInt 0)) w1)
  = fst (run (sample (Some 3%nat) false (PyInt 0)) w2)
  /\ rng (snd (run (sample (Some 3%nat) false (PyInt 0)) w1))
     = rng (snd (run (sample (Some 3%nat) false (PyInt 0)) w2)).
Proof.
  apply (sample_depends_on_kernel_only (Some 3%nat) false (PyInt 0)); reflexivity.
Defined.

Lemma sample_output_shape_witness :
  exists X y w' sorted,
    run (sample (Some 5%nat) false (PyInt 0)) demo_fitted = (Ok (X, y), w')
    /\ Forall (fun row => length row = num_features demo_d) X
    /\ Forall (fun row => length row = (num_features demo_d + 1)%nat) sorted
    /\ X = map (@removelast Z) sorted
    /\ y = map (fun row => last row 0%Z) sorted.
Proof.
  apply (sample_output_shape (Some 5%nat) (PyInt 0) demo_fitted demo_d demo_weights
           demo_fitted_is_fitted).
Defined.

Lemma evaluate_trains_on_synthetic_witness :
  let est := ScaledPipeline "lr" LogisticRegression in
  exists X ys w1,
    run (sample None false (PyInt 1)) demo_fitted = (Ok (X, ys), w1)
    /\ length X = data_size demo_d
    /\ length ys = data_size demo_d
    /\ run (evaluate demo_x demo_y (PyStr "lr") PyNone) demo_fitted
       = (train_and_score est X ys (rng w1) demo_x demo_y,
          mkWorld (self demo_fitted) (snd (sklearn_fit est X ys (rng w1)))
                  (session demo_fitted)
                  (log w1 ++ train_and_score_events est X ys (rng w1) demo_x))
    /\ (forall cls, fst (sklearn_fit est X ys (rng w1)) = inr cls ->
        train_and_score est X ys (rng w1) demo_x demo_y = Raise (EstimatorError cls)
        /\ train_and_score_events est X ys (rng w1) demo_x = [EvSklearnFit est X ys])
    /\ (forall f pred,
          fst (sklearn_fit est X ys (rng w1)) = inl f -> has_predict est = true ->
          sklearn_predict f demo_x = inl pred ->
          train_and_score est X ys (rng w1) demo_x demo_y = accuracy_score demo_y pred
          /\ (length demo_y = length demo_x ->
              exists acc, accuracy_score demo_y pred = Ok acc /\ 0 <= acc <= 1)
          /\ (length demo_y <> length demo_x ->
              accuracy_score demo_y pred = Raise ValueError)).
Proof.
  apply (evaluate_trains_on_synthetic demo_x demo_y (PyStr "lr") PyNone demo_fitted demo_d
           demo_weights (ScaledPipeline "lr" LogisticRegression) demo_fitted_is_fitted).
  reflexivity.
Defined.

Lemma evaluate_fits_before_predict_witness :
  let model := PyObj ["fit"%string] 0 in
  exists X ys w1,
    run (sample None false (PyInt 1)) demo_fitted = (Ok (X, ys), w1)
    /\ run (evaluate demo_x demo_y model PyNone) demo_fitted
       = (match fst (sklearn_fit (UserModel model) X ys (rng w1)) with
          | inl _ => Raise AttributeError
          | inr cls => Raise (EstimatorError cls)
          end,
          mkWorld (self demo_fitted) (snd (sklearn_fit (UserModel model) X ys (rng w1)))
                  (session demo_fitted) (log w1 ++ [EvSklearnFit (UserModel model) X ys])).
Proof.
  apply (evaluate_fits_before_predict demo_x demo_y (PyObj ["fit"%string] 0) PyNone
           demo_fitted demo_d demo_weights demo_fitted_is_fitted);
    reflexivity.
Defined.

Lemma evaluate_before_fit_witness :
  run (evaluate demo_x demo_y (PyStr "lr") PyNone) demo_world
  = (Raise AttributeError, demo_world).
Proof.
  exact (proj1 (evaluate_before_fit demo_x demo_y (PyStr "lr") PyNone demo_world eq_refl)
               eq_refl).
Defined.

Lemma helpers_on_unready_object_witness :
  run (_warmup_run 1) demo_world
  = (Raise AttributeError,
     mkWorld (self demo_world) (rng demo_world) fresh_session
             (log demo_world ++ [EvClearSession]))
  /\ run (_run_generator 0) demo_world = (Raise AttributeError, demo_world)
  /\ run _discrim demo_world
     = (Raise AttributeError,
        mkWorld (self demo_world) (rng demo_world) (sequential_init (session demo_world))
                (log demo_world)).
Proof.
  exact (proj1 (helpers_on_unready_object 1 0 demo_world) eq_refl).
Defined.

Lemma warmup_replaces_weights_witness :
  let w := demo_fitted in
  let out := warmup_run (self w) demo_d 1 (rng w) in
  run (_warmup_run 1) w
  = (Ok (fst (fst (fst out))),
     mkWorld (mkGANBLR (Some demo_d) (Some (net_weights (snd (fst (fst out)))))
                       (batch_size (self w)) (epochs (self w)) (k (self w))
                       (Some (softmax_weight (constraint_positions demo_d))))
             (snd out) fresh_session
             (log w ++ warmup_events (self w) demo_d 1 (rng w)))
  /\ forall w2,
       __d (self w2) = Some demo_d -> batch_size (self w2) = batch_size (self w) ->
       k (self w2) = k (self w) -> epochs (self w2) = epochs (self w) ->
       rng w2 = rng w ->
       fst (run (_warmup_run 1) w2) = fst (run (_warmup_run 1) w)
       /\ self (snd (run (_warmup_run 1) w2)) = self (snd (run (_warmup_run 1) w))
       /\ rng (snd (run (_warmup_run 1) w2)) = rng (snd (run (_warmup_run 1) w)).
Proof.
  apply (warmup_replaces_weights 1 demo_fitted demo_d). reflexivity.
Defined.

Lemma fit_final_state_witness :
  let d := demo_d in
  let c := Some (softmax_weight (constraint_positions d)) in
  let g0 := fit_entry (self demo_world) d 2 32 in
  let warm := net_weights (snd (fst (fst (warmup_run g0 d 1 (rng demo_world))))) in
  exists bn0 df0 rounds w',
    run (fit demo_x demo_y 2 32 2 1 (PyInt 1)) demo_world = (Ok tt, w')
    /\ length rounds = 2%nat
    /\ log w' = log demo_world ++ warmup_events g0 d 1 (rng demo_world)
                ++ [EvForwardSample bn0 (data_size d) true df0]
                ++ flat_map (round_events demo_x d (Some 2%nat) 32 c) rounds
    /\ self w' = mkGANBLR (Some d)
                          (Some (last (map (fun r => net_weights (r_gen r)) rounds) warm))
                          (Some 32%nat) (epochs (self demo_world)) (Some 2%nat) c
    /\ session w' = fresh_session.
Proof.
  apply (fit_final_state demo_x demo_y 2 32 2 1 (PyInt 1) demo_world);
    [exact demo_d_wf | reflexivity].
Defined.

Lemma fit_rounds_balanced_witness :
  let d := demo_d in
  let c := Some (softmax_weight (constraint_positions d)) in
  let g0 := fit_entry (self demo_world) d 2 32 in
  exists bn0 df0 rounds w',
    run (fit demo_x demo_y 2 32 2 1 (PyInt 1)) demo_world = (Ok tt, w')
    /\ log w' = log demo_world ++ warmup_events g0 d 1 (rng demo_world)
                ++ [EvForwardSample bn0 (data_size d) true df0]
                ++ flat_map (round_events demo_x d (Some 2%nat) 32 c) rounds
    /\ length rounds = 2%nat
    /\ Forall (fun r =>
                 length (r_syn_x r) = length demo_x
                 /\ Forall (fun row => length row = num_features d) (r_syn_x r)
                 /\ forall X Y frac X' Y',
                      In (EvSubsample X Y frac X' Y')
                         (round_events demo_x d (Some 2%nat) 32 c r) ->
                      X = demo_x ++ r_syn_x r
                      /\ length X = (2 * length demo_x)%nat
                      /\ Y = repeat 1%Z (length demo_x) ++ repeat 0%Z (length demo_x))
              rounds.
Proof.
  apply (fit_rounds_balanced demo_x demo_y 2 32 2 1 (PyInt 1) demo_world);
    [exact demo_d_wf | reflexivity].
Defined.

Lemma fit_then_evaluate_witness :
  let est := ScaledPipeline "mlp" MLPClassifier in
  exists w1 X ys ws,
    run (fit demo_x demo_y 2 32 2 1 (PyInt 1)) demo_world = (Ok tt, w1)
    /\ run (sample None false (PyInt 1)) w1 = (Ok (X, ys), ws)
    /\ length X = length demo_x
    /\ run (evaluate demo_x demo_y (PyStr "mlp") PyNone) w1
       = (train_and_score est X ys (rng ws) demo_x demo_y,
          mkWorld (self w1) (snd (sklearn_fit est X ys (rng ws))) (session w1)
                  (log ws ++ train_and_score_events est X ys (rng ws) demo_x))
    /\ (forall acc, train_and_score est X ys (rng ws) demo_x demo_y = Ok acc ->
        0 <= acc <= 1)
    /\ (forall f pred,
          fst (sklearn_fit est X ys (rng ws)) = inl f -> has_predict est = true ->
          sklearn_predict f demo_x = inl pred -> length demo_y = length demo_x ->
          exists acc, train_and_score est X ys (rng ws) demo_x demo_y = Ok acc
                      /\ accuracy_score demo_y pred = Ok acc).
Proof.
  apply (fit_then_evaluate demo_x demo_y 2 32 2 1 (PyInt 1) demo_x demo_y (PyStr "mlp")
           PyNone (ScaledPipeline "mlp" MLPClassifier) demo_world);
    [exact demo_d_wf | reflexivity | reflexivity].
Defined.

Lemma fit_forgets_previous_state_witness :
  let w1 := demo_world in
  let w2 := @mkWorld demo_collab
              (mkGANBLR None (Some demo_weights) (Some 8%nat) None (Some 1%nat) None)
              0%nat 4%nat [EvClearSession] in
  fst (run (fit demo_x demo_y 2 32 2 1 (PyInt 1)) w1)
  = fst (run (fit demo_x demo_y 2 32 2 1 (PyInt 1)) w2)
  /\ self (snd (run (fit demo_x demo_y 2 32 2 1 (PyInt 1)) w1))
     = self (snd (run (fit demo_x demo_y 2 32 2 1 (PyInt 1)) w2))
  /\ rng (snd (run (fit demo_x demo_y 2 32 2 1 (PyInt 1)) w1))
     = rng (snd (run (fit demo_x demo_y 2 32 2 1 (PyInt 1)) w2)).
Proof.
  apply (fit_forgets_previous_state demo_x demo_y 2 32 2 1 (PyInt 1)); reflexivity.
Defined.

Lemma sample_network_nodes_witness :
  exists bn df y_cpd feature_cpds,
    log (snd (run (sample (Some 5%nat) false (PyInt 0)) demo_fitted))
    = log demo_fitted ++ [EvForwardSample bn 5 (gt_zero (normalize_verbose (PyInt 0))) df]
    /\ bn_cpds bn = y_cpd :: feature_cpds
    /\ bn_edges bn = map (fun ij => (str (fst ij), str (snd ij))) (edges_ (_kdbe demo_d))
    /\ variable y_cpd = str (num_features demo_d) /\ evidence y_cpd = []
    /\ map variable feature_cpds = map str (seq 0 (num_features demo_d))
    /\ Some (map values feature_cpds)
       = full_cpd_probs_of (num_classes demo_d) (_kdbe demo_d) (kernel demo_weights)
    /\ Forall (fun cpd =>
                 (exists parents, evidence cpd = str (num_features demo_d) :: parents)
                 /\ Forall (fun s => s = 1) (sum_axis0 (values cpd)))
              feature_cpds.
Proof.
  apply (sample_network_nodes (Some 5%nat) false (PyInt 0) demo_fitted demo_d demo_weights
           demo_fitted_is_fitted).
Defined.

Lemma sample_verbose_only_progress_witness :
  run (sample None false (PyStr "loud")) demo_fitted
  = run (sample None false (PyInt 7)) demo_fitted.
Proof.
  apply (sample_verbose_only_progress None false (PyStr "loud") (PyInt 7) demo_fitted).
  reflexivity.
Defined.
